(** * gignore: rule algebra, conflict engine and parser

    A shallow embedding of the Go package [gignore] (typed ignore-file rules,
    subsumption, the four-way conflict classifier, the ordered container with
    its fixer and smart insertion, and the one-line parser), together with the
    properties established about it.

    Go strings are byte sequences: they are modelled by [string], whose
    characters are the bytes.  Go [int] values used as enumerations or as
    indices are modelled by [Z]; no arithmetic on them can overflow here
    (indices are bounded by the length of a slice). *)

From Stdlib Require Import ZArith List Bool Ascii String Lia.
From Stdlib Require Import Permutation.
Import ListNotations.

Open Scope string_scope.
Open Scope Z_scope.

(* ================================================================= *)
(** ** The part of Go's [strings] package used by the source *)

Module Strings.

(** [strings.HasPrefix(s, prefix)] *)
Definition HasPrefix (s p : string) : bool := String.prefix p s.

(** [strings.HasSuffix(s, suffix)]: [suf] is [s] itself or a suffix of its tail. *)
Fixpoint HasSuffix (s suf : string) : bool :=
  (s =? suf)%string ||
  match s with
  | EmptyString => false
  | String _ r => HasSuffix r suf
  end.

(** [s[n:]] *)
Fixpoint drop (n : nat) (s : string) : string :=
  match n, s with
  | O, _ => s
  | S _, EmptyString => EmptyString
  | S n', String _ r => drop n' r
  end.

(** [s[:n]] *)
Definition take (n : nat) (s : string) : string := substring 0 n s.

(** [strings.TrimPrefix]: [if HasPrefix(s, p) { return s[len(p):] }; return s] *)
Definition TrimPrefix (s p : string) : string :=
  if HasPrefix s p then drop (String.length p) s else s.

(** [strings.TrimSuffix]: [if HasSuffix(s, x) { return s[:len(s)-len(x)] }; return s] *)
Definition TrimSuffix (s suf : string) : string :=
  if HasSuffix s suf then take (String.length s - String.length suf) s else s.

(** [strings.Contains(s, substr)] *)
Fixpoint Contains (s sub : string) : bool :=
  HasPrefix s sub ||
  match s with
  | EmptyString => false
  | String _ r => Contains r sub
  end.

(** *** [strings.TrimSpace]

    Go trims every leading and trailing rune for which [unicode.IsSpace]
    holds.  On the UTF-8 bytes of a string these runes are exactly:
    - one byte: TAB, LF, VT, FF, CR, SPACE;
    - two bytes: U+0085 (C2 85), U+00A0 (C2 A0);
    - three bytes: U+1680 (E1 9A 80), U+2000..U+200A (E2 80 80..8A),
      U+2028, U+2029 (E2 80 A8, A9), U+202F (E2 80 AF), U+205F (E2 81 9F),
      U+3000 (E3 80 80).
    Bytes that do not decode to one of these (also invalid UTF-8, which
    decodes to U+FFFD) stop the trimming. *)

Definition code (c : ascii) : N := N_of_ascii c.

Definition space1 (c : ascii) : bool :=
  ((9 <=? code c) && (code c <=? 13) || (code c =? 32))%N.

Definition space2 (c1 c2 : ascii) : bool :=
  ((code c1 =? 194) && ((code c2 =? 133) || (code c2 =? 160)))%N.

Definition space3 (c1 c2 c3 : ascii) : bool :=
  ((code c1 =? 225) && (code c2 =? 154) && (code c3 =? 128)
   || (code c1 =? 226) && (code c2 =? 128) &&
      ((128 <=? code c3) && (code c3 <=? 138)
       || (code c3 =? 168) || (code c3 =? 169) || (code c3 =? 175))
   || (code c1 =? 226) && (code c2 =? 129) && (code c3 =? 159)
   || (code c1 =? 227) && (code c2 =? 128) && (code c3 =? 128))%N.

(** [leadSpace s]: the rest of [s] after its first rune, when that rune is a
    space. *)
Definition leadSpace (s : string) : option string :=
  match s with
  | EmptyString => None
  | String c1 r1 =>
      if space1 c1 then Some r1 else
      match r1 with
      | EmptyString => None
      | String c2 r2 =>
          if space2 c1 c2 then Some r2 else
          match r2 with
          | EmptyString => None
          | String c3 r3 => if space3 c1 c2 c3 then Some r3 else None
          end
      end
  end.

(** [allSpace s]: [s] is a sequence of space runes. *)
Fixpoint allSpace (s : string) : bool :=
  match s with
  | EmptyString => true
  | String c1 r1 =>
      if space1 c1 then allSpace r1 else
      match r1 with
      | EmptyString => false
      | String c2 r2 =>
          if space2 c1 c2 then allSpace r2 else
          match r2 with
          | EmptyString => false
          | String c3 r3 => space3 c1 c2 c3 && allSpace r3
          end
      end
  end.

(** [strings.TrimLeftFunc(s, unicode.IsSpace)] *)
Fixpoint TrimLeftSpace (s : string) : string :=
  match s with
  | EmptyString => EmptyString
  | String c1 r1 =>
      if space1 c1 then TrimLeftSpace r1 else
      match r1 with
      | EmptyString => s
      | String c2 r2 =>
          if space2 c1 c2 then TrimLeftSpace r2 else
          match r2 with
          | EmptyString => s
          | String c3 r3 => if space3 c1 c2 c3 then TrimLeftSpace r3 else s
          end
      end
  end.

(** [strings.TrimRightFunc(s, unicode.IsSpace)]: the trailing space runes of
    [s] form its longest suffix that is a sequence of space runes (the
    encodings of the space runes are uniquely decodable from either end), so
    a byte is kept exactly when the suffix starting at it is not one. *)
Fixpoint TrimRightSpace (s : string) : string :=
  match s with
  | EmptyString => EmptyString
  | String c r => if allSpace s then EmptyString else String c (TrimRightSpace r)
  end.

Definition TrimSpace (s : string) : string := TrimRightSpace (TrimLeftSpace s).

End Strings.
Import Strings.

(* ================================================================= *)
(** ** Errors, actions and rules (gignore.go) *)

Inductive error : Set :=
  | semanticConflictError | redundantRuleError | unreachableRuleError
  | ruleNotFoundError | targetRuleNotFoundError | ruleToMoveNotFoundError
  | emptyGlobPatternError | emptyPathError | emptyExtensionError
  | emptyDirectoryNameError | invalidActionError | invalidDirectoryModeError
  | invalidateDirectionError
  | sourceIdxOutOfRangeError | targetIdxOutofRangeError
  | invalidDirectoryError.

(** A Go result [(T, error)] of a constructor or of the parser: the value is
    only meaningful when the error is nil. *)
Inductive res (A : Type) : Type :=
  | Ok (a : A)
  | Err (e : error).
Arguments Ok {A} a.
Arguments Err {A} e.

Definition EXCLUDE_PREFIX : string := "!".
Definition INCLUDE_PREFIX : string := "".

(** [type Action int], with [INCLUDE Action = iota + 1]. *)
Definition Action : Set := Z.
Definition INCLUDE : Action := 1.
Definition EXCLUDE : Action := 2.

Module ActionM.
Definition Validate (a : Action) : option error :=
  if (a =? INCLUDE) || (a =? EXCLUDE) then None else Some invalidActionError.

Definition Prefix (a : Action) : string :=
  if a =? INCLUDE then INCLUDE_PREFIX
  else if a =? EXCLUDE then EXCLUDE_PREFIX
  else INCLUDE_PREFIX.
End ActionM.

(** [type DirectoryMode int], with [DIRECTORY DirectoryMode = iota + 1]. *)
Definition DirectoryMode : Set := Z.
Definition DIRECTORY : DirectoryMode := 1.
Definition CHILDREN : DirectoryMode := 2.
Definition RECURSIVE : DirectoryMode := 3.
Definition ANYWHERE : DirectoryMode := 4.
Definition ROOT_ONLY : DirectoryMode := 5.

Module DirectoryModeM.
Definition Validate (d : DirectoryMode) : option error :=
  if (d =? DIRECTORY) || (d =? RECURSIVE) || (d =? CHILDREN)
     || (d =? ANYWHERE) || (d =? ROOT_ONLY)
  then None else Some invalidDirectoryModeError.

Definition Prefix (d : DirectoryMode) : string :=
  if d =? ANYWHERE then "**/"
  else if d =? ROOT_ONLY then "/"
  else "".

Definition Suffix (d : DirectoryMode) : string :=
  if d =? DIRECTORY then "/"
  else if d =? CHILDREN then "/*"
  else if d =? RECURSIVE then "/**"
  else "".
End DirectoryModeM.

(** The four implementations of the [Ruler] interface. *)
Inductive Rule : Set :=
  | FileRule (path : string) (act : Action)
  | ExtensionRule (ext : string) (act : Action)
  | DirectoryRule (name : string) (mode : DirectoryMode) (act : Action)
  | GlobRule (pattern : string) (act : Action).

Definition validatePath (path : string) : res string :=
  let path := TrimSpace path in
  if (path =? "")%string then Err emptyPathError else Ok path.

Definition NewFileRule (path : string) (act : Action) : res Rule :=
  match validatePath path with
  | Err e => Err e
  | Ok cleanPath =>
      match ActionM.Validate act with
      | Some e => Err e
      | None => Ok (FileRule cleanPath act)
      end
  end.

Definition validateExtension (ext : string) : res string :=
  let ext := TrimSpace ext in
  let ext := TrimPrefix ext "*." in
  if (ext =? "")%string then Err emptyExtensionError else Ok ext.

Definition NewExtensionRule (ext : string) (act : Action) : res Rule :=
  match validateExtension ext with
  | Err e => Err e
  | Ok cleanedExt =>
      match ActionM.Validate act with
      | Some e => Err e
      | None => Ok (ExtensionRule cleanedExt act)
      end
  end.

Definition validateDirectoryName (name : string) : res string :=
  let name := TrimSpace name in
  let name := TrimPrefix name "/" in
  let name := TrimSuffix name "/" in
  if (name =? "")%string then Err emptyDirectoryNameError else Ok name.

Definition NewDirectoryRule (path : string) (mode : DirectoryMode) (act : Action)
  : res Rule :=
  match validateDirectoryName path with
  | Err e => Err e
  | Ok cleanedName =>
      match DirectoryModeM.Validate mode with
      | Some e => Err e
      | None =>
          match ActionM.Validate act with
          | Some e => Err e
          | None => Ok (DirectoryRule cleanedName mode act)
          end
      end
  end.

Definition validateGlobPattern (pattern : string) : res string :=
  let pattern := TrimSpace pattern in
  if (pattern =? "")%string then Err emptyGlobPatternError else Ok pattern.

Definition NewGlobRule (pattern : string) (act : Action) : res Rule :=
  match validateGlobPattern pattern with
  | Err e => Err e
  | Ok cleanPattern =>
      match ActionM.Validate act with
      | Some e => Err e
      | None => Ok (GlobRule cleanPattern act)
      end
  end.

(** The three methods of [Ruler]: [Render], [Action] and [Pattern]. *)
Definition Render (r : Rule) : string :=
  match r with
  | FileRule path act => ActionM.Prefix act ++ path
  | ExtensionRule ext act => ActionM.Prefix act ++ "*." ++ ext
  | DirectoryRule name mode act =>
      ActionM.Prefix act ++ DirectoryModeM.Prefix mode ++ name
        ++ DirectoryModeM.Suffix mode
  | GlobRule pattern act => ActionM.Prefix act ++ pattern
  end.

(** The method [Action()]; the name [Action] is taken by the type. *)
Definition ActionOf (r : Rule) : Action :=
  match r with
  | FileRule _ act | ExtensionRule _ act | DirectoryRule _ _ act
  | GlobRule _ act => act
  end.

Definition Pattern (r : Rule) : string :=
  match r with
  | FileRule path _ => path
  | ExtensionRule _ _ | DirectoryRule _ _ _ =>
      let rendered := Render r in
      if HasPrefix rendered "!" then drop 1 rendered else rendered
  | GlobRule pattern _ => pattern
  end.

Definition rulesEqual (left right : Rule) : bool :=
  (Pattern left =? Pattern right)%string && (ActionOf left =? ActionOf right).

(* ================================================================= *)
(** ** Subsumption and the conflict classifier *)

Definition ConflictType : Set := string.
Definition SEMANTIC_CONFLICT : ConflictType := "SEMANTIC_CONFLICT".
Definition REDUNDANT_RULE : ConflictType := "REDUNANT_RULE".
Definition UNREACHABLE_RULE : ConflictType := "UNREACHABLE_RULE".
Definition INEFFECTIVE_RULE : ConflictType := "INEFFECTIVE_RULE".

(** [CType] is the field [ConflictType]. *)
Record Conflict : Set := mkConflict {
  Left : Rule;
  Right : Rule;
  CType : ConflictType
}.

Definition dirModeSubsumes (broader narrower : DirectoryMode) : bool :=
  if (broader =? RECURSIVE) && ((narrower =? DIRECTORY) || (narrower =? CHILDREN))
  then true
  else if (broader =? CHILDREN) && (narrower =? DIRECTORY) then true
  else false.

Definition pathSubsumes (broader specific : string) : bool :=
  HasPrefix specific broader.

Definition pathStartsWith (path prefix : string) : bool :=
  HasPrefix path prefix.

(** [directorySubsumes(rule DirectoryRule, specific Ruler)]; the receiver is
    given by its fields. *)
Definition directorySubsumes (name : string) (mode : DirectoryMode) (act : Action)
    (specific : Rule) : bool :=
  let rule := DirectoryRule name mode act in
  match specific with
  | DirectoryRule oname omode _ =>
      if (name =? oname)%string then dirModeSubsumes mode omode
      else pathSubsumes (Pattern rule) (Pattern specific)
  | FileRule _ _ => pathStartsWith (Pattern specific) (name ++ "/")
  | GlobRule _ _ =>
      if mode =? RECURSIVE
      then pathStartsWith (Pattern specific) (TrimSuffix (Pattern rule) "/**")
      else false
  | ExtensionRule _ _ => false
  end.

Definition globSubsumes (pattern : string) (other : Rule) : bool :=
  if HasPrefix pattern "*." then
    match other with
    | FileRule _ _ =>
        let ext := TrimPrefix pattern "*." in
        HasSuffix (Pattern other) ("." ++ ext)
    | _ => false
    end
  else false.

Definition extensionSubsumes (ext : string) (other : Rule) : bool :=
  match other with
  | FileRule _ _ => HasSuffix (Pattern other) ("." ++ ext)
  | GlobRule opattern _ =>
      if HasSuffix opattern ("." ++ ext) then true else false
  | _ => false
  end.

Definition subsumes (left right : Rule) : bool :=
  match left with
  | DirectoryRule name mode act => directorySubsumes name mode act right
  | GlobRule pattern _ => globSubsumes pattern right
  | ExtensionRule ext _ => extensionSubsumes ext right
  | FileRule _ _ => false
  end.

Definition ruleAffectsPatternSpace (exception broader specific : Rule) : bool :=
  let broaderBase := TrimSuffix (Pattern broader) "/**" in
  if negb (HasPrefix (Pattern exception) broaderBase) then false
  else
    let fallback := HasPrefix (Pattern exception) broaderBase in
    match specific with
    | DirectoryRule sname smode _ =>
        if smode =? DIRECTORY then HasPrefix (Pattern exception) sname
        else fallback
    | FileRule _ _ =>
        HasPrefix (Pattern specific) (TrimPrefix (Pattern exception) "!")
    | _ => fallback
    end.

Fixpoint hasInterveningExceptions (broader specific : Rule)
    (intervening : list Rule) : bool :=
  match intervening with
  | [] => false
  | rule :: rest =>
      if negb (ActionOf rule =? ActionOf broader)
         && ruleAffectsPatternSpace rule broader specific
      then true
      else hasInterveningExceptions broader specific rest
  end.

(** [checkConflict] returns [(Conflict, bool)]; [None] stands for
    [(Conflict{}, false)]. *)
Definition checkConflict (left right : Rule) (intervening : list Rule)
  : option Conflict :=
  if (Pattern left =? Pattern right)%string then
    if negb (ActionOf left =? ActionOf right)
    then Some (mkConflict left right SEMANTIC_CONFLICT)
    else Some (mkConflict left right REDUNDANT_RULE)
  else
    let ineffective :=
      if (ActionOf left =? EXCLUDE) && (ActionOf right =? INCLUDE)
         && subsumes right left
      then Some (mkConflict left right INEFFECTIVE_RULE)
      else None in
    if ActionOf left =? ActionOf right then
      if subsumes left right then
        if hasInterveningExceptions left right intervening then None
        else Some (mkConflict left right UNREACHABLE_RULE)
      else if subsumes right left then
        if hasInterveningExceptions right left intervening then None
        else Some (mkConflict right left UNREACHABLE_RULE)
      else ineffective
    else ineffective.

(* ================================================================= *)
(** ** Results (results.go) *)

(** [type ActionResult int], [REVIEW_RECOMMENDED ActionResult = iota + 1]. *)
Definition ActionResult : Set := Z.
Definition REVIEW_RECOMMENDED : ActionResult := 1.
Definition FIXED : ActionResult := 2.
Definition ADDED : ActionResult := 3.
Definition MOVED : ActionResult := 4.
Definition REMOVED : ActionResult := 5.

(** [type ActionReason int], [REQUESTED ActionReason = iota + 1]. *)
Definition ActionReason : Set := Z.
Definition REQUESTED : ActionReason := 1.
Definition AUTOMATED_FIX : ActionReason := 2.
Definition FIX_UNKNOWN : ActionReason := 3.

(** The fields [Rule], [Result] and [Reason].  [Rule] is an interface value:
    it is nil in the zero [Result{}]. *)
Record Result : Set := mkResult {
  RRule : option Rule;
  RResult : ActionResult;
  RReason : ActionReason
}.

Definition zeroResult : Result := mkResult None 0 0.

(* ================================================================= *)
(** ** The ignore-file container (gignore.go)

    Methods with a pointer receiver take the container and return the
    container they leave behind, next to their Go results. *)

Record IgnoreFile : Set := mkIgnoreFile { rules : list Rule }.

Definition NewIgnoreFile : IgnoreFile := mkIgnoreFile [].

Definition len {A} (l : list A) : Z := Z.of_nat (List.length l).

(** [s[i:j]] for [0 <= i <= j <= len(s)]. *)
Definition slice {A} (l : list A) (i j : nat) : list A :=
  firstn (j - i) (skipn i l).

Definition addRule (f : IgnoreFile) (rule : Rule) : IgnoreFile :=
  mkIgnoreFile (rules f ++ [rule]).

Fixpoint findRuleIndexFrom (i : Z) (rs : list Rule) (target : Rule) : Z :=
  match rs with
  | [] => -1
  | rule :: rest =>
      if rulesEqual rule target then i
      else findRuleIndexFrom (i + 1) rest target
  end.

Definition findRuleIndex (f : IgnoreFile) (target : Rule) : Z :=
  findRuleIndexFrom 0 (rules f) target.

Definition ruleShouldComeBefore (newRule existing : Rule) : bool :=
  if (ActionOf newRule =? ActionOf existing) && subsumes newRule existing
  then true else false.

(** [append(f.rules[:i], f.rules[i+1:]...)] *)
Definition removeAt (rs : list Rule) (i : nat) : list Rule :=
  firstn i rs ++ skipn (S i) rs.

(** [append(f.rules[:i], append([]Ruler{rule}, f.rules[i:]...)...)] *)
Definition insertAt (rs : list Rule) (i : nat) (rule : Rule) : list Rule :=
  firstn i rs ++ rule :: skipn i rs.

Fixpoint deleteScan (i : nat) (all rest : list Rule) (target : Rule)
    (reason : ActionReason) : IgnoreFile * Result * option error :=
  match rest with
  | [] => (mkIgnoreFile all, zeroResult, Some ruleNotFoundError)
  | rule :: rest' =>
      if rulesEqual rule target
      then (mkIgnoreFile (removeAt all i),
            mkResult (Some target) REMOVED reason, None)
      else deleteScan (S i) all rest' target reason
  end.

Definition deleteMatchingRule (f : IgnoreFile) (target : Rule)
    (reason : ActionReason) : IgnoreFile * Result * option error :=
  deleteScan 0 (rules f) (rules f) target reason.

(** [FindConflicts]: both loops range over the whole slice; a pair with
    [i >= j] is skipped. *)
Definition FindConflicts (f : IgnoreFile) : list Conflict :=
  let rs := rules f in
  let idx := seq 0 (List.length rs) in
  flat_map (fun i =>
    flat_map (fun j =>
      if (j <=? i)%nat then []
      else
        match nth_error rs i, nth_error rs j with
        | Some rule1, Some rule2 =>
            match checkConflict rule1 rule2 (slice rs (i + 1) j) with
            | Some conflict => [conflict]
            | None => []
            end
        | _, _ => []
        end) idx) idx.

(** [type MoveDirection int], [BEFORE MoveDirection = iota + 1]. *)
Definition MoveDirection : Set := Z.
Definition BEFORE : MoveDirection := 1.
Definition AFTER : MoveDirection := 2.

(** The low-level move.  The rule is removed before the adjusted target is
    validated, as in the source. *)
Definition moveRule (f : IgnoreFile) (from to : Z) : IgnoreFile * option error :=
  if (from <? 0) || (from >=? len (rules f)) then (f, Some sourceIdxOutOfRangeError)
  else if from =? to then (f, None)
  else
    match nth_error (rules f) (Z.to_nat from) with
    | None => (f, Some sourceIdxOutOfRangeError)
    | Some rule =>
        let rs := removeAt (rules f) (Z.to_nat from) in
        let to := if to >? from then to - 1 else to in
        if (to <? 0) || (to >? len rs) then (mkIgnoreFile rs, Some targetIdxOutofRangeError)
        else (mkIgnoreFile (insertAt rs (Z.to_nat to) rule), None)
    end.

Definition MoveRule (f : IgnoreFile) (ruleToMove targetRule : Rule)
    (direction : MoveDirection) (reason : ActionReason)
  : IgnoreFile * Result * option error :=
  let moveIdx := findRuleIndex f ruleToMove in
  let targetIdx := findRuleIndex f targetRule in
  if moveIdx =? -1 then (f, zeroResult, Some ruleToMoveNotFoundError)
  else if targetIdx =? -1 then (f, zeroResult, Some targetRuleNotFoundError)
  else
    let finish (newIdx : Z) :=
      if moveIdx =? newIdx then (f, zeroResult, None)
      else
        match moveRule f moveIdx newIdx with
        | (f', Some err) => (f', zeroResult, Some err)
        | (f', None) => (f', mkResult (Some ruleToMove) MOVED reason, None)
        end in
    if direction =? BEFORE then
      if moveIdx =? targetIdx - 1 then (f, zeroResult, None)
      else finish targetIdx
    else if direction =? AFTER then
      if moveIdx =? targetIdx + 1 then (f, zeroResult, None)
      else finish (targetIdx + 1)
    else (f, zeroResult, Some invalidateDirectionError).

Definition fixConflict (f : IgnoreFile) (conflict : Conflict)
  : IgnoreFile * Result * option error :=
  if (CType conflict =? REDUNDANT_RULE)%string then
    deleteMatchingRule f (Left conflict) AUTOMATED_FIX
  else if (CType conflict =? UNREACHABLE_RULE)%string then
    let leftIdx := findRuleIndex f (Left conflict) in
    let rightIdx := findRuleIndex f (Right conflict) in
    if rightIdx =? leftIdx + 1
    then deleteMatchingRule f (Right conflict) AUTOMATED_FIX
    else MoveRule f (Right conflict) (Left conflict) AFTER AUTOMATED_FIX
  else if (CType conflict =? SEMANTIC_CONFLICT)%string then
    (f, mkResult (Some (Left conflict)) REVIEW_RECOMMENDED FIX_UNKNOWN, None)
  else if (CType conflict =? INEFFECTIVE_RULE)%string then
    MoveRule f (Left conflict) (Right conflict) AFTER AUTOMATED_FIX
  else (f, zeroResult, None).

(** The state of the [FixConflicts] loop.  [passes] is a ghost counter of the
    iterations of the outer loop that were entered (each calls
    [FindConflicts] once); it is not part of the Go results. *)
Record FixRun : Set := mkFixRun {
  file : IgnoreFile;
  fixLogs : list Result;
  failure : option error;
  passes : nat
}.

(** The inner loop [for _, conflict := range conflicts]: it stops at the
    first repair that fails, with the log as it was before that repair. *)
Fixpoint fixEach (f : IgnoreFile) (conflicts : list Conflict) (logs : list Result)
  : IgnoreFile * list Result * option error :=
  match conflicts with
  | [] => (f, logs, None)
  | conflict :: rest =>
      match fixConflict f conflict with
      | (f', _, Some err) => (f', logs, Some err)
      | (f', description, None) => fixEach f' rest (logs ++ [description])
      end
  end.

(** The outer loop [for range maxPasses], by recursion on the number of
    iterations that remain. *)
Fixpoint fixLoop (remaining : nat) (f : IgnoreFile) (logs : list Result)
    (done : nat) : FixRun :=
  match remaining with
  | O => mkFixRun f logs None done
  | S remaining' =>
      let conflicts := FindConflicts f in
      match conflicts with
      | [] => mkFixRun f logs None (S done)
      | _ :: _ =>
          match fixEach f conflicts logs with
          | (f', logs', Some err) => mkFixRun f' logs' (Some err) (S done)
          | (f', logs', None) => fixLoop remaining' f' logs' (S done)
          end
      end
  end.

(** [for range maxPasses] runs [maxPasses] times, and not at all when
    [maxPasses <= 0]. *)
Definition FixConflictsRun (f : IgnoreFile) (maxPasses : Z) : FixRun :=
  fixLoop (Z.to_nat maxPasses) f [] 0.

Definition FixConflicts (f : IgnoreFile) (maxPasses : Z)
  : IgnoreFile * list Result * option error :=
  let run := FixConflictsRun f maxPasses in
  (file run, fixLogs run, failure run).

(** The scan of [addRuleWithConflictResolution]: [rest] is [f.rules[i:]], so
    that the intervening rules [f.rules[i+1:]] are its tail.  It returns the
    insertion point, or the error of the first rejected conflict. *)
Fixpoint addScan (i : nat) (rest : list Rule) (rule : Rule)
    (idealInsertionPoint : nat) : res nat :=
  match rest with
  | [] => Ok idealInsertionPoint
  | existing :: intervening =>
      let continue (ideal : nat) :=
        let ideal :=
          if ruleShouldComeBefore rule existing && (i <? ideal)%nat
          then i else ideal in
        addScan (S i) intervening rule ideal in
      match checkConflict existing rule intervening with
      | Some conflict =>
          if (CType conflict =? SEMANTIC_CONFLICT)%string then Err semanticConflictError
          else if (CType conflict =? REDUNDANT_RULE)%string then Err redundantRuleError
          else if (CType conflict =? UNREACHABLE_RULE)%string then Err unreachableRuleError
          else if (CType conflict =? INEFFECTIVE_RULE)%string then continue i
          else continue idealInsertionPoint
      | None => continue idealInsertionPoint
      end
  end.

Definition addRuleWithConflictResolution (f : IgnoreFile) (rule : Rule)
  : IgnoreFile * list Result * option error :=
  match addScan 0 (rules f) rule (List.length (rules f)) with
  | Err err => (f, [], Some err)
  | Ok idealInsertionPoint =>
      let f1 := mkIgnoreFile (insertAt (rules f) idealInsertionPoint rule) in
      let addition := mkResult (Some rule) ADDED REQUESTED in
      match FixConflicts f1 20 with
      | (f2, _, Some err) => (f2, [], Some err)
      | (f2, fixedConflicts, None) => (f2, addition :: fixedConflicts, None)
      end
  end.

(** Facade methods. *)
Definition AddFile (f : IgnoreFile) (path : string) (action : Action)
  : IgnoreFile * list Result * option error :=
  match NewFileRule path action with
  | Err err => (f, [], Some err)
  | Ok rule => addRuleWithConflictResolution f rule
  end.

Definition DeleteExtension (f : IgnoreFile) (ext : string) (action : Action)
  : IgnoreFile * Result * option error :=
  match NewExtensionRule ext action with
  | Err err => (f, zeroResult, Some err)
  | Ok targetRule => deleteMatchingRule f targetRule REQUESTED
  end.

Definition DeleteGlob (f : IgnoreFile) (pattern : string) (action : Action)
  : IgnoreFile * Result * option error :=
  match NewGlobRule pattern action with
  | Err err => (f, zeroResult, Some err)
  | Ok targetRule => deleteMatchingRule f targetRule REQUESTED
  end.

(* ================================================================= *)
(** ** The one-line parser *)

Definition isExtensionPattern (line : string) : bool :=
  HasPrefix line "*."
  && negb (Contains (drop 2 line) "/")
  && negb (Contains (drop 2 line) "*").

Definition isDirectoryPattern (line : string) : bool :=
  HasSuffix line "/" || HasSuffix line "/*" || HasSuffix line "/**"
  || HasPrefix line "**/" || HasPrefix line "/".

(** The [switch] of [parseDirectoryRule]: the name and the mode it assigns,
    [None] in its [default] case. *)
Definition directoryParts (line : string) : option (string * DirectoryMode) :=
  if HasSuffix line "/**" then Some (TrimSuffix line "/**", RECURSIVE)
  else if HasSuffix line "/*" then Some (TrimSuffix line "/*", CHILDREN)
  else if HasSuffix line "/" then Some (TrimSuffix line "/", DIRECTORY)
  else if HasPrefix line "**/" then Some (TrimPrefix line "**/", ANYWHERE)
  else if HasPrefix line "/" then Some (TrimPrefix line "/", ROOT_ONLY)
  else None.

Definition parseDirectoryRule (line : string) (action : Action) : res Rule :=
  match directoryParts line with
  | None => Err invalidDirectoryError
  | Some (name, mode) => NewDirectoryRule name mode action
  end.

Definition isGlobPattern (line : string) : bool :=
  Contains line "*" || Contains line "?" || Contains line "[".

Definition parseRule (line : string) : res Rule :=
  let action := if HasPrefix line "!" then EXCLUDE else INCLUDE in
  let line := if HasPrefix line "!" then drop 1 line else line in
  if isExtensionPattern line then NewExtensionRule line action
  else if isDirectoryPattern line then parseDirectoryRule line action
  else if isGlobPattern line then NewGlobRule line action
  else NewFileRule line action.

(** [Parse] splits the content at line feeds: [strings.Split(content, "\n")].
    A content without line feed is one line, also when it is empty. *)
Fixpoint splitLines (content : string) : list string :=
  match content with
  | EmptyString => [EmptyString]
  | String c rest =>
      if (c =? "010")%char then EmptyString :: splitLines rest
      else
        match splitLines rest with
        | line :: lines => String c line :: lines
        | [] => [String c EmptyString]
        end
  end.

(** The body of the loop of [Parse] for one line.  A line that does not
    parse is logged by the source and skipped; the log is not modelled. *)
Definition parseLine (f : IgnoreFile) (line : string) : IgnoreFile :=
  let line := TrimSpace line in
  if (line =? "")%string || HasPrefix line "#" then f
  else
    match parseRule line with
    | Err _ => f
    | Ok rule => addRule f rule
    end.

(** [Parse(content, ignoreFile)]: it populates the container it is given and
    always returns a nil error. *)
Definition Parse (content : string) (f : IgnoreFile) : IgnoreFile * option error :=
  (fold_left parseLine (splitLines content) f, None).

(* ================================================================= *)
(** ** Rendering a container (render.go) *)

Record RenderOptions : Set := mkRenderOptions {
  TrailingNewLine : bool;
  HeaderComment : string
}.

(** The function [Render(ignoreFile, options)]; the name [Render] is taken by
    the method of the rules.  [String.concat] is [strings.Join]. *)
Definition RenderFile (f : IgnoreFile) (options : RenderOptions) : string :=
  let header :=
    if (0 <? String.length (HeaderComment options))%nat
    then ["# " ++ HeaderComment options; EmptyString] else [] in
  let lines := (header ++ map Render (rules f))%list in
  let result := String.concat (String "010" EmptyString) lines in
  if TrailingNewLine options then result ++ String "010" EmptyString
  else result.

(* ================================================================= *)
(** ** The remaining facade methods *)

Definition AddExtension (f : IgnoreFile) (ext : string) (action : Action)
  : IgnoreFile * list Result * option error :=
  match NewExtensionRule ext action with
  | Err err => (f, [], Some err)
  | Ok rule => addRuleWithConflictResolution f rule
  end.

Definition AddDirectory (f : IgnoreFile) (name : string) (mode : DirectoryMode)
    (action : Action) : IgnoreFile * list Result * option error :=
  match NewDirectoryRule name mode action with
  | Err err => (f, [], Some err)
  | Ok rule => addRuleWithConflictResolution f rule
  end.

Definition AddGlob (f : IgnoreFile) (pattern : string) (action : Action)
  : IgnoreFile * list Result * option error :=
  match NewGlobRule pattern action with
  | Err err => (f, [], Some err)
  | Ok rule => addRuleWithConflictResolution f rule
  end.

Definition DeleteFile (f : IgnoreFile) (path : string) (action : Action)
  : IgnoreFile * Result * option error :=
  match NewFileRule path action with
  | Err err => (f, zeroResult, Some err)
  | Ok targetRule => deleteMatchingRule f targetRule REQUESTED
  end.

Definition DeleteDirectory (f : IgnoreFile) (name : string) (mode : DirectoryMode)
    (action : Action) : IgnoreFile * Result * option error :=
  match NewDirectoryRule name mode action with
  | Err err => (f, zeroResult, Some err)
  | Ok targetRule => deleteMatchingRule f targetRule REQUESTED
  end.

(* ================================================================= *)
(** ** Notions used by the statements *)

(** A rule is valid when one of the four constructors returns it. *)
Inductive validRule : Rule -> Prop :=
  | valid_file x a r : NewFileRule x a = Ok r -> validRule r
  | valid_extension x a r : NewExtensionRule x a = Ok r -> validRule r
  | valid_directory x m a r : NewDirectoryRule x m a = Ok r -> validRule r
  | valid_glob x a r : NewGlobRule x a = Ok r -> validRule r.

(** A single canonical line, as [Parse] hands it to [parseRule]: one line (no
    line feed), equal to its own [TrimSpace], not empty and not a comment. *)
Definition singleCanonicalLine (s : string) : bool :=
  negb (Contains s (String "010" ""))
  && (TrimSpace s =? s)%string
  && negb (s =? "")%string
  && negb (HasPrefix s "#").

(** The error [addRuleWithConflictResolution] returns for a conflict class,
    [None] for the classes that do not reject the insertion. *)
Definition rejection (c : Conflict) : option error :=
  if (CType c =? SEMANTIC_CONFLICT)%string then Some semanticConflictError
  else if (CType c =? REDUNDANT_RULE)%string then Some redundantRuleError
  else if (CType c =? UNREACHABLE_RULE)%string then Some unreachableRuleError
  else None.

(** What the scan of [add] meets at [existing], the head of [existing ::
    intervening]. *)
Definition rejectionAt (rule existing : Rule) (intervening : list Rule)
  : option error :=
  match checkConflict existing rule intervening with
  | Some c => rejection c
  | None => None
  end.

(** The index of the first rule of [rs] that [rulesEqual] identifies with
    [target]: what the scans of [findRuleIndex] and [deleteMatchingRule]
    look for. *)
Fixpoint firstMatch (rs : list Rule) (target : Rule) : option nat :=
  match rs with
  | [] => None
  | rule :: rest =>
      if rulesEqual rule target then Some O
      else option_map S (firstMatch rest target)
  end.

(** The error of the first existing rule that rejects [rule], scanning
    [rest] as [addRuleWithConflictResolution] does. *)
Fixpoint firstRejection (rule : Rule) (rest : list Rule) : option error :=
  match rest with
  | [] => None
  | existing :: intervening =>
      match rejectionAt rule existing intervening with
      | Some e => Some e
      | None => firstRejection rule intervening
      end
  end.

(** What [parseRule] does with a line once the action is read off and the
    ["!"] is stripped. *)
Definition classifyLine (line : string) (action : Action) : res Rule :=
  if isExtensionPattern line then NewExtensionRule line action
  else if isDirectoryPattern line then parseDirectoryRule line action
  else if isGlobPattern line then NewGlobRule line action
  else NewFileRule line action.

(** A rule that is written as one canonical line and that [parseRule] reads
    back: a valid rule whose rendered form is a single canonical line; if
    its action is INCLUDE the line does not begin with ["!"]; its pattern
    key is not ["*."]; and a directory name that the parser reads off the
    key is one that the directory constructor keeps as it is. *)
Definition readsBack (r : Rule) : Prop :=
  validRule r
  /\ singleCanonicalLine (Render r) = true
  /\ (ActionOf r = INCLUDE -> HasPrefix (Render r) "!" = false)
  /\ Pattern r <> "*."
  /\ (isExtensionPattern (Pattern r) = false ->
      forall name mode, directoryParts (Pattern r) = Some (name, mode) ->
                        validateDirectoryName name = Ok name).

(** The containers of the scenarios. *)
Module Scenario.
Definition buildDir : Rule := DirectoryRule "build" DIRECTORY INCLUDE.
Definition buildRec : Rule := DirectoryRule "build" RECURSIVE INCLUDE.
Definition notImportant : Rule := FileRule "build/important.txt" EXCLUDE.
Definition txtExt : Rule := ExtensionRule "txt" INCLUDE.
Definition todoTxt : Rule := FileRule "todo.txt" INCLUDE.
Definition buildATxt : Rule := FileRule "build/a.txt" INCLUDE.

(** Scenario B: [build/**, build/] *)
Definition B : IgnoreFile := mkIgnoreFile [buildRec; buildDir].
(** Scenario D: [build/, !build/important.txt, build/**] *)
Definition D : IgnoreFile := mkIgnoreFile [buildDir; notImportant; buildRec].
(** Scenario E: [*.txt] *)
Definition E : IgnoreFile := mkIgnoreFile [txtExt].
(** [*.txt, build/, build/a.txt]: the file rule is shadowed by two broader
    rules at once. *)
Definition twoShadows : IgnoreFile := mkIgnoreFile [txtExt; buildDir; buildATxt].
(** [todo.md, !todo.md]: a semantic conflict and nothing else. *)
Definition contradiction : IgnoreFile :=
  mkIgnoreFile [FileRule "todo.md" INCLUDE; FileRule "todo.md" EXCLUDE].
(** Scenario A: [*.log, *.log, config.json] *)
Definition A : IgnoreFile :=
  mkIgnoreFile [ExtensionRule "log" INCLUDE; ExtensionRule "log" INCLUDE;
                FileRule "config.json" INCLUDE].
(** [a/, a/b/**, a/b/*.tmp, a/*]: three unreachable-rule conflicts, the third
    of which has lost its broader rule by the time it is repaired. *)
Definition dirA : Rule := DirectoryRule "a" DIRECTORY INCLUDE.
Definition dirAB : Rule := DirectoryRule "a/b" RECURSIVE INCLUDE.
Definition tmpGlob : Rule := GlobRule "a/b/*.tmp" INCLUDE.
Definition dirAChildren : Rule := DirectoryRule "a" CHILDREN INCLUDE.
Definition nested : IgnoreFile :=
  mkIgnoreFile [dirA; dirAB; tmpGlob; dirAChildren].
(** [*.txt, *.txt, a.txt]: the file rule is reported as unreachable once for
    each copy of the extension rule. *)
Definition aTxt : Rule := FileRule "a.txt" INCLUDE.
Definition twice : IgnoreFile := mkIgnoreFile [txtExt; txtExt; aTxt].
End Scenario.

(* ================================================================= *)
(** * Properties *)

(** ** Strings *)

Section StringFacts.

Lemma append_nil_r (s : string) : s ++ "" = s.
Proof. induction s; simpl; congruence. Qed.

Lemma HasPrefix_app (p s : string) : HasPrefix (p ++ s) p = true.
Proof.
  unfold HasPrefix. induction p as [|c p IH]; simpl.
  - destruct s; reflexivity.
  - destruct (ascii_dec c c); [exact IH | congruence].
Qed.

Lemma HasPrefix_split (s p : string) :
  HasPrefix s p = true -> s = p ++ drop (String.length p) s.
Proof.
  unfold HasPrefix. revert s. induction p as [|c p IH]; intros s H; simpl.
  - reflexivity.
  - destruct s as [|d s]; simpl in H; [discriminate|].
    destruct (ascii_dec c d); [subst | discriminate].
    simpl. f_equal. apply IH, H.
Qed.

Lemma TrimPrefix_split (s p : string) :
  HasPrefix s p = true -> p ++ TrimPrefix s p = s.
Proof.
  intros H. unfold TrimPrefix. rewrite H. symmetry. apply HasPrefix_split, H.
Qed.

Lemma HasSuffix_refl (s : string) : HasSuffix s s = true.
Proof.
  destruct s; [reflexivity|].
  cbn -[String.eqb]. rewrite String.eqb_refl. reflexivity.
Qed.

Lemma HasSuffix_app (s suf : string) : HasSuffix (s ++ suf) suf = true.
Proof.
  induction s as [|c s IH]; simpl.
  - apply HasSuffix_refl.
  - rewrite IH. apply orb_true_r.
Qed.

Lemma HasSuffix_length (s suf : string) :
  HasSuffix s suf = true -> (String.length suf <= String.length s)%nat.
Proof.
  induction s as [|c s IH]; intros H.
  - destruct suf; [simpl; lia | discriminate].
  - cbn -[String.eqb] in H. apply orb_true_iff in H. destruct H as [H|H].
    + apply String.eqb_eq in H. subst. simpl. lia.
    + apply IH in H. simpl. lia.
Qed.

Lemma take_cons (n : nat) (c : ascii) (s : string) :
  take (S n) (String c s) = String c (take n s).
Proof. reflexivity. Qed.

Lemma HasSuffix_split (s suf : string) :
  HasSuffix s suf = true ->
  take (String.length s - String.length suf) s ++ suf = s.
Proof.
  induction s as [|c s IH]; intros H.
  - destruct suf; [reflexivity | discriminate].
  - cbn -[String.eqb] in H.
    destruct (String c s =? suf)%string eqn:E.
    + apply String.eqb_eq in E. subst suf.
      rewrite Nat.sub_diag. reflexivity.
    + simpl in H. pose proof (HasSuffix_length _ _ H) as L.
      replace (String.length (String c s) - String.length suf)%nat
        with (S (String.length s - String.length suf)) by (cbn [String.length]; lia).
      rewrite take_cons. simpl. f_equal. apply IH, H.
Qed.

Lemma TrimSuffix_split (s suf : string) :
  HasSuffix s suf = true -> TrimSuffix s suf ++ suf = s.
Proof. intros H. unfold TrimSuffix. rewrite H. apply HasSuffix_split, H. Qed.

Lemma Contains_prefix (s sub : string) :
  HasPrefix s sub = true -> Contains s sub = true.
Proof. intros H. destruct s; cbn [Contains]; rewrite H; reflexivity. Qed.

Lemma Contains_app (a b c : string) : Contains (a ++ b ++ c) b = true.
Proof.
  induction a as [|x a IH].
  - apply Contains_prefix. exact (HasPrefix_app b c).
  - cbn [append Contains]. rewrite IH. apply orb_true_r.
Qed.

End StringFacts.

(** ** [TrimSpace] *)

Section TrimSpaceFacts.

Lemma allSpace_app (a b : string) :
  allSpace a = true -> allSpace b = true -> allSpace (a ++ b) = true.
Proof.
  intros Ha Hb.
  assert (G : forall n a, (String.length a <= n)%nat ->
                          allSpace a = true -> allSpace (a ++ b) = true).
  { clear a Ha. induction n as [|n IH]; intros a L H.
    - destruct a; [exact Hb | simpl in L; lia].
    - destruct a as [|c1 r1]; [exact Hb|].
      cbn [allSpace append String.length] in *.
      destruct (space1 c1); [apply IH; [lia | exact H]|].
      destruct r1 as [|c2 r2]; [discriminate|].
      cbn [append String.length] in *.
      destruct (space2 c1 c2); [apply IH; [lia | exact H]|].
      destruct r2 as [|c3 r3]; [discriminate|].
      cbn [append String.length] in *.
      apply andb_true_iff in H. destruct H as [H1 H2]. rewrite H1.
      apply IH; [lia | exact H2]. }
  apply (G (String.length a)); [lia | exact Ha].
Qed.

Lemma TrimRightSpace_split (s : string) :
  exists w, s = TrimRightSpace s ++ w /\ allSpace w = true.
Proof.
  induction s as [|c r [w [E W]]].
  - exists "". split; reflexivity.
  - cbn [TrimRightSpace]. destruct (allSpace (String c r)) eqn:A.
    + exists (String c r). split; [reflexivity | exact A].
    + exists w. split; [cbn [append]; congruence | exact W].
Qed.

Lemma TrimRightSpace_idem (s : string) :
  TrimRightSpace (TrimRightSpace s) = TrimRightSpace s.
Proof.
  induction s as [|c r IH]; [reflexivity|].
  cbn [TrimRightSpace]. destruct (allSpace (String c r)) eqn:A; [reflexivity|].
  cbn [TrimRightSpace]. rewrite IH.
  destruct (allSpace (String c (TrimRightSpace r))) eqn:B; [|reflexivity].
  exfalso. destruct (TrimRightSpace_split r) as [w [E W]].
  pose proof (allSpace_app _ _ B W) as C. cbn [append] in C.
  rewrite <- E in C. congruence.
Qed.

Lemma TrimLeftSpace_fixed (s : string) :
  leadSpace s = None -> TrimLeftSpace s = s.
Proof.
  destruct s as [|c1 [|c2 [|c3 r3]]]; cbn [leadSpace TrimLeftSpace];
    try reflexivity.
  - destruct (space1 c1); [discriminate | reflexivity].
  - destruct (space1 c1); [discriminate|].
    destruct (space2 c1 c2); [discriminate | reflexivity].
  - destruct (space1 c1); [discriminate|].
    destruct (space2 c1 c2); [discriminate|].
    destruct (space3 c1 c2 c3); [discriminate | reflexivity].
Qed.

Lemma leadSpace_TrimLeftSpace (s : string) : leadSpace (TrimLeftSpace s) = None.
Proof.
  assert (G : forall n s, (String.length s <= n)%nat ->
                          leadSpace (TrimLeftSpace s) = None).
  { clear s. induction n as [|n IH]; intros s L.
    - destruct s; [reflexivity | simpl in L; lia].
    - destruct s as [|c1 r1]; [reflexivity|].
      cbn [TrimLeftSpace String.length] in *.
      destruct (space1 c1) eqn:S1; [apply IH; lia|].
      destruct r1 as [|c2 r2]; [cbn [leadSpace]; rewrite S1; reflexivity|].
      cbn [String.length] in *.
      destruct (space2 c1 c2) eqn:S2; [apply IH; lia|].
      destruct r2 as [|c3 r3];
        [cbn [leadSpace]; rewrite S1, S2; reflexivity|].
      cbn [String.length] in *.
      destruct (space3 c1 c2 c3) eqn:S3; [apply IH; lia|].
      cbn [leadSpace]. rewrite S1, S2, S3. reflexivity. }
  apply (G (String.length s)). lia.
Qed.

Lemma TrimRightSpace_cons (c : ascii) (r : string) :
  TrimRightSpace (String c r) = "" \/
  TrimRightSpace (String c r) = String c (TrimRightSpace r).
Proof.
  cbn [TrimRightSpace]. destruct (allSpace (String c r)); [left | right]; reflexivity.
Qed.

Lemma leadSpace_TrimRightSpace (s : string) :
  leadSpace s = None -> leadSpace (TrimRightSpace s) = None.
Proof.
  intros H. destruct s as [|c1 r1]; [reflexivity|].
  destruct (TrimRightSpace_cons c1 r1) as [-> | ->]; [reflexivity|].
  cbn [leadSpace] in *. destruct (space1 c1); [discriminate|].
  destruct r1 as [|c2 r2]; [reflexivity|].
  destruct (TrimRightSpace_cons c2 r2) as [-> | ->]; [reflexivity|].
  destruct (space2 c1 c2); [discriminate|].
  destruct r2 as [|c3 r3]; [reflexivity|].
  destruct (TrimRightSpace_cons c3 r3) as [-> | ->]; [reflexivity|].
  destruct (space3 c1 c2 c3); [discriminate | reflexivity].
Qed.

(** A string returned by [TrimSpace] is left alone by [TrimSpace]. *)
Lemma TrimSpace_idem (s : string) : TrimSpace (TrimSpace s) = TrimSpace s.
Proof.
  unfold TrimSpace.
  rewrite (TrimLeftSpace_fixed (TrimRightSpace (TrimLeftSpace s))).
  - apply TrimRightSpace_idem.
  - apply leadSpace_TrimRightSpace, leadSpace_TrimLeftSpace.
Qed.

Lemma TrimSpace_fixed_right (t : string) :
  TrimSpace t = t -> TrimRightSpace t = t.
Proof.
  intros H. rewrite <- H at 1. unfold TrimSpace.
  rewrite TrimRightSpace_idem. exact H.
Qed.

(** Putting ["*."] in front of a trimmed string keeps it trimmed. *)
Lemma TrimSpace_star_dot (t : string) :
  TrimSpace t = t -> TrimSpace ("*." ++ t) = "*." ++ t.
Proof.
  intros H. apply TrimSpace_fixed_right in H.
  unfold TrimSpace.
  assert (L : TrimLeftSpace ("*." ++ t) = "*." ++ t).
  { apply TrimLeftSpace_fixed. destruct t; reflexivity. }
  rewrite L. cbn [append].
  assert (A1 : forall u, allSpace (String "*" (String "." u)) = false).
  { intros [|c u]; reflexivity. }
  assert (A2 : forall u, allSpace (String "." u) = false).
  { intros [|c [|d u]]; reflexivity. }
  cbn [TrimRightSpace]. rewrite A1, A2, H. reflexivity.
Qed.

End TrimSpaceFacts.

(** ** The container: lookup, deletion and moves *)

Section ContainerFacts.

Local Open Scope list_scope.

Lemma removeAt_app (l1 l2 : list Rule) (r : Rule) :
  removeAt (l1 ++ r :: l2) (List.length l1) = l1 ++ l2.
Proof.
  unfold removeAt. induction l1 as [|x l1 IH]; [reflexivity|].
  simpl. f_equal. exact IH.
Qed.

Lemma firstMatch_split (rs : list Rule) (t : Rule) (i : nat) :
  firstMatch rs t = Some i ->
  exists l1 r l2,
    rs = l1 ++ r :: l2 /\ List.length l1 = i /\ rulesEqual r t = true /\
    (forall r', In r' l1 -> rulesEqual r' t = false).
Proof.
  revert i. induction rs as [|x rs IH]; intros i H; [discriminate|].
  cbn [firstMatch] in H. destruct (rulesEqual x t) eqn:E.
  - injection H as <-. exists [], x, rs. repeat split; auto. intros r' [].
  - destruct (firstMatch rs t) as [k|] eqn:F; [|discriminate].
    injection H as <-. destruct (IH k eq_refl) as (l1 & r & l2 & -> & L & Er & N).
    exists (x :: l1), r, l2. repeat split; simpl; auto.
    intros r' [<- | I]; auto.
Qed.

Lemma firstMatch_app (l1 l2 : list Rule) (r t : Rule) :
  (forall r', In r' l1 -> rulesEqual r' t = false) ->
  rulesEqual r t = true ->
  firstMatch (l1 ++ r :: l2) t = Some (List.length l1).
Proof.
  intros N E. induction l1 as [|x l1 IH]; cbn [firstMatch app List.length].
  - rewrite E. reflexivity.
  - rewrite (N x (or_introl eq_refl)), IH; [reflexivity|].
    intros r' I. apply N. right. exact I.
Qed.

Lemma firstMatch_In (rs : list Rule) (r t : Rule) :
  In r rs -> rulesEqual r t = true -> exists i, firstMatch rs t = Some i.
Proof.
  induction rs as [|x rs IH]; intros I E; [destruct I|].
  cbn [firstMatch]. destruct (rulesEqual x t) eqn:X; [eauto|].
  destruct I as [-> | I]; [congruence|].
  destruct (IH I E) as [i ->]. simpl. eauto.
Qed.

Lemma findRuleIndexFrom_firstMatch (rs : list Rule) (t : Rule) (k : Z) :
  findRuleIndexFrom k rs t =
  match firstMatch rs t with
  | Some i => k + Z.of_nat i
  | None => -1
  end.
Proof.
  revert k. induction rs as [|x rs IH]; intros k; [reflexivity|].
  cbn [findRuleIndexFrom firstMatch]. destruct (rulesEqual x t).
  - simpl. lia.
  - rewrite IH. destruct (firstMatch rs t); simpl; lia.
Qed.

Lemma findRuleIndex_firstMatch (f : IgnoreFile) (t : Rule) :
  findRuleIndex f t =
  match firstMatch (rules f) t with
  | Some i => Z.of_nat i
  | None => -1
  end.
Proof.
  unfold findRuleIndex. rewrite findRuleIndexFrom_firstMatch.
  destruct (firstMatch (rules f) t); reflexivity.
Qed.

Lemma findRuleIndex_nat (f : IgnoreFile) (t : Rule) (i : nat) :
  findRuleIndex f t = Z.of_nat i -> firstMatch (rules f) t = Some i.
Proof.
  rewrite findRuleIndex_firstMatch.
  destruct (firstMatch (rules f) t); intros H; [f_equal; lia | lia].
Qed.

Lemma deleteScan_firstMatch (all rest : list Rule) (t : Rule)
    (reason : ActionReason) (i : nat) :
  deleteScan i all rest t reason =
  match firstMatch rest t with
  | Some k => (mkIgnoreFile (removeAt all (i + k)),
               mkResult (Some t) REMOVED reason, None)
  | None => (mkIgnoreFile all, zeroResult, Some ruleNotFoundError)
  end.
Proof.
  revert i. induction rest as [|x rest IH]; intros i; [reflexivity|].
  cbn [deleteScan firstMatch]. destruct (rulesEqual x t).
  - rewrite Nat.add_0_r. reflexivity.
  - rewrite IH. destruct (firstMatch rest t); simpl; [|reflexivity].
    rewrite Nat.add_succ_r. reflexivity.
Qed.

(** [deleteMatchingRule] removes the first rule equal to the target (by
    pattern key and action) and fails, leaving the container alone, when
    there is none. *)
Lemma deleteMatchingRule_firstMatch (f : IgnoreFile) (t : Rule)
    (reason : ActionReason) :
  deleteMatchingRule f t reason =
  match firstMatch (rules f) t with
  | Some k => (mkIgnoreFile (removeAt (rules f) k),
               mkResult (Some t) REMOVED reason, None)
  | None => (f, zeroResult, Some ruleNotFoundError)
  end.
Proof.
  unfold deleteMatchingRule. rewrite deleteScan_firstMatch.
  destruct f as [rs]. reflexivity.
Qed.

Lemma firstMatch_length (rs : list Rule) (t : Rule) (i : nat) :
  firstMatch rs t = Some i -> (i < List.length rs)%nat.
Proof.
  intros H. destruct (firstMatch_split _ _ _ H) as (l1 & r & l2 & -> & <- & _).
  rewrite length_app. simpl. lia.
Qed.

Lemma length_removeAt (rs : list Rule) (j : nat) :
  (j < List.length rs)%nat ->
  List.length (removeAt rs j) = (List.length rs - 1)%nat.
Proof.
  intros H. unfold removeAt.
  rewrite length_app, length_firstn, length_skipn. lia.
Qed.

Lemma nth_error_firstn_lt (rs : list Rule) (n k : nat) :
  (k < n)%nat -> nth_error (firstn n rs) k = nth_error rs k.
Proof.
  intros H. rewrite nth_error_firstn.
  destruct (Nat.ltb_spec k n); [reflexivity | lia].
Qed.

Lemma nth_error_removeAt_lt (rs : list Rule) (j k : nat) :
  (k < j)%nat -> nth_error (removeAt rs j) k = nth_error rs k.
Proof.
  intros H. unfold removeAt.
  destruct (Nat.lt_ge_cases k (List.length rs)) as [L|L].
  - rewrite nth_error_app1 by (rewrite length_firstn; lia).
    apply nth_error_firstn_lt; lia.
  - rewrite (proj2 (nth_error_None rs k)) by lia.
    apply nth_error_None.
    rewrite length_app, length_firstn, length_skipn. lia.
Qed.

Lemma nth_error_removeAt_ge (rs : list Rule) (j k : nat) :
  (j <= k)%nat -> nth_error (removeAt rs j) k = nth_error rs (S k).
Proof.
  intros H. unfold removeAt.
  destruct (Nat.lt_ge_cases j (List.length rs)) as [L|L].
  - rewrite nth_error_app2 by (rewrite length_firstn; lia).
    rewrite length_firstn, nth_error_skipn. f_equal. lia.
  - rewrite firstn_all2, skipn_all2, app_nil_r by lia.
    rewrite !(proj2 (nth_error_None rs _)) by lia. reflexivity.
Qed.

Lemma nth_error_insertAt_lt (rs : list Rule) (p k : nat) (x : Rule) :
  (k < p)%nat -> (p <= List.length rs)%nat ->
  nth_error (insertAt rs p x) k = nth_error rs k.
Proof.
  intros H L. unfold insertAt.
  rewrite nth_error_app1 by (rewrite length_firstn; lia).
  apply nth_error_firstn_lt; lia.
Qed.

Lemma nth_error_insertAt_eq (rs : list Rule) (p : nat) (x : Rule) :
  (p <= List.length rs)%nat -> nth_error (insertAt rs p x) p = Some x.
Proof.
  intros L. unfold insertAt.
  rewrite nth_error_app2 by (rewrite length_firstn; lia).
  rewrite length_firstn. replace (p - Nat.min p (List.length rs))%nat with O by lia.
  reflexivity.
Qed.

Lemma removeAt_insertAt (rs : list Rule) (p : nat) (x : Rule) :
  (p <= List.length rs)%nat -> removeAt (insertAt rs p x) p = rs.
Proof.
  intros L. unfold insertAt.
  pose proof (removeAt_app (firstn p rs) (skipn p rs) x) as H.
  rewrite length_firstn, firstn_skipn in H.
  replace (Nat.min p (List.length rs)) with p in H by lia.
  exact H.
Qed.

End ContainerFacts.

(** ** Subsumption and the classifier *)

Section ClassifierFacts.

Lemma dirModeSubsumes_irrefl (m : DirectoryMode) : dirModeSubsumes m m = false.
Proof.
  unfold dirModeSubsumes, RECURSIVE, DIRECTORY, CHILDREN.
  destruct (Z.eqb_spec m 3) as [->|]; [reflexivity|].
  destruct (Z.eqb_spec m 2) as [->|]; reflexivity.
Qed.

(** C5.  Subsumption is irreflexive: no rule, of any of the four variants and
    with any fields (valid or not), subsumes itself. *)
Theorem subsumes_irreflexive (r : Rule) : subsumes r r = false.
Proof.
  destruct r as [path act | ext act | name mode act | pattern act];
    cbn [subsumes].
  - reflexivity.
  - reflexivity.
  - cbn [directorySubsumes]. rewrite String.eqb_refl.
    apply dirModeSubsumes_irrefl.
  - unfold globSubsumes. destruct (HasPrefix pattern "*."); reflexivity.
Qed.

(** C6.  When two rules with distinct pattern keys and equal actions are in
    reversed-subsumption order (the later rule [R] subsumes the earlier rule
    [L], and not conversely) and no intervening exception rescues the pair,
    the classifier reports UNREACHABLE_RULE with the sides swapped:
    Left is the later, broader [R] and Right is the earlier, specific [L]. *)
Theorem reversed_subsumption_swaps_sides (L R : Rule) (intervening : list Rule) :
  Pattern L <> Pattern R ->
  ActionOf L = ActionOf R ->
  subsumes R L = true ->
  subsumes L R = false ->
  hasInterveningExceptions R L intervening = false ->
  checkConflict L R intervening = Some (mkConflict R L UNREACHABLE_RULE).
Proof.
  intros HP HA HRL HLR HX. unfold checkConflict.
  apply String.eqb_neq in HP. rewrite HP, HA, Z.eqb_refl, HLR, HRL, HX.
  reflexivity.
Qed.

Lemma reversed_subsumption_swaps_sides_witness :
  let L := Scenario.buildDir in
  let R := Scenario.buildRec in
  Pattern L <> Pattern R /\ ActionOf L = ActionOf R /\
  subsumes R L = true /\ subsumes L R = false /\
  hasInterveningExceptions R L [] = false /\
  checkConflict L R [] = Some (mkConflict R L UNREACHABLE_RULE).
Proof.
  intros L R.
  assert (HP : Pattern L <> Pattern R) by (vm_compute; discriminate).
  refine (conj HP (conj eq_refl (conj eq_refl (conj eq_refl (conj eq_refl _))))).
  apply (reversed_subsumption_swaps_sides L R []);
    [exact HP | reflexivity | reflexivity | reflexivity | reflexivity].
Defined.

(** C2 as stated fails: on Scenario D the detector does not return the empty
    list. *)
Lemma scenario_D_reports_a_conflict : FindConflicts Scenario.D <> [].
Proof. vm_compute. discriminate. Qed.

(** C2, amended.  On [build/, !build/important.txt, build/**] the pair of
    same-action directory rules [build/] and [build/**] is rescued by the
    intervening exception and is not reported, the pair [build/] and
    [!build/important.txt] is not reported either, and the detector
    returns exactly one conflict: INEFFECTIVE_RULE with Left
    [!build/important.txt] and Right [build/**], the exception standing
    before the broader rule it overrides. *)
Theorem scenario_D_conflicts :
  checkConflict Scenario.buildDir Scenario.buildRec [Scenario.notImportant] = None
  /\ checkConflict Scenario.buildDir Scenario.notImportant [] = None
  /\ FindConflicts Scenario.D =
     [mkConflict Scenario.notImportant Scenario.buildRec INEFFECTIVE_RULE].
Proof. repeat split; vm_compute; reflexivity. Qed.

End ClassifierFacts.

(** ** The fixer *)

Section FixerFacts.

Local Open Scope list_scope.

Lemma fixConflict_semantic (f : IgnoreFile) (c : Conflict) :
  CType c = SEMANTIC_CONFLICT ->
  fixConflict f c =
  (f, mkResult (Some (Left c)) REVIEW_RECOMMENDED FIX_UNKNOWN, None).
Proof. intros H. unfold fixConflict. rewrite H. reflexivity. Qed.

Lemma fixConflict_unreachable (f : IgnoreFile) (c : Conflict) :
  CType c = UNREACHABLE_RULE ->
  fixConflict f c =
  if findRuleIndex f (Right c) =? findRuleIndex f (Left c) + 1
  then deleteMatchingRule f (Right c) AUTOMATED_FIX
  else MoveRule f (Right c) (Left c) AFTER AUTOMATED_FIX.
Proof. intros H. unfold fixConflict. rewrite H. reflexivity. Qed.

(** The ghost counter only grows, by at most the number of iterations the
    loop may still run. *)
Lemma fixLoop_passes (k : nat) (f : IgnoreFile) (logs : list Result) (done : nat) :
  (done <= passes (fixLoop k f logs done) <= done + k)%nat.
Proof.
  revert f logs done. induction k as [|k IH]; intros f logs done;
    cbn [fixLoop].
  - simpl. lia.
  - destruct (FindConflicts f) as [|c cs]; [simpl; lia|].
    destruct (fixEach f (c :: cs) logs) as [[f' logs'] [err|]]; [simpl; lia|].
    specialize (IH f' logs' (S done)). lia.
Qed.

(** C7.  [FixConflicts] is a total function of the container and of
    [maxPasses] (a structural recursion on the number of iterations left),
    and whatever the repairs do it enters its detect-and-repair loop at most
    [maxPasses] times: never when [maxPasses <= 0]. *)
Theorem FixConflicts_pass_bound (f : IgnoreFile) (maxPasses : Z) :
  Z.of_nat (passes (FixConflictsRun f maxPasses)) <= Z.max 0 maxPasses
  /\ FixConflicts f maxPasses =
     (file (FixConflictsRun f maxPasses), fixLogs (FixConflictsRun f maxPasses),
      failure (FixConflictsRun f maxPasses)).
Proof.
  split; [|reflexivity]. unfold FixConflictsRun.
  pose proof (fixLoop_passes (Z.to_nat maxPasses) f [] 0). lia.
Qed.

Lemma fixLoop_semantic (f : IgnoreFile) (c : Conflict) :
  FindConflicts f = [c] ->
  CType c = SEMANTIC_CONFLICT ->
  forall (k : nat) (logs : list Result) (done : nat),
    fixLoop k f logs done =
    mkFixRun f
      (logs ++ repeat (mkResult (Some (Left c)) REVIEW_RECOMMENDED FIX_UNKNOWN) k)
      None (done + k).
Proof.
  intros HF HC. induction k as [|k IH]; intros logs done; cbn [fixLoop repeat].
  - rewrite app_nil_r, Nat.add_0_r. reflexivity.
  - rewrite HF. cbn [fixEach]. rewrite (fixConflict_semantic f c HC).
    rewrite IH, <- app_assoc, Nat.add_succ_r. reflexivity.
Qed.

(** C9.  When the detector finds a single conflict and it is a
    SEMANTIC_CONFLICT, [FixConflicts(n)] with [n >= 1] never stops early: it
    runs all [n] passes, reports no error, leaves the container as it was and
    returns [n] identical results, each for the conflict's Left rule with
    outcome REVIEW_RECOMMENDED and reason FIX_UNKNOWN. *)
Theorem semantic_conflict_uses_every_pass (f : IgnoreFile) (c : Conflict) (n : Z) :
  FindConflicts f = [c] ->
  CType c = SEMANTIC_CONFLICT ->
  1 <= n ->
  let review := mkResult (Some (Left c)) REVIEW_RECOMMENDED FIX_UNKNOWN in
  FixConflicts f n = (f, repeat review (Z.to_nat n), None)
  /\ Z.of_nat (List.length (repeat review (Z.to_nat n))) = n
  /\ Z.of_nat (passes (FixConflictsRun f n)) = n.
Proof.
  intros HF HC Hn review. unfold FixConflicts, FixConflictsRun.
  rewrite (fixLoop_semantic f c HF HC). cbn [file fixLogs failure passes app].
  rewrite repeat_length. repeat split; lia.
Qed.

Lemma semantic_conflict_uses_every_pass_witness :
  let f := Scenario.contradiction in
  let c := mkConflict (FileRule "todo.md" INCLUDE) (FileRule "todo.md" EXCLUDE)
             SEMANTIC_CONFLICT in
  let review := mkResult (Some (Left c)) REVIEW_RECOMMENDED FIX_UNKNOWN in
  FindConflicts f = [c] /\ CType c = SEMANTIC_CONFLICT /\ 1 <= 3 /\
  FixConflicts f 3 = (f, [review; review; review], None) /\
  Z.of_nat (passes (FixConflictsRun f 3)) = 3.
Proof.
  intros f c review.
  assert (HF : FindConflicts f = [c]) by reflexivity.
  assert (Hn : 1 <= 3) by lia.
  destruct (semantic_conflict_uses_every_pass f c 3 HF eq_refl Hn) as (R & _ & P).
  exact (conj HF (conj eq_refl (conj Hn (conj R P)))).
Defined.

Lemma fixLoop_early_stop (k : nat) (f : IgnoreFile) (logs : list Result)
    (done : nat) :
  failure (fixLoop k f logs done) = None ->
  (passes (fixLoop k f logs done) < done + k)%nat ->
  FindConflicts (file (fixLoop k f logs done)) = [].
Proof.
  revert f logs done. induction k as [|k IH]; intros f logs done;
    cbn [fixLoop].
  - simpl. lia.
  - destruct (FindConflicts f) as [|c cs] eqn:HF; [intros _ _; exact HF|].
    destruct (fixEach f (c :: cs) logs) as [[f' logs'] [err|]];
      [discriminate|].
    intros He Hp. apply IH; [exact He | lia].
Qed.


(** The same container defeats every pass budget: a pass is the identity on
    it. *)
Lemma twoShadows_oscillates (n : Z) :
  fst (fst (FixConflicts Scenario.twoShadows n)) = Scenario.twoShadows
  /\ snd (FixConflicts Scenario.twoShadows n) = None.
Proof.
  unfold FixConflicts, FixConflictsRun. cbn [fst snd].
  generalize (Z.to_nat n) as k. generalize (@nil Result) as logs.
  generalize O as done. intros done logs k. revert logs done.
  induction k as [|k IH]; intros logs done; [split; reflexivity|].
  cbn [fixLoop].
  replace (FindConflicts Scenario.twoShadows)
    with [mkConflict Scenario.txtExt Scenario.buildATxt UNREACHABLE_RULE;
          mkConflict Scenario.buildDir Scenario.buildATxt UNREACHABLE_RULE]
    by (vm_compute; reflexivity).
  assert (E : forall l,
    fixEach Scenario.twoShadows
      [mkConflict Scenario.txtExt Scenario.buildATxt UNREACHABLE_RULE;
       mkConflict Scenario.buildDir Scenario.buildATxt UNREACHABLE_RULE] l
    = (Scenario.twoShadows,
       (l ++ [mkResult (Some Scenario.buildATxt) MOVED AUTOMATED_FIX])
         ++ [mkResult (Some Scenario.buildATxt) MOVED AUTOMATED_FIX], None)).
  { intros l. reflexivity. }
  rewrite E. apply IH.
Qed.






End FixerFacts.

(** ** Repairing an unreachable rule *)

Section UnreachableRepair.

Local Open Scope list_scope.

Lemma moveRule_in_range (f : IgnoreFile) (from to : nat) (x : Rule) :
  nth_error (rules f) from = Some x ->
  from <> to ->
  (to <= List.length (rules f))%nat ->
  moveRule f (Z.of_nat from) (Z.of_nat to) =
  (mkIgnoreFile
     (insertAt (removeAt (rules f) from)
               (if (from <? to)%nat then to - 1 else to) x), None).
Proof.
  intros Hx Hne Hto.
  assert (Hlt : (from < List.length (rules f))%nat)
    by (apply nth_error_Some; congruence).
  pose proof (length_removeAt (rules f) from Hlt) as Hlen.
  unfold moveRule, len.
  destruct (Z.ltb_spec (Z.of_nat from) 0); [lia|].
  destruct (Z.geb_spec (Z.of_nat from) (Z.of_nat (List.length (rules f)))); [lia|].
  destruct (Z.eqb_spec (Z.of_nat from) (Z.of_nat to)); [lia|].
  cbn [orb]. rewrite Nat2Z.id, Hx, Hlen.
  destruct (Z.gtb_spec (Z.of_nat to) (Z.of_nat from));
    destruct (Nat.ltb_spec from to); try lia.
  - destruct (Z.ltb_spec (Z.of_nat to - 1) 0); [lia|].
    destruct (Z.gtb_spec (Z.of_nat to - 1)
                (Z.of_nat (List.length (rules f) - 1))); [lia|].
    cbn [orb]. do 3 f_equal. lia.
  - destruct (Z.ltb_spec (Z.of_nat to) 0); [lia|].
    destruct (Z.gtb_spec (Z.of_nat to)
                (Z.of_nat (List.length (rules f) - 1))); [lia|].
    cbn [orb]. rewrite Nat2Z.id. reflexivity.
Qed.

Lemma MoveRule_after (f : IgnoreFile) (moved target : Rule)
    (reason : ActionReason) (i j : nat) (x : Rule) :
  findRuleIndex f target = Z.of_nat i ->
  findRuleIndex f moved = Z.of_nat j ->
  nth_error (rules f) j = Some x ->
  (i < List.length (rules f))%nat ->
  j <> S i ->
  MoveRule f moved target AFTER reason =
  (mkIgnoreFile
     (insertAt (removeAt (rules f) j) (if (j <? S i)%nat then i else S i) x),
   mkResult (Some moved) MOVED reason, None).
Proof.
  intros Hi Hj Hx Hlen Hne. unfold MoveRule. rewrite Hi, Hj.
  destruct (Z.eqb_spec (Z.of_nat j) (-1)); [lia|].
  destruct (Z.eqb_spec (Z.of_nat i) (-1)); [lia|].
  change (AFTER =? BEFORE) with false. change (AFTER =? AFTER) with true.
  cbn iota.
  destruct (Z.eqb_spec (Z.of_nat j) (Z.of_nat i + 1)); [lia|].
  replace (Z.of_nat i + 1) with (Z.of_nat (S i)) by lia.
  rewrite (moveRule_in_range f j (S i) x Hx Hne) by lia.
  replace (S i - 1)%nat with i by lia. reflexivity.
Qed.

Lemma insertAt_removeAt (rs : list Rule) (i : nat) (x : Rule) :
  nth_error rs i = Some x -> insertAt (removeAt rs i) i x = rs.
Proof.
  intros H. destruct (nth_error_split rs i H) as (l1 & l2 & -> & <-).
  rewrite removeAt_app. unfold insertAt.
  induction l1 as [|y l1 IH]; [reflexivity|].
  cbn [List.length firstn skipn app]. f_equal. apply IH.
  rewrite nth_error_app2 by lia. rewrite Nat.sub_diag. reflexivity.
Qed.

Lemma firstMatch_nth (rs : list Rule) (t : Rule) (i : nat) :
  firstMatch rs t = Some i ->
  exists x, nth_error rs i = Some x /\ rulesEqual x t = true.
Proof.
  intros H. destruct (firstMatch_split _ _ _ H) as (l1 & r & l2 & -> & <- & E & _).
  exists r. split; [|exact E].
  rewrite nth_error_app2 by lia. rewrite Nat.sub_diag. reflexivity.
Qed.

(** C4 as stated fails on a conflict that an earlier repair of the same pass
    has made stale.
    - On [a/, a/b/**, a/b/*.tmp, a/*] the detector reports three unreachable
      rules.  The first repair deletes [a/b/**] and the second moves [a/]
      to the end, so the third repair, of [a/b/*.tmp] under [a/b/**], finds
      its broader rule gone and the specific rule at index 0: the specific
      rule follows nothing, and yet it is deleted, not moved.
    - On [*.txt, *.txt, a.txt] the file rule is deleted by the second repair;
      the third repair, of the same file rule under the other copy, neither
      deletes nor moves it: it fails, and so does [FixConflicts]. *)
Lemma unreachable_repair_of_stale_conflict :
  let c1 := mkConflict Scenario.dirA Scenario.dirAB UNREACHABLE_RULE in
  let c2 := mkConflict Scenario.dirAChildren Scenario.dirA UNREACHABLE_RULE in
  let c := mkConflict Scenario.dirAB Scenario.tmpGlob UNREACHABLE_RULE in
  let f := mkIgnoreFile [Scenario.tmpGlob; Scenario.dirAChildren; Scenario.dirA] in
  let d0 := mkConflict Scenario.txtExt Scenario.txtExt REDUNDANT_RULE in
  let d := mkConflict Scenario.txtExt Scenario.aTxt UNREACHABLE_RULE in
  let g := mkIgnoreFile [Scenario.txtExt] in
  (FindConflicts Scenario.nested = [c1; c2; c]
   /\ fst (fst (fixEach Scenario.nested [c1; c2] [])) = f
   /\ ~ In (Left c) (rules f)
   /\ nth_error (rules f) 0 = Some (Right c)
   /\ fixConflict f c
      = (mkIgnoreFile [Scenario.dirAChildren; Scenario.dirA],
         mkResult (Some (Right c)) REMOVED AUTOMATED_FIX, None)
   /\ ~ In (Right c) (rules (fst (fst (fixConflict f c)))))
  /\
  (FindConflicts Scenario.twice = [d0; d; d]
   /\ fst (fst (fixEach Scenario.twice [d0; d] [])) = g
   /\ ~ In (Right d) (rules g)
   /\ fixConflict g d = (g, zeroResult, Some ruleToMoveNotFoundError)
   /\ FixConflicts Scenario.twice 20
      = (g, [mkResult (Some Scenario.txtExt) REMOVED AUTOMATED_FIX;
             mkResult (Some Scenario.aTxt) REMOVED AUTOMATED_FIX],
         Some ruleToMoveNotFoundError)).
Proof.
  intros c1 c2 c f d0 d g. split.
  - split; [vm_compute; reflexivity|]. split; [vm_compute; reflexivity|].
    split; [intros [H | [H | [H | []]]]; discriminate H|].
    split; [reflexivity|]. split; [vm_compute; reflexivity|].
    intros [H | [H | []]]; discriminate H.
  - split; [vm_compute; reflexivity|]. split; [vm_compute; reflexivity|].
    split; [intros [H | []]; discriminate H|].
    split; vm_compute; reflexivity.
Qed.

(** C4, amended.  Repairing an UNREACHABLE_RULE conflict whose sides are both
    found in the container, Left first at index [i] and Right at index [j]:
    - if Right sits immediately after Left ([j = i + 1]) it is deleted, and
      the result is REMOVED;
    - otherwise, when [j] is not [i], Right is moved to immediately after
      Left: the result is MOVED, the moved rule stands right behind the rule
      that was at [i], and the other rules keep their order;
    - when both sides are found at the same index, they have the same key
      and action, the container stays as it is and the result is MOVED.
    When Right is not in the container the repair changes nothing and fails
    with the rule-to-move-not-found error; when Left is not in the container
    and Right is found at an index other than 0, it changes nothing and
    fails with the target-rule-not-found error.
    In particular [FixConflicts] on [build/**, build/], with any budget of at
    least one pass, yields [build/**] and exactly one result, REMOVED. *)
Theorem unreachable_repair :
  (forall (f : IgnoreFile) (c : Conflict) (i j : nat),
     CType c = UNREACHABLE_RULE ->
     findRuleIndex f (Left c) = Z.of_nat i ->
     findRuleIndex f (Right c) = Z.of_nat j ->
     (j = S i ->
      fixConflict f c =
      (mkIgnoreFile (removeAt (rules f) j),
       mkResult (Some (Right c)) REMOVED AUTOMATED_FIX, None))
     /\
     (j <> S i -> j <> i ->
      exists (rs' : list Rule) (k : nat),
        fixConflict f c =
        (mkIgnoreFile rs', mkResult (Some (Right c)) MOVED AUTOMATED_FIX, None)
        /\ nth_error rs' k = nth_error (rules f) i
        /\ nth_error rs' (S k) = nth_error (rules f) j
        /\ removeAt rs' (S k) = removeAt (rules f) j)
     /\
     (j = i ->
      Pattern (Left c) = Pattern (Right c)
      /\ ActionOf (Left c) = ActionOf (Right c)
      /\ fixConflict f c =
         (f, mkResult (Some (Right c)) MOVED AUTOMATED_FIX, None)))
  /\
  (forall (f : IgnoreFile) (c : Conflict),
     CType c = UNREACHABLE_RULE ->
     findRuleIndex f (Right c) = -1 ->
     fixConflict f c = (f, zeroResult, Some ruleToMoveNotFoundError))
  /\
  (forall (f : IgnoreFile) (c : Conflict),
     CType c = UNREACHABLE_RULE ->
     findRuleIndex f (Left c) = -1 ->
     findRuleIndex f (Right c) <> -1 ->
     findRuleIndex f (Right c) <> 0 ->
     fixConflict f c = (f, zeroResult, Some targetRuleNotFoundError))
  /\
  (forall n : Z, 1 <= n ->
     FixConflicts Scenario.B n =
     (mkIgnoreFile [Scenario.buildRec],
      [mkResult (Some Scenario.buildDir) REMOVED AUTOMATED_FIX], None)).
Proof.
  split; [|split; [|split]].
  - intros f c i j HC Hi Hj.
    pose proof (findRuleIndex_nat _ _ _ Hi) as Fi.
    pose proof (findRuleIndex_nat _ _ _ Hj) as Fj.
    pose proof (firstMatch_length _ _ _ Fi) as Li.
    pose proof (firstMatch_length _ _ _ Fj) as Lj.
    rewrite (fixConflict_unreachable f c HC), Hi, Hj. split; [|split].
    + intros ->. destruct (Z.eqb_spec (Z.of_nat (S i)) (Z.of_nat i + 1)); [|lia].
      rewrite deleteMatchingRule_firstMatch, Fj. reflexivity.
    + intros Hne Hij.
      destruct (Z.eqb_spec (Z.of_nat j) (Z.of_nat i + 1)); [lia|].
      destruct (nth_error (rules f) j) as [x|] eqn:Hx;
        [|apply nth_error_None in Hx; lia].
      rewrite (MoveRule_after f (Right c) (Left c) AUTOMATED_FIX i j x
                 Hi Hj Hx Li Hne).
      pose proof (length_removeAt (rules f) j Lj) as Hlen.
      destruct (Nat.ltb_spec j (S i)) as [Hlt|Hge].
      * (* Right stood before Left: after its removal Left is at [i - 1]. *)
        exists (insertAt (removeAt (rules f) j) i x), (i - 1)%nat.
        replace (S (i - 1)) with i by lia.
        split; [reflexivity|]. split; [|split].
        -- rewrite nth_error_insertAt_lt by lia.
           rewrite nth_error_removeAt_ge by lia. f_equal. lia.
        -- apply nth_error_insertAt_eq. lia.
        -- apply removeAt_insertAt. lia.
      * (* Right stood behind Left, though not next to it. *)
        exists (insertAt (removeAt (rules f) j) (S i) x), i.
        split; [reflexivity|]. split; [|split].
        -- rewrite nth_error_insertAt_lt by lia.
           apply nth_error_removeAt_lt. lia.
        -- apply nth_error_insertAt_eq. lia.
        -- apply removeAt_insertAt. lia.
    + intros ->.
      destruct (firstMatch_nth _ _ _ Fi) as (x & Hx & EL).
      destruct (firstMatch_nth _ _ _ Fj) as (y & Hy & ER).
      assert (y = x) by congruence. subst y.
      unfold rulesEqual in EL, ER.
      apply andb_true_iff in EL. apply andb_true_iff in ER.
      destruct EL as [PL AL]. destruct ER as [PR AR].
      apply String.eqb_eq in PL, PR. apply Z.eqb_eq in AL, AR.
      split; [congruence|]. split; [congruence|].
      destruct (Z.eqb_spec (Z.of_nat i) (Z.of_nat i + 1)); [lia|].
      rewrite (MoveRule_after f (Right c) (Left c) AUTOMATED_FIX i i x
                 Hi Hj Hx Li (n_Sn i)).
      destruct (Nat.ltb_spec i (S i)); [|lia].
      rewrite (insertAt_removeAt _ _ _ Hx). destruct f; reflexivity.
  - intros f c HC HR. rewrite (fixConflict_unreachable f c HC).
    assert (HL : -1 <= findRuleIndex f (Left c)).
    { rewrite findRuleIndex_firstMatch.
      destruct (firstMatch (rules f) (Left c)); lia. }
    rewrite HR.
    destruct (Z.eqb_spec (-1) (findRuleIndex f (Left c) + 1)); [lia|].
    unfold MoveRule. rewrite HR. reflexivity.
  - intros f c HC HL HR1 HR0. rewrite (fixConflict_unreachable f c HC), HL.
    change (-1 + 1) with 0.
    destruct (Z.eqb_spec (findRuleIndex f (Right c)) 0); [contradiction|].
    unfold MoveRule. rewrite HL.
    destruct (Z.eqb_spec (findRuleIndex f (Right c)) (-1)); [contradiction|].
    reflexivity.
  - intros n Hn. unfold FixConflicts, FixConflictsRun.
    destruct (Z.to_nat n) as [|[|k]] eqn:E; [lia | reflexivity | reflexivity].
Qed.

Lemma unreachable_repair_witness :
  let c := mkConflict Scenario.buildDir Scenario.buildATxt UNREACHABLE_RULE in
  let d := mkConflict Scenario.txtExt Scenario.buildATxt UNREACHABLE_RULE in
  let e := mkConflict Scenario.txtExt Scenario.txtExt UNREACHABLE_RULE in
  let s := mkConflict Scenario.dirAB Scenario.tmpGlob UNREACHABLE_RULE in
  let g := mkIgnoreFile [Scenario.dirAChildren; Scenario.tmpGlob] in
  (CType c = UNREACHABLE_RULE /\
   findRuleIndex Scenario.twoShadows (Left c) = Z.of_nat 1 /\
   findRuleIndex Scenario.twoShadows (Right c) = Z.of_nat 2 /\
   fixConflict Scenario.twoShadows c =
   (mkIgnoreFile [Scenario.txtExt; Scenario.buildDir],
    mkResult (Some Scenario.buildATxt) REMOVED AUTOMATED_FIX, None))
  /\
  (CType d = UNREACHABLE_RULE /\
   findRuleIndex Scenario.twoShadows (Left d) = Z.of_nat 0 /\
   findRuleIndex Scenario.twoShadows (Right d) = Z.of_nat 2 /\
   2%nat <> 1%nat /\ 2%nat <> 0%nat /\
   exists (rs' : list Rule) (k : nat),
     fixConflict Scenario.twoShadows d =
     (mkIgnoreFile rs', mkResult (Some (Right d)) MOVED AUTOMATED_FIX, None)
     /\ nth_error rs' k = nth_error (rules Scenario.twoShadows) 0
     /\ nth_error rs' (S k) = nth_error (rules Scenario.twoShadows) 2
     /\ removeAt rs' (S k) = removeAt (rules Scenario.twoShadows) 2)
  /\
  (CType e = UNREACHABLE_RULE /\
   findRuleIndex Scenario.E (Left e) = Z.of_nat 0 /\
   findRuleIndex Scenario.E (Right e) = Z.of_nat 0 /\
   fixConflict Scenario.E e =
   (Scenario.E, mkResult (Some Scenario.txtExt) MOVED AUTOMATED_FIX, None))
  /\
  (findRuleIndex Scenario.E (Right d) = -1 /\
   fixConflict Scenario.E d
   = (Scenario.E, zeroResult, Some ruleToMoveNotFoundError))
  /\
  (CType s = UNREACHABLE_RULE /\
   findRuleIndex g (Left s) = -1 /\
   findRuleIndex g (Right s) <> -1 /\
   findRuleIndex g (Right s) <> 0 /\
   fixConflict g s = (g, zeroResult, Some targetRuleNotFoundError))
  /\
  (1 <= 1 /\
   FixConflicts Scenario.B 1 =
   (mkIgnoreFile [Scenario.buildRec],
    [mkResult (Some Scenario.buildDir) REMOVED AUTOMATED_FIX], None)).
Proof.
  intros c d e s g.
  assert (N1 : 2%nat <> 1%nat) by lia.
  assert (N0 : 2%nat <> 0%nat) by lia.
  assert (G1 : findRuleIndex g (Right s) <> -1) by (vm_compute; discriminate).
  assert (G0 : findRuleIndex g (Right s) <> 0) by (vm_compute; discriminate).
  assert (L1 : 1 <= 1) by lia.
  destruct unreachable_repair as (Found & NoRight & NoLeft & B).
  split; [|split; [|split; [|split; [|split]]]].
  - refine (conj eq_refl (conj eq_refl (conj eq_refl _))).
    exact (proj1 (Found Scenario.twoShadows c 1%nat 2%nat
                    eq_refl eq_refl eq_refl) eq_refl).
  - refine (conj eq_refl (conj eq_refl (conj eq_refl (conj N1 (conj N0 _))))).
    exact (proj1 (proj2 (Found Scenario.twoShadows d 0%nat 2%nat
                           eq_refl eq_refl eq_refl)) N1 N0).
  - refine (conj eq_refl (conj eq_refl (conj eq_refl _))).
    exact (proj2 (proj2 (proj2 (proj2 (Found Scenario.E e 0%nat 0%nat
                                         eq_refl eq_refl eq_refl)) eq_refl))).
  - refine (conj eq_refl _).
    exact (NoRight Scenario.E d eq_refl eq_refl).
  - refine (conj eq_refl (conj eq_refl (conj G1 (conj G0 _)))).
    exact (NoLeft g s eq_refl eq_refl G1 G0).
  - exact (conj L1 (B 1 L1)).
Defined.

End UnreachableRepair.

(** ** Smart insertion *)

Section InsertionFacts.

Local Open Scope list_scope.

Lemma rejection_cases (c : Conflict) (e : error) :
  rejection c = Some e ->
  e = semanticConflictError \/ e = redundantRuleError \/ e = unreachableRuleError.
Proof.
  unfold rejection.
  destruct (CType c =? SEMANTIC_CONFLICT)%string; [intros [= <-]; auto|].
  destruct (CType c =? REDUNDANT_RULE)%string; [intros [= <-]; auto|].
  destruct (CType c =? UNREACHABLE_RULE)%string; [intros [= <-]; auto|].
  discriminate.
Qed.

Lemma rejection_of_class (c : Conflict) :
  CType c = SEMANTIC_CONFLICT \/ CType c = REDUNDANT_RULE
  \/ CType c = UNREACHABLE_RULE ->
  exists e, rejection c = Some e.
Proof.
  unfold rejection. intros [H | [H | H]]; rewrite H; cbn; eauto.
Qed.

(** The scan stops at the first existing rule that rejects the new rule. *)
Lemma addScan_firstRejection (rule : Rule) (rest : list Rule) (e : error) :
  firstRejection rule rest = Some e ->
  forall i ideal, addScan i rest rule ideal = Err e.
Proof.
  induction rest as [|existing intervening IH]; [discriminate|].
  cbn [firstRejection addScan]. unfold rejectionAt, rejection.
  destruct (checkConflict existing rule intervening) as [c|].
  - destruct (CType c =? SEMANTIC_CONFLICT)%string; [intros [= <-]; reflexivity|].
    destruct (CType c =? REDUNDANT_RULE)%string; [intros [= <-]; reflexivity|].
    destruct (CType c =? UNREACHABLE_RULE)%string; [intros [= <-]; reflexivity|].
    intros H i ideal.
    destruct (CType c =? INEFFECTIVE_RULE)%string; apply IH, H.
  - intros H i ideal. apply IH, H.
Qed.

Lemma firstRejection_app (rule : Rule) (l1 rest : list Rule) :
  (forall a x b, l1 = a ++ x :: b -> rejectionAt rule x (b ++ rest) = None) ->
  firstRejection rule (l1 ++ rest) = firstRejection rule rest.
Proof.
  induction l1 as [|y l1 IH]; intros H; [reflexivity|].
  cbn [app firstRejection].
  rewrite (H [] y l1 eq_refl). apply IH.
  intros a x b ->. apply (H (y :: a) x b). reflexivity.
Qed.

Lemma firstRejection_cases (rule : Rule) (rest : list Rule) (e : error) :
  firstRejection rule rest = Some e ->
  e = semanticConflictError \/ e = redundantRuleError \/ e = unreachableRuleError.
Proof.
  induction rest as [|x rest IH]; [discriminate|].
  cbn [firstRejection]. unfold rejectionAt.
  destruct (checkConflict x rule rest) as [c|]; [|exact IH].
  destruct (rejection c) as [e0|] eqn:R; [|exact IH].
  intros [= <-]. eapply rejection_cases, R.
Qed.

Lemma firstRejection_some (rule : Rule) (l1 rest : list Rule) (e : error) :
  firstRejection rule rest = Some e ->
  exists e', firstRejection rule (l1 ++ rest) = Some e'.
Proof.
  intros H. induction l1 as [|y l1 IH]; cbn [app firstRejection]; [eauto|].
  destruct (rejectionAt rule y (l1 ++ rest)); eauto.
Qed.

(** C1.  If, during [add], some existing rule classifies against the new
    rule as SEMANTIC_CONFLICT, REDUNDANT_RULE or UNREACHABLE_RULE, then [add]
    returns one of the three insertion-conflict errors, no result, and the
    container exactly as it was; the error is the one of the first existing
    rule that rejects the new rule, so it is the error of the given conflict
    whenever no earlier rule rejects.  In particular
    [AddFile("todo.txt", INCLUDE)] on [*.txt] returns the unreachable-rule
    error and leaves [*.txt]. *)
Theorem add_rejects_without_mutation :
  (forall (f : IgnoreFile) (rule : Rule) (l1 : list Rule) (existing : Rule)
          (l2 : list Rule) (c : Conflict),
     rules f = l1 ++ existing :: l2 ->
     checkConflict existing rule l2 = Some c ->
     CType c = SEMANTIC_CONFLICT \/ CType c = REDUNDANT_RULE
     \/ CType c = UNREACHABLE_RULE ->
     (exists e,
        addRuleWithConflictResolution f rule = (f, [], Some e)
        /\ (e = semanticConflictError \/ e = redundantRuleError
            \/ e = unreachableRuleError))
     /\
     ((forall a x b, l1 = a ++ x :: b ->
                     rejectionAt rule x (b ++ existing :: l2) = None) ->
      addRuleWithConflictResolution f rule = (f, [], rejection c)))
  /\
  AddFile Scenario.E "todo.txt" INCLUDE
  = (Scenario.E, [], Some unreachableRuleError).
Proof.
  split; [|reflexivity].
  intros f rule l1 existing l2 c Hf Hc Hclass.
  destruct (rejection_of_class c Hclass) as [e He].
  assert (Hhere : firstRejection rule (existing :: l2) = Some e).
  { cbn [firstRejection]. unfold rejectionAt. rewrite Hc, He. reflexivity. }
  unfold addRuleWithConflictResolution. rewrite Hf. split.
  - destruct (firstRejection_some rule l1 _ _ Hhere) as [e' He'].
    exists e'. rewrite (addScan_firstRejection _ _ _ He').
    split; [reflexivity | eapply firstRejection_cases, He'].
  - intros Hfirst.
    rewrite (addScan_firstRejection rule (l1 ++ existing :: l2) e).
    + rewrite He. reflexivity.
    + rewrite firstRejection_app; assumption.
Qed.

Lemma add_rejects_without_mutation_witness :
  let f := mkIgnoreFile [Scenario.buildDir; Scenario.txtExt] in
  let c := mkConflict Scenario.txtExt Scenario.todoTxt UNREACHABLE_RULE in
  rules f = [Scenario.buildDir] ++ Scenario.txtExt :: [] /\
  checkConflict Scenario.txtExt Scenario.todoTxt [] = Some c /\
  CType c = UNREACHABLE_RULE /\
  (forall a x b, [Scenario.buildDir] = a ++ x :: b ->
                 rejectionAt Scenario.todoTxt x (b ++ Scenario.txtExt :: []) = None) /\
  addRuleWithConflictResolution f Scenario.todoTxt
  = (f, [], Some unreachableRuleError).
Proof.
  intros f c.
  assert (Hfirst : forall a x b, [Scenario.buildDir] = a ++ x :: b ->
            rejectionAt Scenario.todoTxt x (b ++ Scenario.txtExt :: []) = None).
  { intros [|y [|z a]] x b H; simpl in H.
    - injection H as <- <-. reflexivity.
    - injection H as _ H. discriminate H.
    - injection H as _ H. discriminate H. }
  refine (conj eq_refl (conj eq_refl (conj eq_refl (conj Hfirst _)))).
  exact (proj2 (proj1 add_rejects_without_mutation f Scenario.todoTxt
                  [Scenario.buildDir] Scenario.txtExt [] c
                  eq_refl eq_refl (or_intror (or_intror eq_refl)))
               Hfirst).
Defined.

End InsertionFacts.

(** ** Valid rules *)

Section ValidRules.

Lemma Validate_cases (a : Action) :
  ActionM.Validate a = None -> a = INCLUDE \/ a = EXCLUDE.
Proof.
  unfold ActionM.Validate.
  destruct (Z.eqb_spec a INCLUDE); [auto|].
  destruct (Z.eqb_spec a EXCLUDE); [auto | discriminate].
Qed.

Lemma validatePath_ok (x p : string) :
  validatePath x = Ok p -> p <> "" /\ TrimSpace p = p.
Proof.
  unfold validatePath. destruct (String.eqb_spec (TrimSpace x) ""); [discriminate|].
  intros [= <-]. split; [assumption | apply TrimSpace_idem].
Qed.

Lemma validateGlobPattern_ok (x p : string) :
  validateGlobPattern x = Ok p -> p <> "" /\ TrimSpace p = p.
Proof.
  unfold validateGlobPattern.
  destruct (String.eqb_spec (TrimSpace x) ""); [discriminate|].
  intros [= <-]. split; [assumption | apply TrimSpace_idem].
Qed.

Lemma validateExtension_ok (x e : string) :
  validateExtension x = Ok e -> e <> "" /\ TrimSpace ("*." ++ e) = "*." ++ e.
Proof.
  unfold validateExtension.
  destruct (String.eqb_spec (TrimPrefix (TrimSpace x) "*.") ""); [discriminate|].
  intros [= <-]. split; [assumption|].
  unfold TrimPrefix. destruct (HasPrefix (TrimSpace x) "*.") eqn:P.
  - rewrite <- (HasPrefix_split _ _ P). apply TrimSpace_idem.
  - apply TrimSpace_star_dot, TrimSpace_idem.
Qed.

Lemma validateDirectoryName_ok (x n : string) :
  validateDirectoryName x = Ok n -> n <> "".
Proof.
  unfold validateDirectoryName.
  destruct (String.eqb_spec
              (TrimSuffix (TrimPrefix (TrimSpace x) "/") "/") ""); [discriminate|].
  intros [= <-]. assumption.
Qed.

Ltac constructor_cases H :=
  repeat match type of H with
         | match ?c with _ => _ end = _ => destruct c eqn:?; try discriminate H
         end.

Lemma valid_file_fields (p : string) (a : Action) :
  validRule (FileRule p a) ->
  p <> "" /\ TrimSpace p = p /\ ActionM.Validate a = None.
Proof.
  intros V. inversion V as [x b r H | x b r H | x m b r H | x b r H]; subst;
    [unfold NewFileRule in H | unfold NewExtensionRule in H
    | unfold NewDirectoryRule in H | unfold NewGlobRule in H];
    constructor_cases H.
  injection H as <- <-.
  match goal with E : validatePath _ = _ |- _ =>
    destruct (validatePath_ok _ _ E) end. auto.
Qed.

Lemma valid_glob_fields (p : string) (a : Action) :
  validRule (GlobRule p a) ->
  p <> "" /\ TrimSpace p = p /\ ActionM.Validate a = None.
Proof.
  intros V. inversion V as [x b r H | x b r H | x m b r H | x b r H]; subst;
    [unfold NewFileRule in H | unfold NewExtensionRule in H
    | unfold NewDirectoryRule in H | unfold NewGlobRule in H];
    constructor_cases H.
  injection H as <- <-.
  match goal with E : validateGlobPattern _ = _ |- _ =>
    destruct (validateGlobPattern_ok _ _ E) end. auto.
Qed.

Lemma valid_extension_fields (e : string) (a : Action) :
  validRule (ExtensionRule e a) ->
  e <> "" /\ TrimSpace ("*." ++ e) = "*." ++ e /\ ActionM.Validate a = None.
Proof.
  intros V. inversion V as [x b r H | x b r H | x m b r H | x b r H]; subst;
    [unfold NewFileRule in H | unfold NewExtensionRule in H
    | unfold NewDirectoryRule in H | unfold NewGlobRule in H];
    constructor_cases H.
  injection H as <- <-.
  match goal with E : validateExtension _ = _ |- _ =>
    destruct (validateExtension_ok _ _ E) end. auto.
Qed.

Lemma valid_directory_fields (n : string) (m : DirectoryMode) (a : Action) :
  validRule (DirectoryRule n m a) ->
  n <> "" /\ DirectoryModeM.Validate m = None /\ ActionM.Validate a = None.
Proof.
  intros V. inversion V as [x b r H | x b r H | x k b r H | x b r H]; subst;
    [unfold NewFileRule in H | unfold NewExtensionRule in H
    | unfold NewDirectoryRule in H | unfold NewGlobRule in H];
    constructor_cases H.
  injection H as <- <- <-.
  match goal with E : validateDirectoryName _ = _ |- _ =>
    pose proof (validateDirectoryName_ok _ _ E) end. auto.
Qed.

Lemma Pattern_extension (e : string) (a : Action) :
  Pattern (ExtensionRule e a) = "*." ++ e.
Proof.
  cbn [Pattern Render]. unfold ActionM.Prefix.
  destruct (a =? INCLUDE); [reflexivity|].
  destruct (a =? EXCLUDE); reflexivity.
Qed.

Lemma rulesEqual_same_key (r t t' : Rule) :
  Pattern t = Pattern t' -> ActionOf t = ActionOf t' ->
  rulesEqual r t = rulesEqual r t'.
Proof. intros HP HA. unfold rulesEqual. rewrite HP, HA. reflexivity. Qed.

Lemma rulesEqual_true (r t : Rule) :
  rulesEqual r t = true <-> Pattern r = Pattern t /\ ActionOf r = ActionOf t.
Proof.
  unfold rulesEqual. rewrite andb_true_iff, String.eqb_eq, Z.eqb_eq. reflexivity.
Qed.

End ValidRules.

(** ** Deletion looks at pattern key and action only *)

Section DeletionFacts.

Local Open Scope list_scope.

Lemma NewGlobRule_star_dot (e : string) (a : Action) :
  validRule (ExtensionRule e a) ->
  NewGlobRule ("*." ++ e)%string a = Ok (GlobRule ("*." ++ e)%string a).
Proof.
  intros V. destruct (valid_extension_fields e a V) as (_ & T & A).
  unfold NewGlobRule, validateGlobPattern. rewrite T, A. reflexivity.
Qed.

Lemma deleteMatchingRule_first (l1 l2 : list Rule) (r t : Rule)
    (reason : ActionReason) :
  (forall r', In r' l1 -> rulesEqual r' t = false) ->
  rulesEqual r t = true ->
  deleteMatchingRule (mkIgnoreFile (l1 ++ r :: l2)) t reason =
  (mkIgnoreFile (l1 ++ l2), mkResult (Some t) REMOVED reason, None).
Proof.
  intros N E. rewrite deleteMatchingRule_firstMatch. cbn [rules].
  rewrite (firstMatch_app l1 l2 r t N E), removeAt_app. reflexivity.
Qed.

Lemma firstMatch_same_key (rs : list Rule) (t t' : Rule) :
  Pattern t = Pattern t' -> ActionOf t = ActionOf t' ->
  firstMatch rs t = firstMatch rs t'.
Proof.
  intros HP HA. induction rs as [|x rs IH]; [reflexivity|].
  cbn [firstMatch]. rewrite (rulesEqual_same_key x t t' HP HA), IH. reflexivity.
Qed.

Lemma NewExtensionRule_ok (E : string) (a : Action) (r : Rule) :
  NewExtensionRule E a = Ok r ->
  exists E', r = ExtensionRule E' a /\ Pattern r = ("*." ++ E')%string.
Proof.
  unfold NewExtensionRule. destruct (validateExtension E) as [E'|]; [|discriminate].
  destruct (ActionM.Validate a); [discriminate|]. intros [= <-].
  exists E'. split; [reflexivity | apply Pattern_extension].
Qed.

(** C10 as stated fails.
    - The container [*.log (a glob rule), *.log (an extension rule)], which
      [AddGlob] followed by [Parse] builds, holds the extension rule, and
      [DeleteGlob("*.log")] removes the glob rule in front of it: the
      extension rule stays.
    - For [E = "*.x"] a stored glob rule with pattern ["*.*.x"] is not
      matched by [DeleteExtension("*.x")], which looks for the key ["*.x"]
      and reports that there is no such rule. *)
Lemma delete_removes_first_match_only :
  let glob := GlobRule "*.log" INCLUDE in
  let ext := ExtensionRule "log" INCLUDE in
  let f := mkIgnoreFile [glob; ext] in
  let g := mkIgnoreFile [GlobRule "*.*.x" INCLUDE] in
  (fst (fst (AddGlob NewIgnoreFile "*.log" INCLUDE)) = mkIgnoreFile [glob]
   /\ Parse "*.log" (mkIgnoreFile [glob]) = (f, None)
   /\ In ext (rules f)
   /\ DeleteGlob f "*.log" INCLUDE
      = (mkIgnoreFile [ext], mkResult (Some glob) REMOVED REQUESTED, None)
   /\ In ext (rules (fst (fst (DeleteGlob f "*.log" INCLUDE)))))
  /\
  (NewGlobRule ("*." ++ "*.x") INCLUDE = Ok (GlobRule "*.*.x" INCLUDE)
   /\ DeleteExtension g "*.x" INCLUDE = (g, zeroResult, Some ruleNotFoundError)).
Proof.
  intros glob ext f g. split.
  - split; [vm_compute; reflexivity|]. split; [vm_compute; reflexivity|].
    split; [right; left; reflexivity|]. split; [vm_compute; reflexivity|].
    left. reflexivity.
  - split; vm_compute; reflexivity.
Qed.

(** C10, amended.  Lookup and deletion compare pattern key and action, never
    the variant.
    - Two targets with the same pattern key and action are found at the
      same index, and deleting either leaves the same container, with the
      same error if any.
    - On any container that holds a valid [ExtensionRule{E, a}],
      [DeleteGlob("*.E", a)] succeeds: it removes the first rule whose
      pattern key is ["*.E"] and whose action is [a], whatever its variant,
      and reports REMOVED.
    - When no rule with that key and action stands in front of the extension
      rule, the extension rule is the rule removed.
    - Symmetrically, for an extension [E] that [NewExtensionRule] keeps as it
      is, [DeleteExtension(E, a)] removes a stored [GlobRule{"*.E", a}] that
      no rule with the same key and action precedes.
    - In general [DeleteExtension(E, a)] looks for the key of the cleaned
      extension: when [NewExtensionRule(E, a)] returns the rule [r], it
      removes a stored glob rule whose pattern is the key of [r], if no rule
      with the same key and action precedes it. *)
Theorem delete_ignores_variant :
  (forall (f : IgnoreFile) (t t' : Rule) (reason : ActionReason),
     Pattern t = Pattern t' -> ActionOf t = ActionOf t' ->
     findRuleIndex f t = findRuleIndex f t'
     /\ fst (fst (deleteMatchingRule f t reason))
        = fst (fst (deleteMatchingRule f t' reason))
     /\ snd (deleteMatchingRule f t reason)
        = snd (deleteMatchingRule f t' reason))
  /\
  (forall (f : IgnoreFile) (E : string) (a : Action),
     validRule (ExtensionRule E a) ->
     In (ExtensionRule E a) (rules f) ->
     exists l1 r l2,
       rules f = l1 ++ r :: l2
       /\ Pattern r = ("*." ++ E)%string /\ ActionOf r = a
       /\ (forall r', In r' l1 -> rulesEqual r' (ExtensionRule E a) = false)
       /\ DeleteGlob f ("*." ++ E)%string a =
          (mkIgnoreFile (l1 ++ l2),
           mkResult (Some (GlobRule ("*." ++ E)%string a)) REMOVED REQUESTED,
           None))
  /\
  (forall (E : string) (a : Action) (l1 l2 : list Rule),
     validRule (ExtensionRule E a) ->
     (forall r', In r' l1 -> rulesEqual r' (ExtensionRule E a) = false) ->
     DeleteGlob (mkIgnoreFile (l1 ++ ExtensionRule E a :: l2))
                ("*." ++ E)%string a =
     (mkIgnoreFile (l1 ++ l2),
      mkResult (Some (GlobRule ("*." ++ E)%string a)) REMOVED REQUESTED, None))
  /\
  (forall (E : string) (a : Action) (l1 l2 : list Rule),
     NewExtensionRule E a = Ok (ExtensionRule E a) ->
     (forall r', In r' l1 ->
                 rulesEqual r' (GlobRule ("*." ++ E)%string a) = false) ->
     DeleteExtension (mkIgnoreFile (l1 ++ GlobRule ("*." ++ E)%string a :: l2))
                     E a =
     (mkIgnoreFile (l1 ++ l2),
      mkResult (Some (ExtensionRule E a)) REMOVED REQUESTED, None))
  /\
  (forall (E : string) (a : Action) (r : Rule) (l1 l2 : list Rule),
     NewExtensionRule E a = Ok r ->
     (forall r', In r' l1 -> rulesEqual r' r = false) ->
     DeleteExtension (mkIgnoreFile (l1 ++ GlobRule (Pattern r) a :: l2)) E a =
     (mkIgnoreFile (l1 ++ l2), mkResult (Some r) REMOVED REQUESTED, None)).
Proof.
  assert (K : forall E a r,
            rulesEqual r (GlobRule ("*." ++ E)%string a)
            = rulesEqual r (ExtensionRule E a)).
  { intros E a r. apply rulesEqual_same_key;
      [symmetry; apply Pattern_extension | reflexivity]. }
  split; [|split; [|split; [|split]]].
  - intros f t t' reason HP HA.
    rewrite !findRuleIndex_firstMatch, !deleteMatchingRule_firstMatch.
    rewrite (firstMatch_same_key (rules f) t t' HP HA).
    destruct (firstMatch (rules f) t'); repeat split; reflexivity.
  - intros f E a V I.
    assert (Eq : rulesEqual (ExtensionRule E a) (GlobRule ("*." ++ E)%string a)
                 = true).
    { apply rulesEqual_true. split; [apply Pattern_extension | reflexivity]. }
    destruct (firstMatch_In _ _ _ I Eq) as [i Fi].
    destruct (firstMatch_split _ _ _ Fi) as (l1 & r & l2 & Hf & _ & Hr & N).
    apply rulesEqual_true in Hr. destruct Hr as [HP HA]. cbn in HP, HA.
    exists l1, r, l2. repeat split; try assumption.
    + intros r' I'. rewrite <- K. apply N, I'.
    + unfold DeleteGlob. rewrite (NewGlobRule_star_dot E a V).
      destruct f as [rs]. cbn [rules] in Hf. subst rs.
      apply deleteMatchingRule_first; [exact N|].
      apply rulesEqual_true. split; assumption.
  - intros E a l1 l2 V N. unfold DeleteGlob.
    rewrite (NewGlobRule_star_dot E a V).
    apply deleteMatchingRule_first.
    + intros r' I'. rewrite K. apply N, I'.
    + apply rulesEqual_true. split; [apply Pattern_extension | reflexivity].
  - intros E a l1 l2 V N. unfold DeleteExtension. rewrite V.
    apply deleteMatchingRule_first.
    + intros r' I'. rewrite <- K. apply N, I'.
    + apply rulesEqual_true.
      split; [symmetry; apply Pattern_extension | reflexivity].
  - intros E a r l1 l2 V N. unfold DeleteExtension. rewrite V.
    destruct (NewExtensionRule_ok E a r V) as (E' & -> & HP).
    apply deleteMatchingRule_first; [exact N|].
    apply rulesEqual_true. split; reflexivity.
Qed.

Lemma delete_ignores_variant_witness :
  let ext := ExtensionRule "log" INCLUDE in
  let glob := GlobRule "*.log" INCLUDE in
  let f := mkIgnoreFile [Scenario.buildDir; ext; Scenario.todoTxt] in
  (Pattern glob = Pattern ext /\ ActionOf glob = ActionOf ext /\
   findRuleIndex f glob = findRuleIndex f ext /\
   findRuleIndex f glob = 1)
  /\
  (validRule ext /\
   (forall r', In r' [Scenario.buildDir] -> rulesEqual r' ext = false) /\
   DeleteGlob f "*.log" INCLUDE =
   (mkIgnoreFile [Scenario.buildDir; Scenario.todoTxt],
    mkResult (Some glob) REMOVED REQUESTED, None))
  /\
  (NewExtensionRule "log" INCLUDE = Ok ext /\
   (forall r', In r' [Scenario.buildDir] -> rulesEqual r' glob = false) /\
   DeleteExtension (mkIgnoreFile [Scenario.buildDir; glob; Scenario.todoTxt])
                   "log" INCLUDE =
   (mkIgnoreFile [Scenario.buildDir; Scenario.todoTxt],
    mkResult (Some ext) REMOVED REQUESTED, None))
  /\
  (NewExtensionRule " *.log " INCLUDE = Ok ext /\
   (forall r', In r' [Scenario.buildDir] -> rulesEqual r' ext = false) /\
   DeleteExtension (mkIgnoreFile [Scenario.buildDir; glob; Scenario.todoTxt])
                   " *.log " INCLUDE =
   (mkIgnoreFile [Scenario.buildDir; Scenario.todoTxt],
    mkResult (Some ext) REMOVED REQUESTED, None)).
Proof.
  intros ext glob f.
  assert (V : validRule ext) by (apply (valid_extension "log" INCLUDE); reflexivity).
  assert (N1 : forall r', In r' [Scenario.buildDir] -> rulesEqual r' ext = false).
  { intros r' [<- | []]. reflexivity. }
  assert (N2 : forall r', In r' [Scenario.buildDir] -> rulesEqual r' glob = false).
  { intros r' [<- | []]. reflexivity. }
  destruct delete_ignores_variant as (Same & _ & Glob & Ext & Cleaned).
  split; [|split; [|split]].
  - refine (conj eq_refl (conj eq_refl (conj _ eq_refl))).
    exact (proj1 (Same f glob ext REQUESTED eq_refl eq_refl)).
  - refine (conj V (conj N1 _)).
    exact (Glob "log"%string INCLUDE
             [Scenario.buildDir] [Scenario.todoTxt] V N1).
  - refine (conj eq_refl (conj N2 _)).
    exact (Ext "log"%string INCLUDE
             [Scenario.buildDir] [Scenario.todoTxt] eq_refl N2).
  - refine (conj eq_refl (conj N1 _)).
    exact (Cleaned " *.log "%string INCLUDE ext
             [Scenario.buildDir] [Scenario.todoTxt] eq_refl N1).
Defined.

End DeletionFacts.

(** ** Parsing a rendered rule *)

Section RoundTrip.

Lemma parseRule_include (line : string) :
  HasPrefix line "!" = false -> parseRule line = classifyLine line INCLUDE.
Proof. intros H. unfold parseRule. rewrite H. reflexivity. Qed.

Lemma parseRule_exclude (line : string) :
  parseRule ("!" ++ line) = classifyLine line EXCLUDE.
Proof.
  unfold parseRule.
  replace (HasPrefix ("!" ++ line) "!") with true
    by (symmetry; apply (HasPrefix_app "!" line)).
  reflexivity.
Qed.

(** The name and mode read off a directory pattern give the pattern back. *)
Lemma directoryParts_render (line name : string) (mode : DirectoryMode) :
  directoryParts line = Some (name, mode) ->
  DirectoryModeM.Prefix mode ++ name ++ DirectoryModeM.Suffix mode = line
  /\ DirectoryModeM.Validate mode = None.
Proof.
  unfold directoryParts.
  destruct (HasSuffix line "/**") eqn:S3.
  { intros [= <- <-]. split; [apply (TrimSuffix_split _ _ S3) | reflexivity]. }
  destruct (HasSuffix line "/*") eqn:S2.
  { intros [= <- <-]. split; [apply (TrimSuffix_split _ _ S2) | reflexivity]. }
  destruct (HasSuffix line "/") eqn:S1.
  { intros [= <- <-]. split; [apply (TrimSuffix_split _ _ S1) | reflexivity]. }
  destruct (HasPrefix line "**/") eqn:P3.
  { intros [= <- <-]. split; [|reflexivity].
    cbn [DirectoryModeM.Prefix DirectoryModeM.Suffix].
    change (DirectoryModeM.Prefix ANYWHERE) with "**/".
    change (DirectoryModeM.Suffix ANYWHERE) with "".
    rewrite append_nil_r. apply (TrimPrefix_split _ _ P3). }
  destruct (HasPrefix line "/") eqn:P1; [|discriminate].
  intros [= <- <-]. split; [|reflexivity].
  change (DirectoryModeM.Prefix ROOT_ONLY) with "/".
  change (DirectoryModeM.Suffix ROOT_ONLY) with "".
  rewrite append_nil_r. apply (TrimPrefix_split _ _ P1).
Qed.

Lemma directoryParts_some (line : string) :
  isDirectoryPattern line = true ->
  exists name mode, directoryParts line = Some (name, mode).
Proof.
  unfold isDirectoryPattern, directoryParts. intros H.
  destruct (HasSuffix line "/**"); [eauto|].
  destruct (HasSuffix line "/*"); [eauto|].
  destruct (HasSuffix line "/"); [eauto|].
  destruct (HasPrefix line "**/"); [eauto|].
  destruct (HasPrefix line "/"); [eauto | discriminate].
Qed.

Lemma Pattern_directory (n : string) (m : DirectoryMode) (a : Action) :
  let shape := DirectoryModeM.Prefix m ++ n ++ DirectoryModeM.Suffix m in
  (a = EXCLUDE \/ (a = INCLUDE /\ HasPrefix shape "!" = false)) ->
  Pattern (DirectoryRule n m a) = shape
  /\ Render (DirectoryRule n m a) = ActionM.Prefix a ++ shape.
Proof.
  intros shape [-> | [-> H]]; cbn [Pattern Render]; fold shape.
  - change (ActionM.Prefix EXCLUDE) with "!".
    replace (HasPrefix ("!" ++ shape) "!") with true
      by (symmetry; apply (HasPrefix_app "!" shape)).
    split; reflexivity.
  - change (ActionM.Prefix INCLUDE) with "". cbn [append]. rewrite H.
    split; reflexivity.
Qed.

(** The line of a rule: the action prefix, then the pattern key. *)
Lemma Render_Pattern (r : Rule) :
  ActionM.Validate (ActionOf r) = None ->
  (ActionOf r = INCLUDE -> HasPrefix (Render r) "!" = false) ->
  Render r = ActionM.Prefix (ActionOf r) ++ Pattern r.
Proof.
  intros V H. destruct r as [p a | e a | n m a | p a]; cbn [ActionOf] in *.
  - reflexivity.
  - rewrite Pattern_extension. reflexivity.
  - destruct (Validate_cases a V) as [-> | ->].
    + specialize (H eq_refl). cbn [Render Pattern] in *.
      change (ActionM.Prefix INCLUDE) with "" in *. cbn [append] in *.
      rewrite H. reflexivity.
    + cbn [Render Pattern]. change (ActionM.Prefix EXCLUDE) with "!".
      set (shape := DirectoryModeM.Prefix m ++ n ++ DirectoryModeM.Suffix m).
      replace (HasPrefix ("!" ++ shape) "!") with true
        by (symmetry; apply (HasPrefix_app "!" shape)).
      reflexivity.
  - reflexivity.
Qed.

(** A line in the shape of a valid directory rule is a directory pattern and
    not an extension pattern. *)
Lemma directory_shape (n : string) (m : DirectoryMode) :
  n <> "" -> DirectoryModeM.Validate m = None ->
  let shape := DirectoryModeM.Prefix m ++ n ++ DirectoryModeM.Suffix m in
  isExtensionPattern shape = false /\ isDirectoryPattern shape = true.
Proof.
  intros Hn Hm shape.
  assert (Ext : forall rest, isExtensionPattern (n ++ "/" ++ rest) = false).
  { intros rest. unfold isExtensionPattern.
    destruct n as [|c1 [|c2 n']]; [congruence | |].
    - cbn [append]. unfold HasPrefix. cbn [String.prefix].
      destruct (ascii_dec "*" c1); [|reflexivity].
      destruct (ascii_dec "." "/"); [discriminate | reflexivity].
    - pose proof (Contains_app n' "/" rest) as C.
      cbn [append drop] in C |- *. rewrite C.
      cbn [negb]. rewrite andb_false_r. reflexivity. }
  assert (Cases : m = DIRECTORY \/ m = CHILDREN \/ m = RECURSIVE
                  \/ m = ANYWHERE \/ m = ROOT_ONLY).
  { unfold DirectoryModeM.Validate in Hm.
    destruct (Z.eqb_spec m DIRECTORY); [auto|].
    destruct (Z.eqb_spec m RECURSIVE); [auto|].
    destruct (Z.eqb_spec m CHILDREN); [auto|].
    destruct (Z.eqb_spec m ANYWHERE); [auto|].
    destruct (Z.eqb_spec m ROOT_ONLY); [auto 6 | discriminate]. }
  unfold isDirectoryPattern.
  destruct Cases as [-> | [-> | [-> | [-> | ->]]]]; subst shape.
  - change (DirectoryModeM.Prefix DIRECTORY) with "".
    change (DirectoryModeM.Suffix DIRECTORY) with "/". cbn [append].
    split; [apply (Ext "") | rewrite HasSuffix_app; reflexivity].
  - change (DirectoryModeM.Prefix CHILDREN) with "".
    change (DirectoryModeM.Suffix CHILDREN) with "/*". cbn [append].
    split; [apply (Ext "*")|].
    rewrite (HasSuffix_app n "/*"), orb_true_r. reflexivity.
  - change (DirectoryModeM.Prefix RECURSIVE) with "".
    change (DirectoryModeM.Suffix RECURSIVE) with "/**". cbn [append].
    split; [apply (Ext "**")|].
    rewrite (HasSuffix_app n "/**"), orb_true_r. reflexivity.
  - change (DirectoryModeM.Prefix ANYWHERE) with "**/".
    change (DirectoryModeM.Suffix ANYWHERE) with "".
    split; [reflexivity|].
    rewrite (HasPrefix_app "**/" (n ++ "")), orb_true_r. reflexivity.
  - change (DirectoryModeM.Prefix ROOT_ONLY) with "/".
    change (DirectoryModeM.Suffix ROOT_ONLY) with "".
    split; [reflexivity|].
    rewrite (HasPrefix_app "/" (n ++ "")), orb_true_r. reflexivity.
Qed.

End RoundTrip.

Section RoundTripTheorem.

Lemma classifyLine_roundtrip (K : string) (a : Action) :
  ActionM.Validate a = None ->
  (a = INCLUDE -> HasPrefix K "!" = false) ->
  K <> "*." ->
  (isExtensionPattern K = false ->
   forall name mode, directoryParts K = Some (name, mode) ->
                     validateDirectoryName name = Ok name) ->
  (isExtensionPattern K = true \/ isDirectoryPattern K = false ->
   TrimSpace K = K /\ K <> "") ->
  exists r', classifyLine K a = Ok r' /\ Pattern r' = K /\ ActionOf r' = a.
Proof.
  intros Va Hbang Hstar Hdir Htrim. unfold classifyLine.
  destruct (isExtensionPattern K) eqn:X.
  - destruct (Htrim (or_introl eq_refl)) as [T N].
    assert (P : HasPrefix K "*." = true).
    { unfold isExtensionPattern in X.
      destruct (HasPrefix K "*."); [reflexivity | discriminate]. }
    pose proof (TrimPrefix_split _ _ P) as Split.
    unfold NewExtensionRule, validateExtension. rewrite T.
    destruct (String.eqb_spec (TrimPrefix K "*.") "") as [E|E].
    + exfalso. apply Hstar. rewrite <- Split, E. reflexivity.
    + rewrite Va. exists (ExtensionRule (TrimPrefix K "*.") a).
      split; [reflexivity|]. split; [|reflexivity].
      rewrite Pattern_extension. exact Split.
  - destruct (isDirectoryPattern K) eqn:D.
    + destruct (directoryParts_some K D) as (name & mode & Hp).
      destruct (directoryParts_render _ _ _ Hp) as [Hshape Hm].
      unfold parseDirectoryRule, NewDirectoryRule.
      rewrite Hp, (Hdir eq_refl name mode Hp), Hm, Va.
      exists (DirectoryRule name mode a).
      split; [reflexivity|]. split; [|reflexivity].
      rewrite <- Hshape. apply Pattern_directory. rewrite Hshape.
      destruct (Validate_cases a Va) as [-> | ->]; auto.
    + destruct (Htrim (or_intror eq_refl)) as [T N].
      apply String.eqb_neq in N.
      destruct (isGlobPattern K).
      * unfold NewGlobRule, validateGlobPattern. rewrite T, N, Va.
        exists (GlobRule K a). repeat split.
      * unfold NewFileRule, validatePath. rewrite T, N, Va.
        exists (FileRule K a). repeat split.
Qed.

(** The pattern key of a valid rule is trimmed and not empty, unless the
    parser takes it for a directory pattern. *)
Lemma valid_key_trimmed (r : Rule) :
  validRule r ->
  (ActionOf r = INCLUDE -> HasPrefix (Render r) "!" = false) ->
  isExtensionPattern (Pattern r) = true \/ isDirectoryPattern (Pattern r) = false ->
  TrimSpace (Pattern r) = Pattern r /\ Pattern r <> "".
Proof.
  intros V Hbang Hcls. destruct r as [p a | e a | n m a | p a].
  - destruct (valid_file_fields p a V) as (N & T & _). cbn [Pattern]. auto.
  - destruct (valid_extension_fields e a V) as (_ & T & _).
    rewrite Pattern_extension. split; [exact T | discriminate].
  - exfalso. destruct (valid_directory_fields n m a V) as (N & M & A).
    destruct (directory_shape n m N M) as [X D].
    assert (P : Pattern (DirectoryRule n m a)
                = DirectoryModeM.Prefix m ++ n ++ DirectoryModeM.Suffix m).
    { apply Pattern_directory.
      destruct (Validate_cases a A) as [-> | ->]; [right | left; reflexivity].
      split; [reflexivity|]. apply (Hbang eq_refl). }
    rewrite P in Hcls. destruct Hcls; congruence.
  - destruct (valid_glob_fields p a V) as (N & T & _). cbn [Pattern]. auto.
Qed.

Lemma valid_action (r : Rule) :
  validRule r -> ActionM.Validate (ActionOf r) = None.
Proof.
  intros V. destruct r as [p a | e a | n m a | p a]; cbn [ActionOf].
  - apply (valid_file_fields p a V).
  - apply (valid_extension_fields e a V).
  - apply (valid_directory_fields n m a V).
  - apply (valid_glob_fields p a V).
Qed.

(** C3 as stated fails, in three ways, each on a valid rule whose rendered
    form is a single canonical line:
    - the glob rule [/src/*] is read back as the directory rule [src/*],
      with another pattern key;
    - the INCLUDE file rule with path [!keep.txt] is read back as an EXCLUDE
      rule for [keep.txt];
    - the glob rule [*.] is not read back at all: the parser takes the line
      for an extension pattern with an empty extension. *)
Lemma parse_render_changes_rule :
  (validRule (GlobRule "/src/*" INCLUDE)
   /\ singleCanonicalLine (Render (GlobRule "/src/*" INCLUDE)) = true
   /\ parseRule (Render (GlobRule "/src/*" INCLUDE))
      = Ok (DirectoryRule "src" CHILDREN INCLUDE)
   /\ Pattern (DirectoryRule "src" CHILDREN INCLUDE) = "src/*"
   /\ rulesEqual (DirectoryRule "src" CHILDREN INCLUDE)
                 (GlobRule "/src/*" INCLUDE) = false)
  /\
  (validRule (FileRule "!keep.txt" INCLUDE)
   /\ singleCanonicalLine (Render (FileRule "!keep.txt" INCLUDE)) = true
   /\ parseRule (Render (FileRule "!keep.txt" INCLUDE))
      = Ok (FileRule "keep.txt" EXCLUDE)
   /\ rulesEqual (FileRule "keep.txt" EXCLUDE)
                 (FileRule "!keep.txt" INCLUDE) = false)
  /\
  (validRule (GlobRule "*." INCLUDE)
   /\ singleCanonicalLine (Render (GlobRule "*." INCLUDE)) = true
   /\ parseRule (Render (GlobRule "*." INCLUDE)) = Err emptyExtensionError).
Proof.
  split; [|split].
  - split; [apply (valid_glob "/src/*" INCLUDE); reflexivity|].
    repeat split.
  - split; [apply (valid_file "!keep.txt" INCLUDE); reflexivity|].
    repeat split.
  - split; [apply (valid_glob "*." INCLUDE); reflexivity|].
    repeat split.
Qed.

(** C3, amended.  For every valid rule [r] (any variant, either action) such
    that
    - if its action is INCLUDE, its rendered line does not begin with ["!"],
    - its pattern key is not ["*."], and
    - when its pattern key is not an extension pattern and the parser reads
      a directory name off it (by the first of the affixes [/**], [/*], [/]
      at the end, [**/], [/] at the start), that name is one the directory
      constructor keeps as it is (not empty, no surrounding white space, no
      leading or trailing [/]),
    parsing [render(r)] succeeds and yields a rule with the same pattern key
    and the same action as [r], that is, a rule equal to [r] under
    [rulesEqual]. *)
Theorem parse_render_roundtrip (r : Rule) :
  validRule r ->
  (ActionOf r = INCLUDE -> HasPrefix (Render r) "!" = false) ->
  Pattern r <> "*." ->
  (isExtensionPattern (Pattern r) = false ->
   forall name mode, directoryParts (Pattern r) = Some (name, mode) ->
                     validateDirectoryName name = Ok name) ->
  exists r',
    parseRule (Render r) = Ok r'
    /\ Pattern r' = Pattern r /\ ActionOf r' = ActionOf r
    /\ rulesEqual r' r = true.
Proof.
  intros V Hbang Hstar Hdir.
  pose proof (valid_action r V) as Va.
  pose proof (Render_Pattern r Va Hbang) as HR.
  assert (Hbang' : ActionOf r = INCLUDE -> HasPrefix (Pattern r) "!" = false).
  { intros E. specialize (Hbang E). rewrite HR, E in Hbang. exact Hbang. }
  destruct (classifyLine_roundtrip (Pattern r) (ActionOf r) Va Hbang' Hstar Hdir
              (valid_key_trimmed r V Hbang))
    as (r' & Hc & HP & HA).
  exists r'. split; [|split; [exact HP | split; [exact HA|]]].
  - rewrite HR. destruct (Validate_cases _ Va) as [E | E]; rewrite E.
    + change (ActionM.Prefix INCLUDE) with "". cbn [append].
      rewrite (parseRule_include _ (Hbang' E)), <- E. exact Hc.
    + change (ActionM.Prefix EXCLUDE) with "!".
      rewrite parseRule_exclude, <- E. exact Hc.
  - apply rulesEqual_true. split; assumption.
Qed.

Lemma parse_render_roundtrip_witness :
  let r := DirectoryRule "build" RECURSIVE EXCLUDE in
  validRule r /\
  (ActionOf r = INCLUDE -> HasPrefix (Render r) "!" = false) /\
  Pattern r <> "*." /\
  (isExtensionPattern (Pattern r) = false ->
   forall name mode, directoryParts (Pattern r) = Some (name, mode) ->
                     validateDirectoryName name = Ok name) /\
  exists r',
    parseRule (Render r) = Ok r'
    /\ Pattern r' = Pattern r /\ ActionOf r' = ActionOf r
    /\ rulesEqual r' r = true.
Proof.
  intros r.
  assert (V : validRule r)
    by (apply (valid_directory "build/" RECURSIVE EXCLUDE); reflexivity).
  assert (Hbang : ActionOf r = INCLUDE -> HasPrefix (Render r) "!" = false)
    by (intros E; discriminate E).
  assert (Hstar : Pattern r <> "*.") by (vm_compute; discriminate).
  assert (Hdir : isExtensionPattern (Pattern r) = false ->
                 forall name mode, directoryParts (Pattern r) = Some (name, mode) ->
                                   validateDirectoryName name = Ok name).
  { intros _ name mode H. vm_compute in H. injection H as <- _. reflexivity. }
  exact (conj V (conj Hbang (conj Hstar (conj Hdir
           (parse_render_roundtrip r V Hbang Hstar Hdir))))).
Defined.

End RoundTripTheorem.

(** ** The repository's tests, run on the model *)

Section RepositoryTests.

Local Open Scope list_scope.

(** [TestParse] *)
Example test_parse :
  parseRule "*.txt" = Ok (ExtensionRule "txt" INCLUDE)
  /\ parseRule "!*.txt" = Ok (ExtensionRule "txt" EXCLUDE)
  /\ parseRule "build/**" = Ok (DirectoryRule "build" RECURSIVE INCLUDE)
  /\ parseRule "build/*" = Ok (DirectoryRule "build" CHILDREN INCLUDE)
  /\ parseRule "build/" = Ok (DirectoryRule "build" DIRECTORY INCLUDE)
  /\ parseRule "**/build" = Ok (DirectoryRule "build" ANYWHERE INCLUDE)
  /\ parseRule "/.pnp" = Ok (DirectoryRule ".pnp" ROOT_ONLY INCLUDE)
  /\ parseRule "buildlogs*.txt" = Ok (GlobRule "buildlogs*.txt" INCLUDE)
  /\ parseRule "todo.md" = Ok (FileRule "todo.md" INCLUDE).
Proof. repeat split. Qed.

(** [TestCheckConflict]; its first case builds a directory rule without a
    mode, the zero value. *)
Example test_checkConflict :
  let ctype := option_map CType in
  ctype (checkConflict (FileRule "todo.md" INCLUDE)
           (DirectoryRule "build" 0 INCLUDE) []) = None
  /\ ctype (checkConflict (DirectoryRule "build" DIRECTORY INCLUDE)
              (DirectoryRule "build" RECURSIVE INCLUDE)
              [FileRule "build/important.txt" EXCLUDE]) = None
  /\ ctype (checkConflict (FileRule "build/important.txt" EXCLUDE)
              (DirectoryRule "build" RECURSIVE INCLUDE) [])
     = Some INEFFECTIVE_RULE
  /\ ctype (checkConflict (FileRule "todo.md" INCLUDE)
              (FileRule "todo.md" EXCLUDE) []) = Some SEMANTIC_CONFLICT
  /\ ctype (checkConflict (FileRule "todo.md" INCLUDE)
              (FileRule "todo.md" INCLUDE) []) = Some REDUNDANT_RULE
  /\ ctype (checkConflict (DirectoryRule "build" CHILDREN INCLUDE)
              (DirectoryRule "build" DIRECTORY INCLUDE) [])
     = Some UNREACHABLE_RULE
  /\ ctype (checkConflict (DirectoryRule "build" DIRECTORY INCLUDE)
              (DirectoryRule "build/logs" DIRECTORY INCLUDE) [])
     = Some UNREACHABLE_RULE
  /\ ctype (checkConflict (GlobRule "*.txt" INCLUDE)
              (FileRule "build/todo.txt" INCLUDE) []) = Some UNREACHABLE_RULE
  /\ ctype (checkConflict (ExtensionRule "txt" INCLUDE)
              (FileRule "todo.txt" INCLUDE) []) = Some UNREACHABLE_RULE
  /\ ctype (checkConflict (ExtensionRule "txt" INCLUDE)
              (GlobRule "logs*.txt" INCLUDE) []) = Some UNREACHABLE_RULE.
Proof. repeat split. Qed.

(** [TestFixConflict], case Pass-Complicated (Scenario F). *)
Example test_fix_complicated :
  fst (FixConflicts
         (mkIgnoreFile
            [FileRule "gignore-cli" INCLUDE;
             DirectoryRule "build" RECURSIVE INCLUDE;
             FileRule "build/important.txt" EXCLUDE;
             FileRule "debug.log" INCLUDE;
             ExtensionRule "log" INCLUDE;
             FileRule "important.log" EXCLUDE;
             ExtensionRule "log" INCLUDE]) 20)
  = (mkIgnoreFile
       [FileRule "gignore-cli" INCLUDE;
        DirectoryRule "build" RECURSIVE INCLUDE;
        FileRule "build/important.txt" EXCLUDE;
        ExtensionRule "log" INCLUDE;
        FileRule "important.log" EXCLUDE],
     [mkResult (Some (FileRule "debug.log" INCLUDE)) MOVED AUTOMATED_FIX;
      mkResult (Some (FileRule "debug.log" INCLUDE)) REMOVED AUTOMATED_FIX;
      mkResult (Some (ExtensionRule "log" INCLUDE)) REMOVED AUTOMATED_FIX;
      mkResult (Some (FileRule "important.log" EXCLUDE)) MOVED AUTOMATED_FIX]).
Proof. vm_compute. reflexivity. Qed.

End RepositoryTests.

(* ================================================================= *)
(** * Further properties of the container *)

Section LookupAndDelete.

Local Open Scope list_scope.

Lemma rulesEqual_refl (r : Rule) : rulesEqual r r = true.
Proof. apply rulesEqual_true. split; reflexivity. Qed.

Lemma firstMatch_none (rs : list Rule) (t : Rule) :
  firstMatch rs t = None <-> (forall r, In r rs -> rulesEqual r t = false).
Proof.
  induction rs as [|x rs IH]; cbn [firstMatch].
  - split; [intros _ r [] | reflexivity].
  - destruct (rulesEqual x t) eqn:E.
    + split; [discriminate|]. intros H.
      rewrite (H x (or_introl eq_refl)) in E. discriminate.
    + destruct (firstMatch rs t) as [k|]; cbn [option_map].
      * split; [discriminate|]. intros H.
        assert (N : Some k = None); [|discriminate N].
        apply (proj2 IH). intros r I. apply H. right. exact I.
      * split; [|reflexivity]. intros _ r [<- | I]; [exact E|].
        apply (proj1 IH eq_refl r I).
Qed.

(** X1.  [findRuleIndex] returns [-1] exactly when no rule of the container has
    the target's pattern key and action; otherwise it returns the index,
    within bounds, of the first rule that has them. *)
Theorem findRuleIndex_spec (f : IgnoreFile) (target : Rule) :
  (findRuleIndex f target = -1
   /\ forall r, In r (rules f) -> rulesEqual r target = false)
  \/
  (exists (i : nat) (r : Rule),
     findRuleIndex f target = Z.of_nat i
     /\ 0 <= findRuleIndex f target < len (rules f)
     /\ nth_error (rules f) i = Some r
     /\ rulesEqual r target = true
     /\ forall (j : nat) (r' : Rule),
          (j < i)%nat -> nth_error (rules f) j = Some r' ->
          rulesEqual r' target = false).
Proof.
  rewrite findRuleIndex_firstMatch.
  destruct (firstMatch (rules f) target) as [i|] eqn:F.
  - right. pose proof (firstMatch_length _ _ _ F) as L.
    destruct (firstMatch_split _ _ _ F) as (l1 & r & l2 & E & Hl & Hr & N).
    exists i, r. split; [reflexivity|]. split; [unfold len; lia|].
    rewrite E. subst i. split; [|split; [exact Hr|]].
    + rewrite nth_error_app2, Nat.sub_diag by lia. reflexivity.
    + intros j r' Hj Hn. rewrite nth_error_app1 in Hn by exact Hj.
      apply N. eapply nth_error_In, Hn.
  - left. split; [reflexivity|]. apply firstMatch_none, F.
Qed.

(** X2.  [deleteMatchingRule] fails with [ruleNotFoundError], leaving the
    container as it is, exactly when no rule has the target's pattern key and
    action.  Otherwise it removes one rule only, the first such rule; the
    rules before and behind it keep their places, and the result names the
    target that was passed in. *)
Theorem deleteMatchingRule_spec (f : IgnoreFile) (target : Rule)
    (reason : ActionReason) :
  ((forall r, In r (rules f) -> rulesEqual r target = false)
   /\ deleteMatchingRule f target reason = (f, zeroResult, Some ruleNotFoundError))
  \/
  (exists (l1 : list Rule) (r : Rule) (l2 : list Rule),
     rules f = l1 ++ r :: l2
     /\ rulesEqual r target = true
     /\ (forall r', In r' l1 -> rulesEqual r' target = false)
     /\ deleteMatchingRule f target reason =
        (mkIgnoreFile (l1 ++ l2), mkResult (Some target) REMOVED reason, None)).
Proof.
  rewrite deleteMatchingRule_firstMatch.
  destruct (firstMatch (rules f) target) as [i|] eqn:F.
  - right. destruct (firstMatch_split _ _ _ F) as (l1 & r & l2 & E & Hl & Hr & N).
    exists l1, r, l2. repeat split; try assumption.
    rewrite E. subst i. rewrite removeAt_app. reflexivity.
  - left. split; [apply firstMatch_none, F | reflexivity].
Qed.

End LookupAndDelete.

Section Moves.

Local Open Scope list_scope.

Lemma Permutation_removeAt (rs : list Rule) (i : nat) (x : Rule) :
  nth_error rs i = Some x -> Permutation rs (x :: removeAt rs i).
Proof.
  intros H. destruct (nth_error_split rs i H) as (l1 & l2 & -> & <-).
  rewrite removeAt_app. symmetry. apply Permutation_middle.
Qed.

Lemma Permutation_insertAt (l : list Rule) (k : nat) (x : Rule) :
  Permutation (x :: l) (insertAt l k x).
Proof.
  unfold insertAt. rewrite <- (firstn_skipn k l) at 1.
  apply Permutation_middle.
Qed.

Lemma nth_error_insertAt_gt (rs : list Rule) (p k : nat) (x : Rule) :
  (p <= k)%nat -> (p <= List.length rs)%nat ->
  nth_error (insertAt rs p x) (S k) = nth_error rs k.
Proof.
  intros H L. unfold insertAt.
  rewrite nth_error_app2 by (rewrite length_firstn; lia).
  rewrite length_firstn.
  replace (S k - Nat.min p (List.length rs))%nat with (S (k - p)) by lia.
  cbn [nth_error]. rewrite nth_error_skipn. f_equal. lia.
Qed.

(** X3.  The low-level move, case by case.
    - A source index out of range is refused and nothing changes.
    - Moving a rule onto its own index does nothing.
    - A target index below zero or beyond the length is refused, but only
      after the rule was taken out: the container has lost it.
    - Otherwise the rules are permuted, and the moved rule stands at the
      target index, lowered by one when the target lay behind the source. *)
Theorem moveRule_spec (f : IgnoreFile) (from to : Z) :
  (from < 0 \/ len (rules f) <= from ->
   moveRule f from to = (f, Some sourceIdxOutOfRangeError))
  /\
  (0 <= from < len (rules f) -> from = to -> moveRule f from to = (f, None))
  /\
  (0 <= from < len (rules f) -> from <> to ->
   to < 0 \/ len (rules f) < to ->
   moveRule f from to =
   (mkIgnoreFile (removeAt (rules f) (Z.to_nat from)),
    Some targetIdxOutofRangeError))
  /\
  (0 <= from < len (rules f) -> from <> to -> 0 <= to <= len (rules f) ->
   exists rs',
     moveRule f from to = (mkIgnoreFile rs', None)
     /\ Permutation (rules f) rs'
     /\ nth_error rs' (Z.to_nat (if from <? to then to - 1 else to))
        = nth_error (rules f) (Z.to_nat from)).
Proof.
  unfold len. repeat split.
  - intros H. unfold moveRule, len.
    destruct (Z.ltb_spec from 0); [reflexivity|].
    destruct (Z.geb_spec from (Z.of_nat (List.length (rules f))));
      [reflexivity | lia].
  - intros H ->. unfold moveRule, len.
    destruct (Z.ltb_spec to 0); [lia|].
    destruct (Z.geb_spec to (Z.of_nat (List.length (rules f)))); [lia|].
    rewrite Z.eqb_refl. reflexivity.
  - intros H Hne Hto. unfold moveRule. unfold len at 1.
    destruct (Z.ltb_spec from 0); [lia|].
    destruct (Z.geb_spec from (Z.of_nat (List.length (rules f)))); [lia|].
    destruct (Z.eqb_spec from to); [lia|]. cbn [orb].
    destruct (nth_error (rules f) (Z.to_nat from)) as [x|] eqn:Hx;
      [|apply nth_error_None in Hx; lia].
    unfold len. rewrite length_removeAt by lia.
    destruct (Z.gtb_spec to from).
    + destruct (Z.ltb_spec (to - 1) 0); [reflexivity|].
      destruct (Z.gtb_spec (to - 1)
                  (Z.of_nat (List.length (rules f) - 1))); [reflexivity | lia].
    + destruct (Z.ltb_spec to 0); [reflexivity|].
      destruct (Z.gtb_spec to (Z.of_nat (List.length (rules f) - 1)));
        [reflexivity | lia].
  - intros H Hne Hto.
    destruct (nth_error (rules f) (Z.to_nat from)) as [x|] eqn:Hx;
      [|apply nth_error_None in Hx; lia].
    pose proof (moveRule_in_range f (Z.to_nat from) (Z.to_nat to) x Hx) as M.
    rewrite !Z2Nat.id in M by lia.
    rewrite M by lia. eexists. split; [reflexivity|].
    pose proof (length_removeAt (rules f) (Z.to_nat from)) as Hlen.
    split.
    + etransitivity; [apply (Permutation_removeAt _ _ _ Hx)|].
      apply Permutation_insertAt.
    + destruct (Z.ltb_spec from to); destruct (Nat.ltb_spec (Z.to_nat from) (Z.to_nat to));
        try lia.
      * replace (Z.to_nat (to - 1)) with (Z.to_nat to - 1)%nat by lia.
        apply nth_error_insertAt_eq. lia.
      * apply nth_error_insertAt_eq. lia.
Qed.

Lemma findRuleIndex_range (f : IgnoreFile) (t : Rule) :
  findRuleIndex f t = -1 \/
  exists i, findRuleIndex f t = Z.of_nat i /\ (i < List.length (rules f))%nat
            /\ exists x, nth_error (rules f) i = Some x.
Proof.
  rewrite findRuleIndex_firstMatch.
  destruct (firstMatch (rules f) t) as [i|] eqn:F; [right | left; reflexivity].
  pose proof (firstMatch_length _ _ _ F) as L. exists i. repeat split; [exact L|].
  destruct (nth_error (rules f) i) as [x|] eqn:Hx; [eauto|].
  apply nth_error_None in Hx. lia.
Qed.

(** What [MoveRule] with a valid direction does when both rules are found,
    as an explicit list. *)
Lemma MoveRule_found (f : IgnoreFile) (moved target : Rule)
    (direction : MoveDirection) (reason : ActionReason) (i j : nat) (x : Rule) :
  findRuleIndex f target = Z.of_nat i ->
  findRuleIndex f moved = Z.of_nat j ->
  nth_error (rules f) j = Some x ->
  (i < List.length (rules f))%nat ->
  direction = BEFORE \/ direction = AFTER ->
  let newIdx := if direction =? BEFORE then i else S i in
  MoveRule f moved target direction reason =
  if (j =? newIdx)%nat || ((direction =? BEFORE) && (S j =? i)%nat)
  then (f, zeroResult, None)
  else (mkIgnoreFile
          (insertAt (removeAt (rules f) j)
                    (if (j <? newIdx)%nat then newIdx - 1 else newIdx) x),
        mkResult (Some moved) MOVED reason, None).
Proof.
  intros Hi Hj Hx Hlen Hd newIdx. unfold MoveRule. rewrite Hi, Hj.
  destruct (Z.eqb_spec (Z.of_nat j) (-1)); [lia|].
  destruct (Z.eqb_spec (Z.of_nat i) (-1)); [lia|].
  destruct Hd as [-> | ->]; subst newIdx.
  - change (BEFORE =? BEFORE) with true. cbn iota. cbn [andb].
    destruct (Z.eqb_spec (Z.of_nat j) (Z.of_nat i - 1));
      destruct (Nat.eqb_spec (S j) i); try lia.
    + rewrite orb_true_r. reflexivity.
    + rewrite orb_false_r.
      destruct (Z.eqb_spec (Z.of_nat j) (Z.of_nat i));
        destruct (Nat.eqb_spec j i); try lia; [reflexivity|].
      rewrite (moveRule_in_range f j i x Hx) by lia. reflexivity.
  - change (AFTER =? BEFORE) with false. change (AFTER =? AFTER) with true.
    cbn iota. cbn [andb]. rewrite orb_false_r.
    destruct (Z.eqb_spec (Z.of_nat j) (Z.of_nat i + 1));
      destruct (Nat.eqb_spec j (S i)); try lia; [reflexivity|].
    replace (Z.of_nat i + 1) with (Z.of_nat (S i)) by lia.
    rewrite (moveRule_in_range f j (S i) x Hx) by lia. reflexivity.
Qed.

(** X4.  [MoveRule], case by case.
    - A rule to move that is not found: [ruleToMoveNotFoundError]; this is
      checked first.
    - Then a target that is not found: [targetRuleNotFoundError].
    - Then a direction that is neither BEFORE nor AFTER:
      [invalidateDirectionError].
    - Otherwise it succeeds, never with an index error: the rules are
      permuted (none is lost, added or duplicated), and the result is either
      the zero result with an untouched container (the rule was in place) or
      MOVED for the rule that was passed in.
    On every error the container is untouched. *)
Theorem MoveRule_spec (f : IgnoreFile) (moved target : Rule)
    (direction : MoveDirection) (reason : ActionReason) :
  (findRuleIndex f moved = -1 ->
   MoveRule f moved target direction reason
   = (f, zeroResult, Some ruleToMoveNotFoundError))
  /\
  (findRuleIndex f moved <> -1 -> findRuleIndex f target = -1 ->
   MoveRule f moved target direction reason
   = (f, zeroResult, Some targetRuleNotFoundError))
  /\
  (findRuleIndex f moved <> -1 -> findRuleIndex f target <> -1 ->
   direction <> BEFORE -> direction <> AFTER ->
   MoveRule f moved target direction reason
   = (f, zeroResult, Some invalidateDirectionError))
  /\
  (findRuleIndex f moved <> -1 -> findRuleIndex f target <> -1 ->
   direction = BEFORE \/ direction = AFTER ->
   exists f' res,
     MoveRule f moved target direction reason = (f', res, None)
     /\ Permutation (rules f) (rules f')
     /\ ((res = zeroResult /\ f' = f)
         \/ res = mkResult (Some moved) MOVED reason)).
Proof.
  repeat split.
  - intros H. unfold MoveRule. rewrite H. reflexivity.
  - intros Hm Ht. unfold MoveRule. rewrite Ht.
    destruct (Z.eqb_spec (findRuleIndex f moved) (-1)); [contradiction|].
    reflexivity.
  - intros Hm Ht Hb Ha. unfold MoveRule.
    destruct (Z.eqb_spec (findRuleIndex f moved) (-1)); [contradiction|].
    destruct (Z.eqb_spec (findRuleIndex f target) (-1)); [contradiction|].
    destruct (Z.eqb_spec direction BEFORE); [contradiction|].
    destruct (Z.eqb_spec direction AFTER); [contradiction|].
    reflexivity.
  - intros Hm Ht Hd.
    destruct (findRuleIndex_range f moved) as [? | (j & Hj & Lj & x & Hx)];
      [contradiction|].
    destruct (findRuleIndex_range f target) as [? | (i & Hi & Li & _)];
      [contradiction|].
    rewrite (MoveRule_found f moved target direction reason i j x
               Hi Hj Hx Li Hd).
    match goal with |- context [if ?b then _ else _] => destruct b end.
    + exists f, zeroResult. split; [reflexivity|]. split; [reflexivity | auto].
    + eexists. eexists. split; [reflexivity|]. split; [|right; reflexivity].
      cbn [rules]. etransitivity; [apply (Permutation_removeAt _ _ _ Hx)|].
      apply Permutation_insertAt.
Qed.

End Moves.

Section MovePosition.

Local Open Scope list_scope.

(** X5.  Where a moved rule lands.  With the target first found at index [i] and
    the rule to move at another index [j], and the rule not already in
    place, [MoveRule] reports MOVED and the moved rule stands immediately
    before the target (direction BEFORE), respectively immediately behind it
    (direction AFTER); taking the moved rule out again gives the container
    without it, so every other rule keeps its order. *)
Theorem MoveRule_position (f : IgnoreFile) (moved target : Rule)
    (direction : MoveDirection) (reason : ActionReason) (i j : nat) :
  findRuleIndex f target = Z.of_nat i ->
  findRuleIndex f moved = Z.of_nat j ->
  i <> j ->
  (direction = BEFORE -> S j <> i ->
   exists (rs' : list Rule) (k : nat),
     MoveRule f moved target direction reason =
     (mkIgnoreFile rs', mkResult (Some moved) MOVED reason, None)
     /\ nth_error rs' k = nth_error (rules f) j
     /\ nth_error rs' (S k) = nth_error (rules f) i
     /\ removeAt rs' k = removeAt (rules f) j)
  /\
  (direction = AFTER -> j <> S i ->
   exists (rs' : list Rule) (k : nat),
     MoveRule f moved target direction reason =
     (mkIgnoreFile rs', mkResult (Some moved) MOVED reason, None)
     /\ nth_error rs' k = nth_error (rules f) i
     /\ nth_error rs' (S k) = nth_error (rules f) j
     /\ removeAt rs' (S k) = removeAt (rules f) j).
Proof.
  intros Hi Hj Hne.
  pose proof (firstMatch_length _ _ _ (findRuleIndex_nat _ _ _ Hi)) as Li.
  pose proof (firstMatch_length _ _ _ (findRuleIndex_nat _ _ _ Hj)) as Lj.
  destruct (nth_error (rules f) j) as [x|] eqn:Hx;
    [|apply nth_error_None in Hx; lia].
  pose proof (length_removeAt (rules f) j Lj) as Hlen.
  split.
  - intros -> Hadj.
    rewrite (MoveRule_found f moved target BEFORE reason i j x Hi Hj Hx Li
               (or_introl eq_refl)).
    change (BEFORE =? BEFORE) with true. cbn iota. cbn [andb].
    destruct (Nat.eqb_spec j i); [lia|].
    destruct (Nat.eqb_spec (S j) i); [lia|]. cbn [orb].
    destruct (Nat.ltb_spec j i).
    + exists (insertAt (removeAt (rules f) j) (i - 1) x), (i - 1)%nat.
      split; [reflexivity|]. split; [|split].
      * apply nth_error_insertAt_eq. lia.
      * rewrite nth_error_insertAt_gt by lia.
        rewrite nth_error_removeAt_ge by lia. f_equal. lia.
      * apply removeAt_insertAt. lia.
    + exists (insertAt (removeAt (rules f) j) i x), i.
      split; [reflexivity|]. split; [|split].
      * apply nth_error_insertAt_eq. lia.
      * rewrite nth_error_insertAt_gt by lia.
        apply nth_error_removeAt_lt. lia.
      * apply removeAt_insertAt. lia.
  - intros -> Hadj.
    rewrite (MoveRule_found f moved target AFTER reason i j x Hi Hj Hx Li
               (or_intror eq_refl)).
    change (AFTER =? BEFORE) with false. cbn iota. cbn [andb].
    rewrite orb_false_r.
    destruct (Nat.eqb_spec j (S i)); [lia|].
    destruct (Nat.ltb_spec j (S i)).
    + exists (insertAt (removeAt (rules f) j) (S i - 1) x), (i - 1)%nat.
      replace (S i - 1)%nat with i by lia.
      replace (S (i - 1)) with i by lia.
      split; [reflexivity|]. split; [|split].
      * rewrite nth_error_insertAt_lt by lia.
        rewrite nth_error_removeAt_ge by lia. f_equal. lia.
      * apply nth_error_insertAt_eq. lia.
      * apply removeAt_insertAt. lia.
    + exists (insertAt (removeAt (rules f) j) (S i) x), i.
      split; [reflexivity|]. split; [|split].
      * rewrite nth_error_insertAt_lt by lia.
        apply nth_error_removeAt_lt. lia.
      * apply nth_error_insertAt_eq. lia.
      * apply removeAt_insertAt. lia.
Qed.

End MovePosition.

(* ================================================================= *)
(** * Further properties of the classifier and the detector *)

Section Classification.

Local Open Scope list_scope.

Lemma checkConflict_sides_types (l r : Rule) (intervening : list Rule)
    (c : Conflict) :
  checkConflict l r intervening = Some c ->
  ((Left c = l /\ Right c = r) \/ (Left c = r /\ Right c = l))
  /\ (CType c = SEMANTIC_CONFLICT \/ CType c = REDUNDANT_RULE
      \/ CType c = UNREACHABLE_RULE \/ CType c = INEFFECTIVE_RULE).
Proof.
  unfold checkConflict.
  repeat match goal with
         | |- context [if ?b then _ else _] => destruct b
         end;
    first [discriminate | intros [= <-]; cbn; auto 6].
Qed.

Lemma FindConflicts_pairs (f : IgnoreFile) (c : Conflict) :
  In c (FindConflicts f) <->
  exists (i j : nat) (rule1 rule2 : Rule),
    (i < j)%nat
    /\ nth_error (rules f) i = Some rule1
    /\ nth_error (rules f) j = Some rule2
    /\ checkConflict rule1 rule2 (slice (rules f) (i + 1) j) = Some c.
Proof.
  unfold FindConflicts. rewrite in_flat_map. split.
  - intros (i & _ & H). apply in_flat_map in H. destruct H as (j & _ & H).
    destruct (Nat.leb_spec j i); [destruct H|].
    destruct (nth_error (rules f) i) as [rule1|] eqn:H1; [|destruct H].
    destruct (nth_error (rules f) j) as [rule2|] eqn:H2; [|destruct H].
    destruct (checkConflict rule1 rule2 (slice (rules f) (i + 1) j))
      as [c'|] eqn:C; [|destruct H].
    destruct H as [<- | []]. exists i, j, rule1, rule2. auto.
  - intros (i & j & rule1 & rule2 & Hlt & H1 & H2 & C).
    assert (Lj : (j < List.length (rules f))%nat)
      by (apply nth_error_Some; congruence).
    exists i. split; [apply in_seq; lia|]. apply in_flat_map.
    exists j. split; [apply in_seq; lia|].
    destruct (Nat.leb_spec j i); [lia|]. rewrite H1, H2, C. left. reflexivity.
Qed.

Lemma FindConflicts_sides (f : IgnoreFile) (c : Conflict) :
  In c (FindConflicts f) ->
  In (Left c) (rules f) /\ In (Right c) (rules f)
  /\ (CType c = SEMANTIC_CONFLICT \/ CType c = REDUNDANT_RULE
      \/ CType c = UNREACHABLE_RULE \/ CType c = INEFFECTIVE_RULE).
Proof.
  intros H. apply FindConflicts_pairs in H.
  destruct H as (i & j & rule1 & rule2 & _ & H1 & H2 & C).
  apply nth_error_In in H1. apply nth_error_In in H2.
  destruct (checkConflict_sides_types _ _ _ _ C)
    as [[[-> ->] | [-> ->]] T]; auto.
Qed.

(** X6.  What a reported conflict says about the two rules compared.
    - SEMANTIC_CONFLICT: equal pattern keys, different actions.
    - REDUNDANT_RULE: equal pattern keys, equal actions.
    - UNREACHABLE_RULE: different keys, equal actions, Left subsumes Right
      and no intervening exception rescues the pair; the sides are the two
      rules in file order, or swapped when only the later rule subsumes the
      earlier one.
    - INEFFECTIVE_RULE: different keys, the earlier rule is an EXCLUDE, the
      later an INCLUDE that subsumes it.
    Only UNREACHABLE_RULE ever swaps the sides. *)
Theorem checkConflict_sound (l r : Rule) (intervening : list Rule) (c : Conflict) :
  checkConflict l r intervening = Some c ->
  (c = mkConflict l r SEMANTIC_CONFLICT
   /\ Pattern l = Pattern r /\ ActionOf l <> ActionOf r)
  \/
  (c = mkConflict l r REDUNDANT_RULE
   /\ Pattern l = Pattern r /\ ActionOf l = ActionOf r)
  \/
  (CType c = UNREACHABLE_RULE
   /\ Pattern l <> Pattern r /\ ActionOf l = ActionOf r
   /\ subsumes (Left c) (Right c) = true
   /\ hasInterveningExceptions (Left c) (Right c) intervening = false
   /\ ((Left c = l /\ Right c = r)
       \/ (Left c = r /\ Right c = l /\ subsumes l r = false)))
  \/
  (c = mkConflict l r INEFFECTIVE_RULE
   /\ Pattern l <> Pattern r
   /\ ActionOf l = EXCLUDE /\ ActionOf r = INCLUDE
   /\ subsumes r l = true).
Proof.
  unfold checkConflict.
  destruct (String.eqb_spec (Pattern l) (Pattern r)) as [HP|HP].
  - destruct (Z.eqb_spec (ActionOf l) (ActionOf r)) as [HA|HA]; cbn [negb];
      intros [= <-]; [right; left | left]; auto.
  - assert (Ineff :
      (if (ActionOf l =? EXCLUDE) && (ActionOf r =? INCLUDE) && subsumes r l
       then Some (mkConflict l r INEFFECTIVE_RULE) else None) = Some c ->
      c = mkConflict l r INEFFECTIVE_RULE
      /\ Pattern l <> Pattern r
      /\ ActionOf l = EXCLUDE /\ ActionOf r = INCLUDE /\ subsumes r l = true).
    { destruct (Z.eqb_spec (ActionOf l) EXCLUDE); [|discriminate].
      destruct (Z.eqb_spec (ActionOf r) INCLUDE); [|discriminate].
      destruct (subsumes r l); [|discriminate].
      intros [= <-]. auto. }
    destruct (Z.eqb_spec (ActionOf l) (ActionOf r)) as [HA|HA].
    + destruct (subsumes l r) eqn:Slr.
      * destruct (hasInterveningExceptions l r intervening) eqn:X;
          [discriminate|].
        intros [= <-]. right. right. left. cbn. repeat split; auto.
      * destruct (subsumes r l) eqn:Srl.
        -- destruct (hasInterveningExceptions r l intervening) eqn:X;
             [discriminate|].
           intros [= <-]. right. right. left. cbn. repeat split; auto.
        -- intros H. right. right. right. apply Ineff, H.
    + intros H. right. right. right. apply Ineff, H.
Qed.

(** X7.  The detector reports exactly the conflicts of the ordered pairs: a
    conflict is in the list if and only if it is what [checkConflict]
    returns for the rules at some indices [i < j], given the rules strictly
    between them.  Both sides of every reported conflict are rules of the
    container, and a container of fewer than two rules has no conflict. *)
Theorem FindConflicts_spec (f : IgnoreFile) :
  (forall c : Conflict,
     In c (FindConflicts f) <->
     exists (i j : nat) (rule1 rule2 : Rule),
       (i < j)%nat
       /\ nth_error (rules f) i = Some rule1
       /\ nth_error (rules f) j = Some rule2
       /\ checkConflict rule1 rule2 (slice (rules f) (i + 1) j) = Some c)
  /\ (forall c : Conflict,
        In c (FindConflicts f) ->
        In (Left c) (rules f) /\ In (Right c) (rules f))
  /\ ((List.length (rules f) <= 1)%nat -> FindConflicts f = []).
Proof.
  split; [apply FindConflicts_pairs|]. split.
  - intros c H. destruct (FindConflicts_sides f c H) as (L & R & _). auto.
  - intros Hlen. destruct (FindConflicts f) as [|c cs] eqn:E; [reflexivity|].
    assert (I : In c (FindConflicts f)) by (rewrite E; left; reflexivity).
    apply FindConflicts_pairs in I.
    destruct I as (i & j & rule1 & rule2 & Hlt & _ & H2 & _).
    assert ((j < List.length (rules f))%nat)
      by (apply nth_error_Some; congruence).
    lia.
Qed.

End Classification.

(* ================================================================= *)
(** * Further properties of the fixer *)

Section FixerConservation.

Local Open Scope list_scope.

Local Abbreviation isRemoved := (fun r : Result => (RResult r =? REMOVED)%Z).

Lemma findRuleIndex_In (f : IgnoreFile) (r : Rule) :
  In r (rules f) -> exists i, firstMatch (rules f) r = Some i.
Proof. intros H. apply (firstMatch_In _ r r H), rulesEqual_refl. Qed.

(** With direction AFTER, [MoveRule] permutes the rules, whatever it is
    given, and its result is never REMOVED. *)
Lemma MoveRule_after_conserves (f : IgnoreFile) (moved target : Rule)
    (reason : ActionReason) :
  exists f' res err,
    MoveRule f moved target AFTER reason = (f', res, err)
    /\ Permutation (rules f) (rules f')
    /\ (RResult res =? REMOVED) = false
    /\ (findRuleIndex f moved <> -1 -> findRuleIndex f target <> -1 ->
        err = None).
Proof.
  destruct (findRuleIndex_range f moved) as [Hm | (j & Hj & Lj & x & Hx)].
  { exists f, zeroResult, (Some ruleToMoveNotFoundError).
    unfold MoveRule. rewrite Hm. repeat split; [reflexivity | contradiction]. }
  destruct (findRuleIndex_range f target) as [Ht | (i & Hi & Li & _)].
  { exists f, zeroResult, (Some targetRuleNotFoundError).
    unfold MoveRule. rewrite Hj, Ht.
    destruct (Z.eqb_spec (Z.of_nat j) (-1)); [lia|].
    repeat split; [reflexivity | contradiction]. }
  rewrite (MoveRule_found f moved target AFTER reason i j x Hi Hj Hx Li
             (or_intror eq_refl)).
  match goal with |- context [if ?b then _ else _] => destruct b end.
  - exists f, zeroResult, None. repeat split; reflexivity.
  - eexists. eexists. eexists. split; [reflexivity|].
    split; [|split; reflexivity]. cbn [rules].
    etransitivity; [apply (Permutation_removeAt _ _ _ Hx)|].
    apply Permutation_insertAt.
Qed.

Lemma deleteMatchingRule_conserves (f : IgnoreFile) (t : Rule)
    (reason : ActionReason) :
  exists f' res err removed,
    deleteMatchingRule f t reason = (f', res, err)
    /\ Permutation (rules f) (rules f' ++ removed)
    /\ List.length removed = (if (RResult res =? REMOVED)%Z then 1 else 0)%nat
    /\ (In t (rules f) -> err = None).
Proof.
  rewrite deleteMatchingRule_firstMatch.
  destruct (firstMatch (rules f) t) as [i|] eqn:F.
  - destruct (firstMatch_split _ _ _ F) as (l1 & r & l2 & E & Hl & _).
    exists (mkIgnoreFile (removeAt (rules f) i)),
           (mkResult (Some t) REMOVED reason), None, [r].
    split; [reflexivity|]. split; [|split; reflexivity].
    cbn [rules]. rewrite E. subst i. rewrite removeAt_app.
    rewrite <- app_assoc. apply Permutation_app_head.
    apply Permutation_cons_append.
  - exists f, zeroResult, (Some ruleNotFoundError), [].
    split; [reflexivity|]. rewrite app_nil_r.
    split; [reflexivity|]. split; [reflexivity|].
    intros I. destruct (findRuleIndex_In f t I) as [i Hi]. congruence.
Qed.

(** One repair: the rules it leaves, with what it removed, are the rules it
    found; it removed one rule when its result is REMOVED and none
    otherwise; and it does not fail when both sides of the conflict are in
    the container. *)
Lemma fixConflict_conserves (f : IgnoreFile) (c : Conflict) :
  exists f' res err removed,
    fixConflict f c = (f', res, err)
    /\ Permutation (rules f) (rules f' ++ removed)
    /\ List.length removed = (if (RResult res =? REMOVED)%Z then 1 else 0)%nat
    /\ (In (Left c) (rules f) -> In (Right c) (rules f) -> err = None).
Proof.
  assert (Found : forall r, In r (rules f) -> findRuleIndex f r <> -1).
  { intros r I. rewrite findRuleIndex_firstMatch.
    destruct (findRuleIndex_In f r I) as [i ->]. lia. }
  assert (Move : forall m t,
    exists f' res err removed,
      MoveRule f m t AFTER AUTOMATED_FIX = (f', res, err)
      /\ Permutation (rules f) (rules f' ++ removed)
      /\ List.length removed = (if (RResult res =? REMOVED)%Z then 1 else 0)%nat
      /\ (In m (rules f) -> In t (rules f) -> err = None)).
  { intros m t.
    destruct (MoveRule_after_conserves f m t AUTOMATED_FIX)
      as (f' & res & err & E & P & R & Ok).
    exists f', res, err, []. rewrite app_nil_r, R. repeat split; auto. }
  assert (Del : forall t,
    exists f' res err removed,
      deleteMatchingRule f t AUTOMATED_FIX = (f', res, err)
      /\ Permutation (rules f) (rules f' ++ removed)
      /\ List.length removed = (if (RResult res =? REMOVED)%Z then 1 else 0)%nat
      /\ (In t (rules f) -> err = None)).
  { intros t. apply deleteMatchingRule_conserves. }
  unfold fixConflict.
  destruct (CType c =? REDUNDANT_RULE)%string.
  { destruct (Del (Left c)) as (f' & res & err & removed & E & P & L & Ok).
    exists f', res, err, removed. auto. }
  destruct (CType c =? UNREACHABLE_RULE)%string.
  { destruct (findRuleIndex f (Right c) =? findRuleIndex f (Left c) + 1).
    - destruct (Del (Right c)) as (f' & res & err & removed & E & P & L & Ok).
      exists f', res, err, removed. auto.
    - destruct (Move (Right c) (Left c))
        as (f' & res & err & removed & E & P & L & Ok).
      exists f', res, err, removed. auto. }
  destruct (CType c =? SEMANTIC_CONFLICT)%string.
  { eexists. eexists. eexists. exists []. split; [reflexivity|].
    rewrite app_nil_r. repeat split; reflexivity. }
  destruct (CType c =? INEFFECTIVE_RULE)%string.
  { destruct (Move (Left c) (Right c))
      as (f' & res & err & removed & E & P & L & Ok).
    exists f', res, err, removed. auto. }
  exists f, zeroResult, None, []. rewrite app_nil_r. repeat split; reflexivity.
Qed.

Lemma conserves_trans (a b c r1 r2 : list Rule) :
  Permutation a (b ++ r1) -> Permutation b (c ++ r2) ->
  Permutation a (c ++ (r2 ++ r1)).
Proof.
  intros H1 H2. rewrite H1, H2, app_assoc. reflexivity.
Qed.

Lemma removed_count_app (logs : list Result) (res : Result) :
  List.length (filter isRemoved (logs ++ [res]))
  = (List.length (filter isRemoved logs)
     + (if (RResult res =? REMOVED)%Z then 1 else 0))%nat.
Proof.
  rewrite filter_app, length_app. cbn [filter].
  destruct (RResult res =? REMOVED); reflexivity.
Qed.

Lemma fixEach_conserves (cs : list Conflict) (f : IgnoreFile)
    (logs : list Result) :
  exists f' logs' err removed,
    fixEach f cs logs = (f', logs', err)
    /\ Permutation (rules f) (rules f' ++ removed)
    /\ List.length (filter isRemoved logs')
       = (List.length (filter isRemoved logs)
          + List.length removed)%nat.
Proof.
  revert f logs. induction cs as [|c cs IH]; intros f logs; cbn [fixEach].
  - exists f, logs, None, []. rewrite app_nil_r.
    repeat split; [reflexivity | cbn; lia].
  - destruct (fixConflict_conserves f c)
      as (f1 & res & err & removed & E & P & L & _).
    rewrite E. destruct err as [e|].
    + exists f1, logs, (Some e), removed. split; [reflexivity|].
      split; [exact P|]. rewrite L.
      assert (Z : (RResult res =? REMOVED) = false).
      { unfold fixConflict in E.
        repeat match type of E with
               | (if ?b then _ else _) = _ => destruct b
               end;
          try discriminate E.
        - rewrite deleteMatchingRule_firstMatch in E.
          destruct (firstMatch (rules f) (Left c)); [discriminate E|].
          injection E as _ <- _. reflexivity.
        - rewrite deleteMatchingRule_firstMatch in E.
          destruct (firstMatch (rules f) (Right c)); [discriminate E|].
          injection E as _ <- _. reflexivity.
        - destruct (MoveRule_after_conserves f (Right c) (Left c) AUTOMATED_FIX)
            as (f2 & res2 & err2 & E2 & _ & R2 & _).
          rewrite E2 in E. injection E as _ <- _. exact R2.
        - destruct (MoveRule_after_conserves f (Left c) (Right c) AUTOMATED_FIX)
            as (f2 & res2 & err2 & E2 & _ & R2 & _).
          rewrite E2 in E. injection E as _ <- _. exact R2. }
      rewrite Z. lia.
    + destruct (IH f1 (logs ++ [res]))
        as (f2 & logs2 & err2 & removed2 & E2 & P2 & L2).
      exists f2, logs2, err2, (removed2 ++ removed). split; [exact E2|].
      split; [apply (conserves_trans _ _ _ _ _ P P2)|].
      rewrite L2, removed_count_app, length_app, L. lia.
Qed.

Lemma fixLoop_conserves (k : nat) (f : IgnoreFile) (logs : list Result)
    (done : nat) :
  exists removed,
    Permutation (rules f) (rules (file (fixLoop k f logs done)) ++ removed)
    /\ List.length (filter isRemoved
                      (fixLogs (fixLoop k f logs done)))
       = (List.length (filter isRemoved logs)
          + List.length removed)%nat.
Proof.
  revert f logs done. induction k as [|k IH]; intros f logs done;
    cbn [fixLoop].
  - exists []. cbn [file fixLogs]. rewrite app_nil_r.
    split; [reflexivity | cbn; lia].
  - destruct (FindConflicts f) as [|c cs].
    + exists []. cbn [file fixLogs]. rewrite app_nil_r.
      split; [reflexivity | cbn; lia].
    + destruct (fixEach_conserves (c :: cs) f logs)
        as (f1 & logs1 & err & removed & E & P & L).
      rewrite E. destruct err as [e|].
      * exists removed. cbn [file fixLogs]. auto.
      * destruct (IH f1 logs1 (S done)) as (removed2 & P2 & L2).
        exists (removed2 ++ removed).
        split; [apply (conserves_trans _ _ _ _ _ P P2)|].
        rewrite L2, L, length_app. lia.
Qed.

(** X8.  The fixer only deletes and reorders.  Whatever the container and the
    pass budget, and also when it fails: the rules it leaves, together with
    some removed rules, are a permutation of the rules it found, and the
    number of removed rules is the number of REMOVED results it returns.  So
    it never adds or duplicates a rule, and the container never grows. *)
Theorem FixConflicts_conserves (f : IgnoreFile) (maxPasses : Z) :
  let run := FixConflictsRun f maxPasses in
  (exists removed,
     Permutation (rules f) (rules (file run) ++ removed)
     /\ List.length removed
        = List.length (filter isRemoved (fixLogs run)))
  /\ (forall r, In r (rules (file run)) -> In r (rules f))
  /\ (List.length (rules (file run)) <= List.length (rules f))%nat.
Proof.
  intros run. subst run. unfold FixConflictsRun.
  destruct (fixLoop_conserves (Z.to_nat maxPasses) f [] 0)
    as (removed & P & L).
  cbn [filter List.length Nat.add] in L. split; [|split].
  - exists removed. auto.
  - intros r I. apply (Permutation_in r (Permutation_sym P)).
    apply in_or_app. left. exact I.
  - apply Permutation_length in P. rewrite length_app in P. lia.
Qed.

(** X9.  A repair applied to a conflict that [FindConflicts] reports on the same
    container never fails: both its sides are found.  (A repair can only
    fail on a conflict that an earlier repair of the same pass made
    stale.) *)
Theorem fresh_conflict_repair_succeeds (f : IgnoreFile) (c : Conflict) :
  In c (FindConflicts f) ->
  exists f' res, fixConflict f c = (f', res, None).
Proof.
  intros H. destruct (FindConflicts_sides f c H) as (L & R & _).
  destruct (fixConflict_conserves f c) as (f' & res & err & _ & E & _ & _ & Ok).
  exists f', res. rewrite E, (Ok L R). reflexivity.
Qed.

End FixerConservation.

Section Duplicates.

Local Open Scope list_scope.

Lemma checkConflict_same (r : Rule) (intervening : list Rule) :
  checkConflict r r intervening = Some (mkConflict r r REDUNDANT_RULE).
Proof.
  unfold checkConflict. rewrite String.eqb_refl, Z.eqb_refl. reflexivity.
Qed.

Lemma deleteMatchingRule_head (r : Rule) (rs : list Rule) (reason : ActionReason) :
  deleteMatchingRule (mkIgnoreFile (r :: rs)) r reason
  = (mkIgnoreFile rs, mkResult (Some r) REMOVED reason, None).
Proof.
  rewrite deleteMatchingRule_firstMatch. cbn [rules firstMatch].
  rewrite rulesEqual_refl. reflexivity.
Qed.

Lemma fixEach_copies (r : Rule) (rs : list Rule) (k : nat) (logs : list Result) :
  fixEach (mkIgnoreFile (repeat r k ++ rs))
          (repeat (mkConflict r r REDUNDANT_RULE) k) logs
  = (mkIgnoreFile rs,
     logs ++ repeat (mkResult (Some r) REMOVED AUTOMATED_FIX) k, None).
Proof.
  revert logs. induction k as [|k IH]; intros logs; cbn [repeat app fixEach].
  - rewrite app_nil_r. reflexivity.
  - change (fixConflict (mkIgnoreFile (r :: repeat r k ++ rs))
              (mkConflict r r REDUNDANT_RULE))
      with (deleteMatchingRule (mkIgnoreFile (r :: repeat r k ++ rs)) r
              AUTOMATED_FIX).
    rewrite deleteMatchingRule_head, IH, <- app_assoc. reflexivity.
Qed.

(** X10.  Copies of one rule.  For every rule [r] and every budget of at least one
    pass:
    - two copies collapse to one, with one REMOVED result;
    - three copies are all deleted: the pass detects three REDUNDANT_RULE
      conflicts and each repair deletes a copy;
    - four copies are all deleted as well, and the fifth of the six repairs
      fails with [ruleNotFoundError], which ends the fixer. *)
Theorem FixConflicts_copies (r : Rule) (n : Z) :
  1 <= n ->
  let removed := mkResult (Some r) REMOVED AUTOMATED_FIX in
  FixConflicts (mkIgnoreFile [r; r]) n
  = (mkIgnoreFile [r], [removed], None)
  /\ FixConflicts (mkIgnoreFile [r; r; r]) n
     = (mkIgnoreFile [], [removed; removed; removed], None)
  /\ FixConflicts (mkIgnoreFile [r; r; r; r]) n
     = (mkIgnoreFile [], [removed; removed; removed; removed],
        Some ruleNotFoundError).
Proof.
  intros Hn removed. unfold FixConflicts, FixConflictsRun.
  destruct (Z.to_nat n) as [|m] eqn:E; [lia|]. clear E Hn.
  assert (F2 : FindConflicts (mkIgnoreFile [r; r])
               = repeat (mkConflict r r REDUNDANT_RULE) 1).
  { unfold FindConflicts. cbn -[checkConflict].
    rewrite !checkConflict_same. reflexivity. }
  assert (F3 : FindConflicts (mkIgnoreFile [r; r; r])
               = repeat (mkConflict r r REDUNDANT_RULE) 3).
  { unfold FindConflicts. cbn -[checkConflict].
    rewrite !checkConflict_same. reflexivity. }
  assert (F4 : FindConflicts (mkIgnoreFile [r; r; r; r])
               = repeat (mkConflict r r REDUNDANT_RULE) 4
                 ++ repeat (mkConflict r r REDUNDANT_RULE) 2).
  { unfold FindConflicts. cbn -[checkConflict].
    rewrite !checkConflict_same. reflexivity. }
  split; [|split]; cbn [fixLoop].
  - rewrite F2. pose proof (fixEach_copies r [r] 1 []) as P.
    cbn [repeat app] in P |- *. rewrite P.
    destruct m; reflexivity.
  - rewrite F3. pose proof (fixEach_copies r [] 3 []) as P.
    cbn [repeat app] in P |- *. rewrite P.
    destruct m; reflexivity.
  - rewrite F4.
    assert (G : forall cs1 cs2 f logs f' logs',
              fixEach f cs1 logs = (f', logs', None) ->
              fixEach f (cs1 ++ cs2) logs = fixEach f' cs2 logs').
    { induction cs1 as [|c cs1 IH]; intros cs2 f logs f' logs' H;
        cbn [app fixEach] in *.
      - injection H as <- <-. reflexivity.
      - destruct (fixConflict f c) as [[f1 res] [e|]]; [discriminate H|].
        apply IH, H. }
    pose proof (G _ (repeat (mkConflict r r REDUNDANT_RULE) 2) _ _ _ _
                  (fixEach_copies r [] 4 [])) as P.
    cbn [repeat app] in P |- *. rewrite P. reflexivity.
Qed.

Lemma FixConflicts_copies_witness :
  1 <= 5 /\
  FixConflicts (mkIgnoreFile [Scenario.txtExt; Scenario.txtExt; Scenario.txtExt]) 5
  = (mkIgnoreFile [],
     [mkResult (Some Scenario.txtExt) REMOVED AUTOMATED_FIX;
      mkResult (Some Scenario.txtExt) REMOVED AUTOMATED_FIX;
      mkResult (Some Scenario.txtExt) REMOVED AUTOMATED_FIX], None).
Proof.
  assert (H : 1 <= 5) by lia.
  exact (conj H (proj1 (proj2 (FixConflicts_copies Scenario.txtExt 5 H)))).
Defined.

End Duplicates.

Section Convergence.

Local Open Scope list_scope.

Lemma fixLoop_clean (k : nat) (f : IgnoreFile) :
  FindConflicts f = [] ->
  let run := fixLoop k f [] 0 in
  file run = f /\ fixLogs run = [] /\ failure run = None.
Proof.
  intros H. destruct k as [|k]; cbn [fixLoop]; [|rewrite H]; repeat split.
Qed.

(** X11.  Once the fixer has converged it is idempotent: when [FixConflicts(n)]
    returns without error before its budget is used up, fixing the container
    it leaves again, with any budget, changes nothing and reports nothing. *)
Theorem FixConflicts_idempotent_after_convergence (f : IgnoreFile) (n m : Z) :
  failure (FixConflictsRun f n) = None ->
  Z.of_nat (passes (FixConflictsRun f n)) < n ->
  FixConflicts (file (FixConflictsRun f n)) m
  = (file (FixConflictsRun f n), [], None).
Proof.
  intros He Hp.
  assert (C : FindConflicts (file (FixConflictsRun f n)) = []).
  { unfold FixConflictsRun in *. apply fixLoop_early_stop; [exact He | lia]. }
  unfold FixConflicts. unfold FixConflictsRun at 1 3 5.
  destruct (fixLoop_clean (Z.to_nat m) _ C) as (-> & -> & ->). reflexivity.
Qed.

Lemma FixConflicts_idempotent_after_convergence_witness :
  failure (FixConflictsRun Scenario.A 10) = None /\
  Z.of_nat (passes (FixConflictsRun Scenario.A 10)) < 10 /\
  FixConflicts (file (FixConflictsRun Scenario.A 10)) 7
  = (file (FixConflictsRun Scenario.A 10), [], None).
Proof.
  assert (He : failure (FixConflictsRun Scenario.A 10) = None) by reflexivity.
  assert (Hp : Z.of_nat (passes (FixConflictsRun Scenario.A 10)) < 10)
    by (vm_compute; reflexivity).
  exact (conj He (conj Hp
    (FixConflicts_idempotent_after_convergence Scenario.A 10 7 He Hp))).
Defined.

End Convergence.

(* ================================================================= *)
(** * Further properties of smart insertion *)

Section CleanInsertion.

Local Open Scope list_scope.

Lemma addScan_clean (rule : Rule) (rest : list Rule) :
  (forall l1 existing l2, rest = l1 ++ existing :: l2 ->
     checkConflict existing rule l2 = None
     /\ ruleShouldComeBefore rule existing = false) ->
  forall i ideal, addScan i rest rule ideal = Ok ideal.
Proof.
  induction rest as [|existing intervening IH]; intros H i ideal;
    [reflexivity|].
  cbn [addScan]. destruct (H [] existing intervening eq_refl) as [-> ->].
  cbn [andb]. apply IH. intros l1 e l2 ->.
  apply (H (existing :: l1) e l2). reflexivity.
Qed.

Lemma slice_snoc_inner (rs : list Rule) (x : Rule) (i j : nat) :
  (i < j)%nat -> (j <= List.length rs)%nat ->
  slice (rs ++ [x]) (i + 1) j = slice rs (i + 1) j.
Proof.
  intros Hij Hj. unfold slice.
  rewrite skipn_app, firstn_app, length_skipn.
  replace (i + 1 - List.length rs)%nat with O by lia. cbn [skipn].
  replace (j - (i + 1) - (List.length rs - (i + 1)))%nat with O by lia.
  cbn [firstn]. apply app_nil_r.
Qed.

Lemma slice_snoc_last (l1 l2 : list Rule) (e x : Rule) :
  slice ((l1 ++ e :: l2) ++ [x]) (List.length l1 + 1)
        (List.length (l1 ++ e :: l2)) = l2.
Proof.
  unfold slice. rewrite <- app_assoc. cbn [app].
  replace (List.length l1 + 1)%nat with (S (List.length l1)) by lia.
  rewrite length_app. cbn [List.length].
  replace (l1 ++ e :: l2 ++ [x]) with ((l1 ++ [e]) ++ (l2 ++ [x]))
    by (rewrite <- app_assoc; reflexivity).
  rewrite skipn_app.
  rewrite skipn_all2 by (rewrite length_app; cbn; lia).
  rewrite length_app. cbn [List.length app].
  replace (S (List.length l1) - (List.length l1 + 1))%nat with O by lia.
  cbn [skipn].
  replace (List.length l1 + S (List.length l2) - S (List.length l1))%nat
    with (List.length l2) by lia.
  rewrite firstn_app, firstn_all, Nat.sub_diag. cbn [firstn]. apply app_nil_r.
Qed.

Lemma FindConflicts_snoc (rs : list Rule) (rule : Rule) :
  FindConflicts (mkIgnoreFile rs) = [] ->
  (forall l1 existing l2, rs = l1 ++ existing :: l2 ->
     checkConflict existing rule l2 = None) ->
  FindConflicts (mkIgnoreFile (rs ++ [rule])) = [].
Proof.
  intros Hclean Hnew.
  destruct (FindConflicts (mkIgnoreFile (rs ++ [rule]))) as [|c cs] eqn:E;
    [reflexivity|].
  exfalso.
  assert (I : In c (FindConflicts (mkIgnoreFile (rs ++ [rule]))))
    by (rewrite E; left; reflexivity).
  apply FindConflicts_pairs in I. cbn [rules] in I.
  destruct I as (i & j & rule1 & rule2 & Hij & H1 & H2 & C).
  assert (Lj : (j < List.length (rs ++ [rule]))%nat)
    by (apply nth_error_Some; congruence).
  rewrite length_app in Lj. cbn [List.length] in Lj.
  rewrite nth_error_app1 in H1 by lia.
  destruct (Nat.eq_dec j (List.length rs)) as [-> | Hne].
  - rewrite nth_error_app2, Nat.sub_diag in H2 by lia.
    injection H2 as <-.
    destruct (nth_error_split rs i H1) as (l1 & l2 & -> & <-).
    rewrite slice_snoc_last in C.
    rewrite (Hnew l1 rule1 l2 eq_refl) in C. discriminate C.
  - rewrite nth_error_app1 in H2 by lia.
    rewrite slice_snoc_inner in C by lia.
    assert (I : In c (FindConflicts (mkIgnoreFile rs))).
    { apply FindConflicts_pairs. exists i, j, rule1, rule2. auto. }
    rewrite Hclean in I. destruct I.
Qed.

Lemma add_clean (f : IgnoreFile) (rule : Rule) :
  FindConflicts f = [] ->
  (forall l1 existing l2, rules f = l1 ++ existing :: l2 ->
     checkConflict existing rule l2 = None
     /\ ruleShouldComeBefore rule existing = false) ->
  addRuleWithConflictResolution f rule
  = (mkIgnoreFile (rules f ++ [rule]),
     [mkResult (Some rule) ADDED REQUESTED], None)
  /\ deleteMatchingRule (mkIgnoreFile (rules f ++ [rule])) rule REQUESTED
     = (f, mkResult (Some rule) REMOVED REQUESTED, None).
Proof.
  intros Hclean Hnew. destruct f as [rs]. cbn [rules] in *. split.
  - unfold addRuleWithConflictResolution. cbn [rules].
    rewrite (addScan_clean rule rs Hnew).
    assert (Ins : insertAt rs (List.length rs) rule = rs ++ [rule]).
    { unfold insertAt. rewrite firstn_all, skipn_all. reflexivity. }
    rewrite Ins.
    assert (C : FindConflicts (mkIgnoreFile (rs ++ [rule])) = []).
    { apply FindConflicts_snoc; [exact Hclean|].
      intros l1 e l2 H. apply (Hnew l1 e l2 H). }
    unfold FixConflicts, FixConflictsRun.
    destruct (fixLoop_clean (Z.to_nat 20) _ C) as (-> & -> & ->). reflexivity.
  - pose proof (deleteMatchingRule_first rs [] rule rule REQUESTED) as D.
    rewrite app_nil_r in D. apply D; [|apply rulesEqual_refl].
    intros r' I. destruct (in_split _ _ I) as (l1 & l2 & ->).
    destruct (Hnew l1 r' l2 eq_refl) as [C _].
    unfold checkConflict in C. unfold rulesEqual.
    destruct (Pattern r' =? Pattern rule)%string; [|reflexivity].
    destruct (negb (ActionOf r' =? ActionOf rule)); discriminate C.
Qed.

(** X12.  Adding to a clean container.  When the detector finds no conflict in the
    container, and no existing rule conflicts with the new rule (as [add]
    checks it, against the rules behind the existing one) or is a same-action
    rule that the new rule subsumes, then [add] appends the rule at the end
    and returns the single result ADDED / REQUESTED; and deleting the rule
    afterwards gives back the container as it was.  The same holds through
    the facade methods, for arguments that their constructor accepts. *)
Theorem add_then_delete (f : IgnoreFile) (rule : Rule) :
  FindConflicts f = [] ->
  (forall l1 existing l2, rules f = l1 ++ existing :: l2 ->
     checkConflict existing rule l2 = None
     /\ ruleShouldComeBefore rule existing = false) ->
  let f' := mkIgnoreFile (rules f ++ [rule]) in
  let added := [mkResult (Some rule) ADDED REQUESTED] in
  let removed := mkResult (Some rule) REMOVED REQUESTED in
  addRuleWithConflictResolution f rule = (f', added, None)
  /\ deleteMatchingRule f' rule REQUESTED = (f, removed, None)
  /\ (forall path a, NewFileRule path a = Ok rule ->
        AddFile f path a = (f', added, None)
        /\ DeleteFile f' path a = (f, removed, None))
  /\ (forall ext a, NewExtensionRule ext a = Ok rule ->
        AddExtension f ext a = (f', added, None)
        /\ DeleteExtension f' ext a = (f, removed, None))
  /\ (forall name m a, NewDirectoryRule name m a = Ok rule ->
        AddDirectory f name m a = (f', added, None)
        /\ DeleteDirectory f' name m a = (f, removed, None))
  /\ (forall pattern a, NewGlobRule pattern a = Ok rule ->
        AddGlob f pattern a = (f', added, None)
        /\ DeleteGlob f' pattern a = (f, removed, None)).
Proof.
  intros Hclean Hnew f' added removed.
  destruct (add_clean f rule Hclean Hnew) as [A D].
  split; [exact A|]. split; [exact D|].
  repeat split;
    unfold AddFile, DeleteFile, AddExtension, DeleteExtension,
           AddDirectory, DeleteDirectory, AddGlob, DeleteGlob;
    rewrite H; assumption.
Qed.

End CleanInsertion.

(* ================================================================= *)
(** * Parsing and rendering whole files *)

Section ParseFacts.

Local Open Scope list_scope.

Lemma splitLines_nonempty (s : string) :
  exists line lines, splitLines s = line :: lines.
Proof.
  induction s as [|c s (line & lines & IH)]; cbn [splitLines]; [eauto|].
  destruct (c =? "010")%char; [eauto|]. rewrite IH. eauto.
Qed.

(** Splitting at a line feed splits the list of lines. *)
Lemma splitLines_app (a b : string) :
  splitLines (a ++ String "010" b)%string = splitLines a ++ splitLines b.
Proof.
  induction a as [|c a IH]; cbn [append splitLines].
  - reflexivity.
  - destruct (c =? "010")%char; [rewrite IH; reflexivity|].
    rewrite IH. destruct (splitLines_nonempty a) as (line & lines & ->).
    reflexivity.
Qed.

Lemma Contains_cons_newline (c : ascii) (s : string) :
  Contains (String c s) (String "010" "") = (c =? "010")%char || Contains s (String "010" "").
Proof.
  cbn [Contains]. f_equal. unfold HasPrefix. cbn [String.prefix].
  destruct (Ascii.eqb_spec c "010") as [-> | N].
  - destruct s; reflexivity.
  - destruct (ascii_dec "010" c); [congruence | reflexivity].
Qed.

Lemma splitLines_single (s : string) :
  Contains s (String "010" "") = false -> splitLines s = [s].
Proof.
  induction s as [|c s IH]; [reflexivity|].
  rewrite Contains_cons_newline. intros H.
  apply orb_false_iff in H. destruct H as [H1 H2].
  cbn [splitLines]. rewrite H1, (IH H2). reflexivity.
Qed.

Lemma parseRule_valid (line : string) (r : Rule) :
  parseRule line = Ok r -> validRule r.
Proof.
  unfold parseRule.
  set (action := if HasPrefix line "!" then EXCLUDE else INCLUDE).
  set (body := if HasPrefix line "!" then drop 1 line else line).
  destruct (isExtensionPattern body); [apply valid_extension|].
  destruct (isDirectoryPattern body).
  - unfold parseDirectoryRule.
    destruct (directoryParts body) as [[name mode]|]; [|discriminate].
    apply valid_directory.
  - destruct (isGlobPattern body); [apply valid_glob | apply valid_file].
Qed.

Lemma parseLine_appends (f : IgnoreFile) (line : string) :
  parseLine f line = f
  \/ exists r, parseLine f line = addRule f r /\ validRule r.
Proof.
  unfold parseLine.
  destruct ((TrimSpace line =? "")%string || HasPrefix (TrimSpace line) "#");
    [left; reflexivity|].
  destruct (parseRule (TrimSpace line)) as [r|e] eqn:P; [|left; reflexivity].
  right. exists r. split; [reflexivity | eapply parseRule_valid, P].
Qed.

Lemma fold_parseLine_appends (lines : list string) (f : IgnoreFile) :
  exists added,
    rules (fold_left parseLine lines f) = rules f ++ added
    /\ Forall validRule added
    /\ (List.length added <= List.length lines)%nat.
Proof.
  revert f. induction lines as [|line lines IH]; intros f; cbn [fold_left].
  - exists []. rewrite app_nil_r. repeat split; [constructor | cbn; lia].
  - destruct (parseLine_appends f line) as [-> | (r & -> & V)].
    + destruct (IH f) as (added & E & Fa & L). exists added.
      repeat split; [exact E | exact Fa | cbn; lia].
    + destruct (IH (addRule f r)) as (added & E & Fa & L).
      exists (r :: added). cbn [addRule rules] in E.
      rewrite E, <- app_assoc. repeat split; [constructor; assumption | cbn; lia].
Qed.

(** X13.  [Parse] works line by line and only appends.
    - Parsing [a], a line feed, then [b] is parsing [a] and then [b].
    - The rules the container already holds are kept, in place, in front of
      the parsed ones; every parsed rule is a valid rule (one that a
      constructor returns); there is at most one per line; and the error is
      always nil.
    - A single line that is blank after trimming, or whose first character
      after trimming is ["#"], adds nothing. *)
Theorem Parse_line_by_line :
  (forall (a b : string) (f : IgnoreFile),
     fst (Parse (a ++ String "010" b) f) = fst (Parse b (fst (Parse a f))))
  /\
  (forall (content : string) (f : IgnoreFile),
     snd (Parse content f) = None
     /\ exists added,
          rules (fst (Parse content f)) = rules f ++ added
          /\ Forall validRule added
          /\ (List.length added <= List.length (splitLines content))%nat)
  /\
  (forall (line : string) (f : IgnoreFile),
     Contains line (String "010" "") = false ->
     TrimSpace line = "" \/ HasPrefix (TrimSpace line) "#" = true ->
     Parse line f = (f, None)).
Proof.
  split; [|split].
  - intros a b f. unfold Parse. cbn [fst].
    rewrite splitLines_app, fold_left_app. reflexivity.
  - intros content f. split; [reflexivity|]. unfold Parse. cbn [fst].
    apply fold_parseLine_appends.
  - intros line f N H. unfold Parse. rewrite (splitLines_single line N).
    cbn [fold_left]. unfold parseLine.
    destruct H as [-> | ->]; [reflexivity|].
    rewrite orb_true_r. reflexivity.
Qed.

Lemma Parse_line_by_line_witness :
  Contains "  # a comment" (String "010" "") = false /\
  (TrimSpace "  # a comment" = "" \/
   HasPrefix (TrimSpace "  # a comment") "#" = true) /\
  Parse "  # a comment" Scenario.E = (Scenario.E, None).
Proof.
  assert (N : Contains "  # a comment" (String "010" "") = false)
    by reflexivity.
  assert (H : TrimSpace "  # a comment" = "" \/
              HasPrefix (TrimSpace "  # a comment") "#" = true)
    by (right; reflexivity).
  exact (conj N (conj H
    (proj2 (proj2 Parse_line_by_line) "  # a comment"%string Scenario.E N H))).
Defined.

End ParseFacts.

Section FileRoundTrip.

Local Open Scope list_scope.

Lemma parseRule_rendered (r : Rule) :
  readsBack r ->
  exists r', parseRule (Render r) = Ok r' /\ rulesEqual r' r = true.
Proof.
  intros (V & _ & Hbang & Hstar & Hdir).
  pose proof (valid_action r V) as Va.
  pose proof (Render_Pattern r Va Hbang) as HR.
  assert (Hbang' : ActionOf r = INCLUDE -> HasPrefix (Pattern r) "!" = false).
  { intros E. specialize (Hbang E). rewrite HR, E in Hbang. exact Hbang. }
  destruct (classifyLine_roundtrip (Pattern r) (ActionOf r) Va Hbang' Hstar Hdir
              (valid_key_trimmed r V Hbang))
    as (r' & Hc & HP & HA).
  exists r'. split; [|apply rulesEqual_true; split; assumption].
  rewrite HR. destruct (Validate_cases _ Va) as [E | E]; rewrite E.
  - change (ActionM.Prefix INCLUDE) with "". cbn [append].
    rewrite (parseRule_include _ (Hbang' E)), <- E. exact Hc.
  - change (ActionM.Prefix EXCLUDE) with "!".
    rewrite parseRule_exclude, <- E. exact Hc.
Qed.

Lemma singleCanonicalLine_parts (s : string) :
  singleCanonicalLine s = true ->
  Contains s (String "010" "") = false /\ TrimSpace s = s
  /\ (s =? "")%string = false /\ HasPrefix s "#" = false.
Proof.
  unfold singleCanonicalLine. intros H.
  apply andb_true_iff in H. destruct H as [H H4].
  apply andb_true_iff in H. destruct H as [H H3].
  apply andb_true_iff in H. destruct H as [H1 H2].
  apply negb_true_iff in H1, H3, H4. apply String.eqb_eq in H2. auto.
Qed.

Lemma parseLine_rendered (f : IgnoreFile) (r : Rule) :
  readsBack r ->
  exists r', parseLine f (Render r) = addRule f r' /\ rulesEqual r' r = true.
Proof.
  intros H. destruct (parseRule_rendered r H) as (r' & P & E).
  destruct H as (_ & C & _).
  destruct (singleCanonicalLine_parts _ C) as (_ & T & N & Hash).
  exists r'. split; [|exact E].
  unfold parseLine. rewrite T, N, Hash, P. reflexivity.
Qed.

Lemma fold_parseLine_rendered (rs : list Rule) (f : IgnoreFile) :
  Forall readsBack rs ->
  exists rs',
    fold_left parseLine (map Render rs) f = mkIgnoreFile (rules f ++ rs')
    /\ Forall2 (fun r' r => rulesEqual r' r = true) rs' rs.
Proof.
  intros H. revert f. induction H as [|r rs Hr Hrs IH]; intros f;
    cbn [map fold_left].
  - exists []. rewrite app_nil_r. destruct f. split; [reflexivity | constructor].
  - destruct (parseLine_rendered f r Hr) as (r' & -> & E).
    destruct (IH (addRule f r')) as (rs' & -> & F).
    exists (r' :: rs'). cbn [addRule rules]. rewrite <- app_assoc.
    split; [reflexivity | constructor; assumption].
Qed.

Lemma parseLine_header (f : IgnoreFile) (comment : string) :
  parseLine f ("# " ++ comment)%string = f.
Proof.
  unfold parseLine, TrimSpace. cbn [append].
  rewrite (TrimLeftSpace_fixed (String "#" (String " " comment)))
    by (destruct comment; reflexivity).
  assert (A : allSpace (String "#" (String " " comment)) = false)
    by (destruct comment; reflexivity).
  change (TrimRightSpace (String "#" (String " " comment)))
    with (if allSpace (String "#" (String " " comment)) then EmptyString
          else String "#" (TrimRightSpace (String " " comment))).
  rewrite A. generalize (TrimRightSpace (String " " comment)) as t.
  intros t. destruct t; reflexivity.
Qed.

Lemma splitLines_concat (lines : list string) :
  Forall (fun l => Contains l (String "010" "") = false) lines ->
  splitLines (String.concat (String "010" "") lines)
  = match lines with [] => [EmptyString] | _ :: _ => lines end.
Proof.
  induction 1 as [|l ls Hl Hls IH]; [reflexivity|].
  destruct ls as [|l2 ls].
  - apply splitLines_single, Hl.
  - assert (E : String.concat (String "010" "") (l :: l2 :: ls)
                = (l ++ String "010" (String.concat (String "010" "") (l2 :: ls)))%string)
      by reflexivity.
    rewrite E, splitLines_app, IH, (splitLines_single l Hl). reflexivity.
Qed.

(** X14.  Writing a container and reading it back.  When every rule of [f] is
    written as one canonical line that [parseRule] reads back, and the
    header comment holds no line feed, then parsing what [Render] wrote,
    with or without header and trailing line feed, appends to the receiving
    container one rule per rule of [f], in the same order, each with the
    pattern key and the action of the rule it comes from. *)
Theorem Parse_RenderFile (f f0 : IgnoreFile) (options : RenderOptions) :
  Contains (HeaderComment options) (String "010" "") = false ->
  Forall readsBack (rules f) ->
  exists rs',
    Parse (RenderFile f options) f0 = (mkIgnoreFile (rules f0 ++ rs'), None)
    /\ Forall2 (fun r' r => rulesEqual r' r = true) rs' (rules f).
Proof.
  intros Hh Hr. unfold Parse, RenderFile.
  set (header := if (0 <? String.length (HeaderComment options))%nat
                 then [("# " ++ HeaderComment options)%string; EmptyString]
                 else []).
  set (lines := header ++ map Render (rules f)).
  assert (NL : Forall (fun l => Contains l (String "010" "") = false) lines).
  { apply Forall_app. split.
    - subst header. destruct (0 <? String.length (HeaderComment options))%nat;
        [|constructor].
      constructor; [|constructor; [reflexivity | constructor]].
      cbn [append]. rewrite !Contains_cons_newline. exact Hh.
    - apply Forall_map. eapply Forall_impl; [|exact Hr].
      intros r (_ & C & _). apply (singleCanonicalLine_parts _ C). }
  assert (Skip : forall g, fold_left parseLine header g = g).
  { intros g. subst header.
    destruct (0 <? String.length (HeaderComment options))%nat; [|reflexivity].
    cbn [fold_left]. rewrite parseLine_header. reflexivity. }
  assert (Body : forall g,
            fold_left parseLine
              (match lines with [] => [EmptyString] | _ :: _ => lines end) g
            = fold_left parseLine (map Render (rules f)) g).
  { intros g. transitivity (fold_left parseLine lines g).
    - destruct lines; reflexivity.
    - subst lines. rewrite fold_left_app, Skip. reflexivity. }
  destruct (fold_parseLine_rendered (rules f) f0 Hr) as (rs' & E & F).
  exists rs'. split; [|exact F]. f_equal.
  destruct (TrailingNewLine options).
  - rewrite splitLines_app, (splitLines_concat lines NL), fold_left_app, Body, E.
    reflexivity.
  - rewrite (splitLines_concat lines NL), Body. exact E.
Qed.

End FileRoundTrip.

(* ================================================================= *)
(** * Further properties of rules and their constructors *)

Section RuleInvariants.

Lemma valid_directory_key (n : string) (m : DirectoryMode) (a : Action) :
  n <> "" -> DirectoryModeM.Validate m = None -> ActionM.Validate a = None ->
  Pattern (DirectoryRule n m a) <> "".
Proof.
  intros Hn Hm Ha.
  assert (Cases : m = DIRECTORY \/ m = CHILDREN \/ m = RECURSIVE
                  \/ m = ANYWHERE \/ m = ROOT_ONLY).
  { unfold DirectoryModeM.Validate in Hm.
    destruct (Z.eqb_spec m DIRECTORY); [auto|].
    destruct (Z.eqb_spec m RECURSIVE); [auto|].
    destruct (Z.eqb_spec m CHILDREN); [auto|].
    destruct (Z.eqb_spec m ANYWHERE); [auto|].
    destruct (Z.eqb_spec m ROOT_ONLY); [auto 6 | discriminate]. }
  destruct n as [|c n']; [congruence|].
  destruct (Validate_cases a Ha) as [-> | ->];
    destruct Cases as [-> | [-> | [-> | [-> | ->]]]];
    cbn; try discriminate;
    match goal with
    | |- context [if ?b then _ else _] => destruct b
    end;
    try discriminate; destruct n'; discriminate.
Qed.

(** X15.  What holds of every valid rule, that is, of every rule that a
    constructor or the parser returns: its action is INCLUDE or EXCLUDE; its
    pattern key is not empty; the line of an EXCLUDE rule is ["!"] followed
    by the pattern key; and a file or glob rule is what its constructor
    returns for the rule's own fields. *)
Theorem validRule_invariants (r : Rule) :
  validRule r ->
  (ActionOf r = INCLUDE \/ ActionOf r = EXCLUDE)
  /\ Pattern r <> ""
  /\ (ActionOf r = EXCLUDE -> Render r = "!" ++ Pattern r)
  /\ (forall p a, r = FileRule p a -> NewFileRule p a = Ok r)
  /\ (forall p a, r = GlobRule p a -> NewGlobRule p a = Ok r).
Proof.
  intros V. pose proof (valid_action r V) as Va.
  split; [apply Validate_cases, Va|]. split; [|split; [|split]].
  - destruct r as [p a | e a | n m a | p a].
    + apply (valid_file_fields p a V).
    + rewrite Pattern_extension. discriminate.
    + destruct (valid_directory_fields n m a V) as (N & M & A).
      apply valid_directory_key; assumption.
    + apply (valid_glob_fields p a V).
  - intros E. destruct r as [p a | e a | n m a | p a]; cbn [ActionOf] in E;
      subst a.
    + reflexivity.
    + rewrite Pattern_extension. reflexivity.
    + destruct (Pattern_directory n m EXCLUDE (or_introl eq_refl)) as [-> ->].
      reflexivity.
    + reflexivity.
  - intros p a ->. destruct (valid_file_fields p a V) as (N & T & A).
    unfold NewFileRule, validatePath. apply String.eqb_neq in N.
    rewrite T, N, A. reflexivity.
  - intros p a ->. destruct (valid_glob_fields p a V) as (N & T & A).
    unfold NewGlobRule, validateGlobPattern. apply String.eqb_neq in N.
    rewrite T, N, A. reflexivity.
Qed.

Lemma validRule_invariants_witness :
  validRule (DirectoryRule "build" RECURSIVE EXCLUDE) /\
  Pattern (DirectoryRule "build" RECURSIVE EXCLUDE) <> "" /\
  (ActionOf (DirectoryRule "build" RECURSIVE EXCLUDE) = EXCLUDE ->
   Render (DirectoryRule "build" RECURSIVE EXCLUDE)
   = "!" ++ Pattern (DirectoryRule "build" RECURSIVE EXCLUDE)).
Proof.
  assert (V : validRule (DirectoryRule "build" RECURSIVE EXCLUDE))
    by (apply (valid_directory "/build/" RECURSIVE EXCLUDE); reflexivity).
  pose (I := validRule_invariants _ V).
  exact (conj V (conj (proj1 (proj2 I)) (proj1 (proj2 (proj2 I))))).
Defined.

Lemma TrimSpace_dot (e : string) :
  TrimSpace e = e -> TrimSpace (String "." e) = String "." e.
Proof.
  intros H. apply TrimSpace_fixed_right in H. unfold TrimSpace.
  rewrite (TrimLeftSpace_fixed (String "." e))
    by (destruct e as [|c [|d e]]; reflexivity).
  assert (A : allSpace (String "." e) = false)
    by (destruct e as [|c [|d e]]; reflexivity).
  cbn [TrimRightSpace]. rewrite A, H. reflexivity.
Qed.

(** X16.  How [NewExtensionRule] cleans its argument, for a trimmed extension [e]
    and a valid action.
    - One leading ["*."] is dropped: if [e] does not itself begin with
      ["*."], then ["*." ++ e] and [e] give the same result.
    - A leading ["."] is kept: ["." ++ e] gives the extension ["." ++ e],
      whose pattern key is ["*.." ++ e], not ["*." ++ e]. *)
Theorem NewExtensionRule_cleaning (e : string) (a : Action) :
  TrimSpace e = e ->
  ActionM.Validate a = None ->
  (HasPrefix e "*." = false ->
   NewExtensionRule ("*." ++ e) a = NewExtensionRule e a)
  /\ NewExtensionRule ("." ++ e) a = Ok (ExtensionRule ("." ++ e) a)
  /\ Pattern (ExtensionRule ("." ++ e) a) = "*.." ++ e.
Proof.
  intros T A. split; [|split].
  - intros P.
    assert (E1 : TrimPrefix ("*." ++ e) "*." = e).
    { unfold TrimPrefix. rewrite (HasPrefix_app "*." e). reflexivity. }
    assert (E2 : TrimPrefix e "*." = e).
    { unfold TrimPrefix. rewrite P. reflexivity. }
    unfold NewExtensionRule, validateExtension.
    rewrite (TrimSpace_star_dot e T), T, E1, E2. reflexivity.
  - unfold NewExtensionRule, validateExtension. cbn [append].
    rewrite (TrimSpace_dot e T).
    assert (P : HasPrefix (String "." e) "*." = false) by reflexivity.
    unfold TrimPrefix. rewrite P, A. reflexivity.
  - rewrite Pattern_extension. reflexivity.
Qed.

Lemma NewExtensionRule_cleaning_witness :
  TrimSpace "go" = "go" /\ ActionM.Validate INCLUDE = None /\
  HasPrefix "go" "*." = false /\
  NewExtensionRule ("*." ++ "go") INCLUDE = NewExtensionRule "go" INCLUDE /\
  NewExtensionRule ("." ++ "go") INCLUDE = Ok (ExtensionRule ("." ++ "go") INCLUDE).
Proof.
  pose (C := NewExtensionRule_cleaning "go" INCLUDE eq_refl eq_refl).
  exact (conj eq_refl (conj eq_refl (conj eq_refl
           (conj (proj1 C eq_refl) (proj1 (proj2 C)))))).
Defined.

End RuleInvariants.

Section Rescue.

Local Open Scope list_scope.

(** X17.  The rescue of a pair is decided by the intervening rules of the opposite
    action alone: the pair is rescued exactly when one of them affects the
    pattern space.  So rules with the action of the broader rule never
    rescue, and putting more rules between the two never takes a rescue
    away. *)
Theorem rescue_by_opposite_action (broader specific : Rule)
    (intervening : list Rule) :
  (hasInterveningExceptions broader specific intervening = true <->
   exists x, In x intervening
             /\ ActionOf x <> ActionOf broader
             /\ ruleAffectsPatternSpace x broader specific = true)
  /\ (forall more,
        hasInterveningExceptions broader specific (intervening ++ more)
        = hasInterveningExceptions broader specific intervening
          || hasInterveningExceptions broader specific more).
Proof.
  split.
  - induction intervening as [|y ys IH]; cbn [hasInterveningExceptions].
    + split; [discriminate | intros (x & [] & _)].
    + destruct (Z.eqb_spec (ActionOf y) (ActionOf broader)) as [E|E];
        cbn [negb andb].
      * rewrite IH. split.
        -- intros (x & I & H). exists x. split; [right; exact I | exact H].
        -- intros (x & [<- | I] & N & H); [contradiction | eauto].
      * destruct (ruleAffectsPatternSpace y broader specific) eqn:R.
        -- split; [|reflexivity]. intros _. exists y. split; [left|]; auto.
        -- rewrite IH. split.
           ++ intros (x & I & H). exists x. split; [right; exact I | exact H].
           ++ intros (x & [<- | I] & N & H); [congruence | eauto].
  - intros more. induction intervening as [|y ys IH];
      cbn [app hasInterveningExceptions]; [reflexivity|].
    destruct (negb (ActionOf y =? ActionOf broader)
              && ruleAffectsPatternSpace y broader specific);
      [reflexivity | exact IH].
Qed.

End Rescue.

Section SameKey.

Local Open Scope list_scope.

(** X18.  [add] never lets a second rule with the same pattern key in: when some
    rule of the container has the pattern key of the new rule, whatever the
    variants and the actions, [add] returns an insertion-conflict error and
    leaves the container as it was. *)
Theorem add_rejects_same_key (f : IgnoreFile) (rule existing : Rule) :
  In existing (rules f) ->
  Pattern existing = Pattern rule ->
  exists e,
    addRuleWithConflictResolution f rule = (f, [], Some e)
    /\ (e = semanticConflictError \/ e = redundantRuleError
        \/ e = unreachableRuleError).
Proof.
  intros I HP. destruct (in_split _ _ I) as (l1 & l2 & Hf).
  assert (Hhere : exists e, firstRejection rule (existing :: l2) = Some e).
  { cbn [firstRejection]. unfold rejectionAt, checkConflict.
    rewrite HP, String.eqb_refl.
    destruct (negb (ActionOf existing =? ActionOf rule)); cbn; eauto. }
  destruct Hhere as [e0 He0].
  destruct (firstRejection_some rule l1 _ _ He0) as [e He].
  exists e. unfold addRuleWithConflictResolution. rewrite Hf.
  rewrite (addScan_firstRejection _ _ _ He).
  split; [reflexivity | eapply firstRejection_cases, He].
Qed.

Lemma add_rejects_same_key_witness :
  In (ExtensionRule "log" EXCLUDE) (rules (mkIgnoreFile [Scenario.buildDir; ExtensionRule "log" EXCLUDE])) /\
  Pattern (ExtensionRule "log" EXCLUDE) = Pattern (GlobRule "*.log" INCLUDE) /\
  exists e,
    addRuleWithConflictResolution
      (mkIgnoreFile [Scenario.buildDir; ExtensionRule "log" EXCLUDE])
      (GlobRule "*.log" INCLUDE)
    = (mkIgnoreFile [Scenario.buildDir; ExtensionRule "log" EXCLUDE], [], Some e)
    /\ (e = semanticConflictError \/ e = redundantRuleError
        \/ e = unreachableRuleError).
Proof.
  assert (I : In (ExtensionRule "log" EXCLUDE)
                (rules (mkIgnoreFile [Scenario.buildDir; ExtensionRule "log" EXCLUDE])))
    by (right; left; reflexivity).
  exact (conj I (conj eq_refl
    (add_rejects_same_key _ (GlobRule "*.log" INCLUDE) _ I eq_refl))).
Defined.

End SameKey.

(* ================================================================= *)
(** * Instances *)

Section Instances.

Local Open Scope list_scope.

Lemma moveRule_spec_witness :
  let f := Scenario.twoShadows in
  (0 <= 0 < len (rules f) /\ 0 <> 5 /\ (5 < 0 \/ len (rules f) < 5) /\
   moveRule f 0 5 =
   (mkIgnoreFile [Scenario.buildDir; Scenario.buildATxt],
    Some targetIdxOutofRangeError))
  /\
  (0 <= 2 < len (rules f) /\ 2 <> 0 /\ 0 <= 0 <= len (rules f) /\
   exists rs',
     moveRule f 2 0 = (mkIgnoreFile rs', None)
     /\ Permutation (rules f) rs'
     /\ nth_error rs' (Z.to_nat (if 2 <? 0 then 0 - 1 else 0))
        = nth_error (rules f) (Z.to_nat 2)).
Proof.
  intros f.
  assert (A1 : 0 <= 0 < len (rules f)) by (unfold len; cbn; lia).
  assert (A2 : 0 <> 5) by lia.
  assert (A3 : 5 < 0 \/ len (rules f) < 5) by (right; unfold len; cbn; lia).
  assert (B1 : 0 <= 2 < len (rules f)) by (unfold len; cbn; lia).
  assert (B2 : 2 <> 0) by lia.
  assert (B3 : 0 <= 0 <= len (rules f)) by (unfold len; cbn; lia).
  split.
  - exact (conj A1 (conj A2 (conj A3
      (proj1 (proj2 (proj2 (moveRule_spec f 0 5))) A1 A2 A3)))).
  - exact (conj B1 (conj B2 (conj B3
      (proj2 (proj2 (proj2 (moveRule_spec f 2 0))) B1 B2 B3)))).
Defined.

Lemma MoveRule_spec_witness :
  let f := Scenario.twoShadows in
  (findRuleIndex f Scenario.todoTxt = -1 /\
   MoveRule f Scenario.todoTxt Scenario.txtExt BEFORE REQUESTED
   = (f, zeroResult, Some ruleToMoveNotFoundError))
  /\
  (findRuleIndex f Scenario.buildATxt <> -1 /\
   findRuleIndex f Scenario.txtExt <> -1 /\
   (BEFORE = BEFORE \/ BEFORE = AFTER) /\
   exists f' res,
     MoveRule f Scenario.buildATxt Scenario.txtExt BEFORE REQUESTED
     = (f', res, None)
     /\ Permutation (rules f) (rules f')
     /\ ((res = zeroResult /\ f' = f)
         \/ res = mkResult (Some Scenario.buildATxt) MOVED REQUESTED)).
Proof.
  intros f.
  assert (A : findRuleIndex f Scenario.todoTxt = -1) by reflexivity.
  assert (B1 : findRuleIndex f Scenario.buildATxt <> -1)
    by (vm_compute; discriminate).
  assert (B2 : findRuleIndex f Scenario.txtExt <> -1)
    by (vm_compute; discriminate).
  assert (B3 : BEFORE = BEFORE \/ BEFORE = AFTER) by (left; reflexivity).
  split.
  - exact (conj A
      (proj1 (MoveRule_spec f Scenario.todoTxt Scenario.txtExt BEFORE REQUESTED) A)).
  - exact (conj B1 (conj B2 (conj B3
      (proj2 (proj2 (proj2
         (MoveRule_spec f Scenario.buildATxt Scenario.txtExt BEFORE REQUESTED)))
         B1 B2 B3)))).
Defined.

Lemma MoveRule_position_witness :
  let f := Scenario.twoShadows in
  findRuleIndex f Scenario.txtExt = Z.of_nat 0 /\
  findRuleIndex f Scenario.buildATxt = Z.of_nat 2 /\
  0%nat <> 2%nat /\ BEFORE = BEFORE /\ 3%nat <> 0%nat /\
  exists (rs' : list Rule) (k : nat),
    MoveRule f Scenario.buildATxt Scenario.txtExt BEFORE REQUESTED =
    (mkIgnoreFile rs', mkResult (Some Scenario.buildATxt) MOVED REQUESTED, None)
    /\ nth_error rs' k = nth_error (rules f) 2
    /\ nth_error rs' (S k) = nth_error (rules f) 0
    /\ removeAt rs' k = removeAt (rules f) 2.
Proof.
  intros f.
  assert (N : 0%nat <> 2%nat) by lia.
  assert (M : 3%nat <> 0%nat) by lia.
  exact (conj eq_refl (conj eq_refl (conj N (conj eq_refl (conj M
    (proj1 (MoveRule_position f Scenario.buildATxt Scenario.txtExt BEFORE
              REQUESTED 0 2 eq_refl eq_refl N) eq_refl M)))))).
Defined.

Lemma checkConflict_sound_witness :
  let l := Scenario.buildDir in
  let r := Scenario.buildRec in
  let c := mkConflict r l UNREACHABLE_RULE in
  checkConflict l r [] = Some c /\
  ((c = mkConflict l r SEMANTIC_CONFLICT
    /\ Pattern l = Pattern r /\ ActionOf l <> ActionOf r)
   \/
   (c = mkConflict l r REDUNDANT_RULE
    /\ Pattern l = Pattern r /\ ActionOf l = ActionOf r)
   \/
   (CType c = UNREACHABLE_RULE
    /\ Pattern l <> Pattern r /\ ActionOf l = ActionOf r
    /\ subsumes (Left c) (Right c) = true
    /\ hasInterveningExceptions (Left c) (Right c) [] = false
    /\ ((Left c = l /\ Right c = r)
        \/ (Left c = r /\ Right c = l /\ subsumes l r = false)))
   \/
   (c = mkConflict l r INEFFECTIVE_RULE
    /\ Pattern l <> Pattern r
    /\ ActionOf l = EXCLUDE /\ ActionOf r = INCLUDE
    /\ subsumes r l = true)).
Proof.
  intros l r c.
  exact (conj eq_refl (checkConflict_sound l r [] c eq_refl)).
Defined.

Lemma fresh_conflict_repair_succeeds_witness :
  let c := mkConflict Scenario.txtExt Scenario.buildATxt UNREACHABLE_RULE in
  In c (FindConflicts Scenario.twoShadows) /\
  exists f' res, fixConflict Scenario.twoShadows c = (f', res, None).
Proof.
  intros c.
  assert (I : In c (FindConflicts Scenario.twoShadows))
    by (left; reflexivity).
  exact (conj I (fresh_conflict_repair_succeeds Scenario.twoShadows c I)).
Defined.

Lemma add_then_delete_witness :
  let f := mkIgnoreFile [Scenario.buildDir] in
  let rule := Scenario.todoTxt in
  FindConflicts f = [] /\
  (forall l1 existing l2, rules f = l1 ++ existing :: l2 ->
     checkConflict existing rule l2 = None
     /\ ruleShouldComeBefore rule existing = false) /\
  AddFile f "todo.txt" INCLUDE
  = (mkIgnoreFile [Scenario.buildDir; rule],
     [mkResult (Some rule) ADDED REQUESTED], None) /\
  DeleteFile (mkIgnoreFile [Scenario.buildDir; rule]) "todo.txt" INCLUDE
  = (f, mkResult (Some rule) REMOVED REQUESTED, None).
Proof.
  intros f rule.
  assert (H : forall l1 existing l2, rules f = l1 ++ existing :: l2 ->
            checkConflict existing rule l2 = None
            /\ ruleShouldComeBefore rule existing = false).
  { intros [|y [|z l1]] existing l2 E; cbn in E.
    - injection E as <- <-. split; reflexivity.
    - injection E as _ E. discriminate E.
    - injection E as _ E. discriminate E. }
  pose (T := proj1 (proj2 (proj2 (add_then_delete f rule eq_refl H)))
               "todo.txt"%string INCLUDE eq_refl).
  exact (conj eq_refl (conj H T)).
Defined.

Lemma Parse_RenderFile_witness :
  let f := mkIgnoreFile [ExtensionRule "log" INCLUDE;
                         DirectoryRule "build" DIRECTORY INCLUDE;
                         FileRule "build/important.txt" EXCLUDE] in
  let options := mkRenderOptions true "generated" in
  Contains (HeaderComment options) (String "010" "") = false /\
  Forall readsBack (rules f) /\
  exists rs',
    Parse (RenderFile f options) NewIgnoreFile
    = (mkIgnoreFile (rules NewIgnoreFile ++ rs'), None)
    /\ Forall2 (fun r' r => rulesEqual r' r = true) rs' (rules f).
Proof.
  intros f options.
  assert (R : Forall readsBack (rules f)).
  { constructor; [|constructor; [|constructor; [|constructor]]];
      (split; [|split; [reflexivity|split; [|split]]]).
    - apply (valid_extension "log" INCLUDE). reflexivity.
    - intros _. reflexivity.
    - vm_compute. discriminate.
    - intros _ name mode H. vm_compute in H. discriminate H.
    - apply (valid_directory "build" DIRECTORY INCLUDE). reflexivity.
    - intros _. reflexivity.
    - vm_compute. discriminate.
    - intros _ name mode H. vm_compute in H. injection H as <- _. reflexivity.
    - apply (valid_file "build/important.txt" EXCLUDE). reflexivity.
    - intros E. discriminate E.
    - vm_compute. discriminate.
    - intros _ name mode H. vm_compute in H. discriminate H. }
  exact (conj eq_refl (conj R
    (Parse_RenderFile f NewIgnoreFile options eq_refl R))).
Defined.

(** [TestParseMultiLine]: the content of the test, whose lines are indented
    by a tab. *)
Example test_parse_multi_line :
  Parse (String.concat (String "010" (String "009" ""))
           ["# This is a comment"; "/.pnp"; "*.log"; "build/";
            "!build/important.txt"; "node_modules/**"; "temp*.backup"; "";
            "src/main.go"]%string)
        (mkIgnoreFile [])
  = (mkIgnoreFile
       [DirectoryRule ".pnp" ROOT_ONLY INCLUDE;
        ExtensionRule "log" INCLUDE;
        DirectoryRule "build" DIRECTORY INCLUDE;
        FileRule "build/important.txt" EXCLUDE;
        DirectoryRule "node_modules" RECURSIVE INCLUDE;
        GlobRule "temp*.backup" INCLUDE;
        FileRule "src/main.go" INCLUDE], None).
Proof. vm_compute. reflexivity. Qed.

(** [TestRoundTripFile]: the lines written are the lines read. *)
Example test_round_trip_file :
  let content :=
    String.concat (String "010" (String "009" ""))
      ["*.log"; "build/"; "!build/important.txt"; "node_modules/**";
       "temp*.backup"; ""]%string in
  RenderFile (fst (Parse content (mkIgnoreFile [])))
             (mkRenderOptions false "")
  = String.concat (String "010" "")
      ["*.log"; "build/"; "!build/important.txt"; "node_modules/**";
       "temp*.backup"]%string.
Proof. vm_compute. reflexivity. Qed.

End Instances.

(* ================================================================= *)
(** * The outcome of smart insertion and the repair of an ineffective rule *)

Section InsertionOutcome.

Local Open Scope list_scope.

Local Abbreviation isRemoved := (fun r : Result => (RResult r =? REMOVED)%Z).

Lemma addScan_error (rule : Rule) (rest : list Rule) (e : error) :
  forall i ideal,
    addScan i rest rule ideal = Err e ->
    e = semanticConflictError \/ e = redundantRuleError
    \/ e = unreachableRuleError.
Proof.
  induction rest as [|existing intervening IH]; intros i ideal;
    cbn [addScan]; [discriminate|].
  destruct (checkConflict existing rule intervening) as [c|]; [|apply IH].
  destruct (CType c =? SEMANTIC_CONFLICT)%string; [intros [= <-]; auto|].
  destruct (CType c =? REDUNDANT_RULE)%string; [intros [= <-]; auto|].
  destruct (CType c =? UNREACHABLE_RULE)%string; [intros [= <-]; auto|].
  destruct (CType c =? INEFFECTIVE_RULE)%string; apply IH.
Qed.

Lemma addScan_bound (rule : Rule) (rest : list Rule) (k : nat) :
  forall i ideal,
    addScan i rest rule ideal = Ok k ->
    k = ideal \/ (i <= k < i + List.length rest)%nat.
Proof.
  induction rest as [|existing intervening IH]; intros i ideal;
    cbn [addScan List.length].
  - intros [= <-]. left. reflexivity.
  - assert (C : forall ideal0,
              (ideal0 = ideal \/ ideal0 = i) ->
              addScan (S i) intervening rule
                (if ruleShouldComeBefore rule existing && (i <? ideal0)%nat
                 then i else ideal0) = Ok k ->
              k = ideal \/ (i <= k < i + S (List.length intervening))%nat).
    { intros ideal0 H0 H.
      destruct (IH _ _ H) as [-> | B]; [|right; lia].
      destruct (ruleShouldComeBefore rule existing && (i <? ideal0)%nat);
        [right; lia|].
      destruct H0 as [-> | ->]; [left; reflexivity | right; lia]. }
    destruct (checkConflict existing rule intervening) as [c|];
      [|apply C; left; reflexivity].
    destruct (CType c =? SEMANTIC_CONFLICT)%string; [discriminate|].
    destruct (CType c =? REDUNDANT_RULE)%string; [discriminate|].
    destruct (CType c =? UNREACHABLE_RULE)%string; [discriminate|].
    destruct (CType c =? INEFFECTIVE_RULE)%string;
      apply C; [right | left]; reflexivity.
Qed.

Lemma addScan_no_rejection (rule : Rule) (rest : list Rule) :
  forall i ideal,
    match addScan i rest rule ideal with
    | Ok _ => firstRejection rule rest = None
    | Err e => firstRejection rule rest = Some e
    end.
Proof.
  induction rest as [|existing intervening IH]; intros i ideal;
    cbn [addScan firstRejection]; [reflexivity|].
  unfold rejectionAt, rejection.
  destruct (checkConflict existing rule intervening) as [c|]; [|apply IH].
  destruct (CType c =? SEMANTIC_CONFLICT)%string; [reflexivity|].
  destruct (CType c =? REDUNDANT_RULE)%string; [reflexivity|].
  destruct (CType c =? UNREACHABLE_RULE)%string; [reflexivity|].
  destruct (CType c =? INEFFECTIVE_RULE)%string; apply IH.
Qed.

(** X19.  Every outcome of [add].
    Either some existing rule rejects the new rule: the error is that of the
    first rule that does, one of the three insertion-conflict errors, there
    is no result and the container is as it was.
    Or no existing rule rejects it.  Then the rule is inserted, once, at some
    index [k] of the container, the fixer runs with a budget of 20 passes on
    the container so extended, and [add] leaves the container the fixer
    leaves and returns the fixer's error.  When the fixer succeeds the
    results are ADDED / REQUESTED for the rule followed by the fixer's
    results; when it fails the results are empty, and the container is not
    restored.  In both cases the rules left, together with the rules the
    fixer removed (as many as the REMOVED results of the fixer), are a
    permutation of the old rules and the new one. *)
Theorem add_outcomes (f : IgnoreFile) (rule : Rule) :
  (exists e,
     firstRejection rule (rules f) = Some e
     /\ addRuleWithConflictResolution f rule = (f, [], Some e)
     /\ (e = semanticConflictError \/ e = redundantRuleError
         \/ e = unreachableRuleError))
  \/
  (exists (k : nat) f' logs err removed,
     firstRejection rule (rules f) = None
     /\ (k <= List.length (rules f))%nat
     /\ FixConflicts (mkIgnoreFile (insertAt (rules f) k rule)) 20
        = (f', logs, err)
     /\ addRuleWithConflictResolution f rule
        = (f',
           match err with
           | None => mkResult (Some rule) ADDED REQUESTED :: logs
           | Some _ => []
           end,
           err)
     /\ Permutation (rule :: rules f) (rules f' ++ removed)
     /\ List.length removed = List.length (filter isRemoved logs)).
Proof.
  unfold addRuleWithConflictResolution.
  pose proof (addScan_no_rejection rule (rules f) 0 (List.length (rules f))) as R.
  destruct (addScan 0 (rules f) rule (List.length (rules f))) as [k|e] eqn:S.
  - right.
    assert (Hk : (k <= List.length (rules f))%nat)
      by (destruct (addScan_bound _ _ _ _ _ S); lia).
    set (f1 := mkIgnoreFile (insertAt (rules f) k rule)).
    destruct (fixLoop_conserves (Z.to_nat 20) f1 [] 0) as (removed & P & L).
    cbn [filter List.length Nat.add] in L.
    assert (P1 : Permutation (rule :: rules f)
                   (rules (file (fixLoop (Z.to_nat 20) f1 [] 0)) ++ removed)).
    { etransitivity; [apply Permutation_insertAt | exact P]. }
    exists k, (file (FixConflictsRun f1 20)), (fixLogs (FixConflictsRun f1 20)),
           (failure (FixConflictsRun f1 20)), removed.
    split; [exact R|]. split; [exact Hk|]. split; [reflexivity|].
    split; [|split; [exact P1 | symmetry; exact L]].
    unfold FixConflicts.
    destruct (failure (FixConflictsRun f1 20)); reflexivity.
  - left. exists e. split; [exact R|]. split; [reflexivity|].
    eapply addScan_error, S.
Qed.

(** [add] on [*.txt, *.txt, a.txt], a container that [Parse] builds: the new
    rule is accepted and inserted, the fixer fails on a stale conflict, and
    [add] returns the error with no result, leaving a container that has
    lost two rules and gained the new one. *)
Example test_add_fixer_failure :
  fst (Parse (String.concat (String "010" "") ["*.txt"; "*.txt"; "a.txt"])
             NewIgnoreFile) = Scenario.twice
  /\ AddFile Scenario.twice "foo" INCLUDE
     = (mkIgnoreFile [Scenario.txtExt; FileRule "foo" INCLUDE], [],
        Some ruleToMoveNotFoundError).
Proof. split; vm_compute; reflexivity. Qed.

(** X20.  Repairing an INEFFECTIVE_RULE conflict whose sides are both in the
    container, Left (the exception) first found at index [j] and Right (the
    broader rule) at another index [i].
    - If Left already stands immediately behind Right nothing moves, and
      the repair returns the zero result, which the fixer logs.
    - Otherwise Left is moved to immediately behind Right, with the result
      MOVED; the other rules keep their order. *)
Theorem ineffective_repair (f : IgnoreFile) (c : Conflict) (i j : nat) :
  CType c = INEFFECTIVE_RULE ->
  findRuleIndex f (Right c) = Z.of_nat i ->
  findRuleIndex f (Left c) = Z.of_nat j ->
  (j = S i -> fixConflict f c = (f, zeroResult, None))
  /\
  (j <> S i -> j <> i ->
   exists (rs' : list Rule) (k : nat),
     fixConflict f c =
     (mkIgnoreFile rs', mkResult (Some (Left c)) MOVED AUTOMATED_FIX, None)
     /\ nth_error rs' k = nth_error (rules f) i
     /\ nth_error rs' (S k) = nth_error (rules f) j
     /\ removeAt rs' (S k) = removeAt (rules f) j).
Proof.
  intros HC Hi Hj.
  assert (E : fixConflict f c
              = MoveRule f (Left c) (Right c) AFTER AUTOMATED_FIX).
  { unfold fixConflict. rewrite HC. reflexivity. }
  rewrite E. clear E.
  pose proof (firstMatch_length _ _ _ (findRuleIndex_nat _ _ _ Hi)) as Li.
  pose proof (firstMatch_length _ _ _ (findRuleIndex_nat _ _ _ Hj)) as Lj.
  destruct (nth_error (rules f) j) as [x|] eqn:Hx;
    [|apply nth_error_None in Hx; lia].
  pose proof (length_removeAt (rules f) j Lj) as Hlen.
  rewrite (MoveRule_found f (Left c) (Right c) AFTER AUTOMATED_FIX i j x
             Hi Hj Hx Li (or_intror eq_refl)).
  change (AFTER =? BEFORE) with false. cbn iota. cbn [andb].
  rewrite orb_false_r. split.
  - intros ->. rewrite Nat.eqb_refl. reflexivity.
  - intros Hadj Hne. destruct (Nat.eqb_spec j (S i)); [lia|].
    destruct (Nat.ltb_spec j (S i)).
    + exists (insertAt (removeAt (rules f) j) (S i - 1) x), (i - 1)%nat.
      replace (S i - 1)%nat with i by lia.
      replace (S (i - 1)) with i by lia.
      split; [reflexivity|]. split; [|split].
      * rewrite nth_error_insertAt_lt by lia.
        rewrite nth_error_removeAt_ge by lia. f_equal. lia.
      * apply nth_error_insertAt_eq. lia.
      * apply removeAt_insertAt. lia.
    + exists (insertAt (removeAt (rules f) j) (S i) x), i.
      split; [reflexivity|]. split; [|split].
      * rewrite nth_error_insertAt_lt by lia.
        apply nth_error_removeAt_lt. lia.
      * apply nth_error_insertAt_eq. lia.
      * apply removeAt_insertAt. lia.
Qed.

(** Scenario C, [!build/important.txt, build/**], is an instance. *)
Lemma ineffective_repair_witness :
  let f := mkIgnoreFile [Scenario.notImportant; Scenario.buildRec] in
  let c := mkConflict Scenario.notImportant Scenario.buildRec INEFFECTIVE_RULE in
  CType c = INEFFECTIVE_RULE /\
  findRuleIndex f (Right c) = Z.of_nat 1 /\
  findRuleIndex f (Left c) = Z.of_nat 0 /\
  0%nat <> 2%nat /\ 0%nat <> 1%nat /\
  FindConflicts f = [c] /\
  FixConflicts f 10
  = (mkIgnoreFile [Scenario.buildRec; Scenario.notImportant],
     [mkResult (Some Scenario.notImportant) MOVED AUTOMATED_FIX], None) /\
  exists (rs' : list Rule) (k : nat),
    fixConflict f c =
    (mkIgnoreFile rs', mkResult (Some (Left c)) MOVED AUTOMATED_FIX, None)
    /\ nth_error rs' k = nth_error (rules f) 1
    /\ nth_error rs' (S k) = nth_error (rules f) 0
    /\ removeAt rs' (S k) = removeAt (rules f) 0.
Proof.
  intros f c.
  assert (N2 : 0%nat <> 2%nat) by lia.
  assert (N1 : 0%nat <> 1%nat) by lia.
  exact (conj eq_refl (conj eq_refl (conj eq_refl (conj N2 (conj N1
    (conj eq_refl (conj eq_refl
      (proj2 (ineffective_repair f c 1 0 eq_refl eq_refl eq_refl) N2 N1)))))))).
Defined.

End InsertionOutcome.
